(** * Hybrid IDS: packet parser, connection tracker, feature extractor and
      signature rule engine

    A shallow embedding of the C++ sources under [src/nids]:
    - [parser/packet_parser.cpp]   (modules [Parser], [ParserTests]; the
      wire format it decodes in module [Wire]),
    - [features/connection_tracker.cpp] (modules [Tracker], [TrackerApi]),
    - [features/feature_extractor.cpp]  (module [Extractor]),
    - [rules/rule_engine.cpp] and [common/types.cpp] (modules [Rules],
      [RulesSpec]),
    - the per-packet loop body of [sids_main.cpp] (modules [Sids],
      [SidsStats]),
    - the DNS decoder of [parser/protocol_decoder.cpp] (module [Dns]).

    Conventions.
    - A [uintN_t] is a [Z] in [0, 2^N); every C++ operation that can leave
      the range is followed by its wrap-around ([u8] .. [u64]).
    - A [double] is a primitive IEEE-754 binary64 [float].
    - A [std::chrono::system_clock::time_point] is the [Z] number of
      nanoseconds since the epoch (the libstdc++ representation); the
      [duration_cast]s truncate towards zero ([Z.quot]).
    - A [const uint8_t*] is a [Ptr]: a buffer and an offset into it.  A read
      through a pointer is recorded in a trace of absolute offsets, so that
      the set of bytes a parse touches is a result of the parse. *)

From Corelib Require Import PrimFloat PrimInt63.
From Stdlib Require Import ZArith List String Ascii Lia.
From stdpp Require Import gmap strings list fin_maps pretty.

Local Open Scope Z_scope.

(** ** Machine integers *)

Definition wrap (w x : Z) : Z := x mod 2 ^ w.
Definition u8 (x : Z) : Z := wrap 8 x.
Definition u16 (x : Z) : Z := wrap 16 x.
Definition u32 (x : Z) : Z := wrap 32 x.
Definition u64 (x : Z) : Z := wrap 64 x.

(** ** Doubles *)

Fixpoint int_of_pos (p : positive) : int :=
  match p with
  | xH => 1%uint63
  | xO q => PrimInt63.lsl (int_of_pos q) 1%uint63
  | xI q => PrimInt63.lor (PrimInt63.lsl (int_of_pos q) 1%uint63) 1%uint63
  end.

(** Conversion of an integer below [2^63] in magnitude to [double]
    (round to nearest even, as the hardware conversion does). *)
Definition double_of_small (z : Z) : float :=
  match z with
  | Z0 => 0%float
  | Zpos p => PrimFloat.of_uint63 (int_of_pos p)
  | Zneg p => PrimFloat.opp (PrimFloat.of_uint63 (int_of_pos p))
  end.

(** [static_cast<double>] of a [uint64_t].  Values with the top bit set are
    halved with a sticky low bit, converted and doubled, which rounds as
    the direct conversion does. *)
Definition double_of_u64 (z : Z) : float :=
  if z <? 2 ^ 63 then double_of_small z
  else PrimFloat.mul 2%float
         (double_of_small (Z.lor (Z.shiftr z 1) (Z.land z 1))).

(** [static_cast<double>] of an [int64_t]. *)
Definition double_of_i64 (z : Z) : float := double_of_small z.

Definition fzero : float := 0%float.
Definition fgt0 (x : float) : bool := PrimFloat.ltb 0%float x.

(** ** Time *)

Definition time_point : Type := Z.
Definition ns_per_ms : Z := 1000000.
Definition ns_per_s : Z := 1000000000.
(** [duration_cast<milliseconds>(d).count()] and
    [duration_cast<seconds>(d).count()]. *)
Definition to_milliseconds (d : Z) : Z := Z.quot d ns_per_ms.
Definition to_seconds (d : Z) : Z := Z.quot d ns_per_s.
(** [ms / 1000.0] *)
Definition ms_to_sec (ms : Z) : float :=
  PrimFloat.div (double_of_i64 ms) 1000%float.

(** ** Buffers, pointers and traced reads *)

(** The captured bytes, and the bytes that happen to lie after them in
    memory: a read past the end of the capture returns one of those. *)
Record Buffer : Type := mkBuffer {
  bytes : list Z;
  beyond : Z -> Z
}.

Definition buf_len (b : Buffer) : Z := Z.of_nat (length (bytes b)).

Definition byte_at (b : Buffer) (i : Z) : Z :=
  if (0 <=? i) && (i <? buf_len b)
  then u8 (nth (Z.to_nat i) (bytes b) 0)
  else u8 (beyond b i).

Record Ptr : Type := mkPtr {
  buf : Buffer;
  off : Z
}.

Definition ptr_add (p : Ptr) (n : Z) : Ptr := mkPtr (buf p) (off p + n).

(** A computation that reads memory: it extends the trace of offsets read
    (most recent first). *)
Definition Rd (A : Type) : Type := list Z -> A * list Z.

#[global] Instance rd_ret : MRet Rd := fun A a tr => (a, tr).
#[global] Instance rd_bind : MBind Rd :=
  fun A B k m tr => let '(a, tr') := m tr in k a tr'.

(** [p[i]] *)
Definition load (p : Ptr) (i : Z) : Rd Z :=
  fun tr => (byte_at (buf p) (off p + i), (off p + i) :: tr).

(** [(p[i] << 8) | p[i+1]] *)
Definition load16 (p : Ptr) (i : Z) : Rd Z :=
  hi ← load p i; lo ← load p (i + 1);
  mret (Z.lor (Z.shiftl hi 8) lo).

(** [(p[i] << 24) | (p[i+1] << 16) | (p[i+2] << 8) | p[i+3]] *)
Definition load32 (p : Ptr) (i : Z) : Rd Z :=
  b0 ← load p i; b1 ← load p (i + 1); b2 ← load p (i + 2); b3 ← load p (i + 3);
  mret (u32 (Z.lor (Z.lor (Z.lor (Z.shiftl b0 24) (Z.shiftl b1 16)) (Z.shiftl b2 8)) b3)).

(** [memcpy(dst, p + i, n)]: the [n] bytes from [p + i], in memory order. *)
Fixpoint load_bytes (p : Ptr) (i : Z) (n : nat) : Rd (list Z) :=
  match n with
  | O => mret []
  | S n' => b ← load p i; bs ← load_bytes p (i + 1) n'; mret (b :: bs)
  end.

Definition run_rd {A} (m : Rd A) : A * list Z := m [].

(** * common/types.h, common/types.cpp *)

Module Types.

Inductive Protocol : Type :=
  | P_UNKNOWN | P_ETHERNET | P_IPV4 | P_IPV6 | P_TCP | P_UDP | P_ICMP
  | P_HTTP | P_DNS | P_TLS.

Inductive Severity : Type := LOW | MEDIUM | HIGH | CRITICAL.

Record EthernetHeader : Type := mkEthernetHeader {
  dst_mac : list Z;
  src_mac : list Z;
  ethertype : Z
}.

Record IPv4Header : Type := mkIPv4Header {
  version_ihl : Z;
  tos : Z;
  total_length : Z;
  identification : Z;
  flags_fragment : Z;
  ttl : Z;
  protocol : Z;
  ip_checksum : Z;
  (** The [uint32_t] filled by [memcpy] from the wire.  It is named here
      by its network-order value [b0 b1 b2 b3] (first byte in memory most
      significant), a host-independent name for the bit pattern. *)
  src_ip : Z;
  dst_ip : Z
}.

Record TCPHeader : Type := mkTCPHeader {
  tcp_src_port : Z;
  tcp_dst_port : Z;
  seq_number : Z;
  ack_number : Z;
  data_offset : Z;
  flags : Z;
  window_size : Z;
  tcp_checksum : Z;
  urgent_pointer : Z
}.

Record UDPHeader : Type := mkUDPHeader {
  udp_src_port : Z;
  udp_dst_port : Z;
  udp_length : Z;
  udp_checksum : Z
}.

Record ParsedPacket : Type := mkParsedPacket {
  timestamp : time_point;
  packet_id : Z;
  raw_data : option Ptr;
  raw_length : Z;
  eth_header : EthernetHeader;
  ip_header : IPv4Header;
  has_tcp : bool;
  has_udp : bool;
  tcp_header : TCPHeader;
  udp_header : UDPHeader;
  payload : option Ptr;
  payload_length : Z
}.

(** Value-initialisation [T x = {}]. *)
Definition zero_mac : list Z := [0; 0; 0; 0; 0; 0].
Definition zero_eth : EthernetHeader := mkEthernetHeader zero_mac zero_mac 0.
Definition zero_ipv4 : IPv4Header := mkIPv4Header 0 0 0 0 0 0 0 0 0 0.
Definition zero_tcp : TCPHeader := mkTCPHeader 0 0 0 0 0 0 0 0 0.
Definition zero_udp : UDPHeader := mkUDPHeader 0 0 0 0.
Definition zero_packet : ParsedPacket :=
  mkParsedPacket 0 0 None 0 zero_eth zero_ipv4 false false zero_tcp zero_udp None 0.

(** Field assignments [packet.f = v]. *)
Definition set_stamp (p : ParsedPacket) (ts : time_point) (id : Z)
    (data : option Ptr) (len : Z) : ParsedPacket :=
  mkParsedPacket ts id data len (eth_header p) (ip_header p) (has_tcp p)
    (has_udp p) (tcp_header p) (udp_header p) (payload p) (payload_length p).
Definition set_eth (p : ParsedPacket) (h : EthernetHeader) : ParsedPacket :=
  mkParsedPacket (timestamp p) (packet_id p) (raw_data p) (raw_length p) h
    (ip_header p) (has_tcp p) (has_udp p) (tcp_header p) (udp_header p)
    (payload p) (payload_length p).
Definition set_ip (p : ParsedPacket) (h : IPv4Header) : ParsedPacket :=
  mkParsedPacket (timestamp p) (packet_id p) (raw_data p) (raw_length p)
    (eth_header p) h (has_tcp p) (has_udp p) (tcp_header p) (udp_header p)
    (payload p) (payload_length p).
Definition set_tcp (p : ParsedPacket) (h : TCPHeader) (pl : option Ptr)
    (len : Z) : ParsedPacket :=
  mkParsedPacket (timestamp p) (packet_id p) (raw_data p) (raw_length p)
    (eth_header p) (ip_header p) (has_tcp p) (has_udp p) h (udp_header p)
    pl len.
Definition set_udp (p : ParsedPacket) (h : UDPHeader) (pl : option Ptr)
    (len : Z) : ParsedPacket :=
  mkParsedPacket (timestamp p) (packet_id p) (raw_data p) (raw_length p)
    (eth_header p) (ip_header p) (has_tcp p) (has_udp p) (tcp_header p) h
    pl len.
Definition set_has_tcp (p : ParsedPacket) : ParsedPacket :=
  mkParsedPacket (timestamp p) (packet_id p) (raw_data p) (raw_length p)
    (eth_header p) (ip_header p) true (has_udp p) (tcp_header p)
    (udp_header p) (payload p) (payload_length p).
Definition set_has_udp (p : ParsedPacket) : ParsedPacket :=
  mkParsedPacket (timestamp p) (packet_id p) (raw_data p) (raw_length p)
    (eth_header p) (ip_header p) (has_tcp p) true (tcp_header p)
    (udp_header p) (payload p) (payload_length p).

(** The 32-bit word whose bytes in memory are [bs], first byte most
    significant. *)
Definition word_of_bytes (bs : list Z) : Z :=
  fold_left (fun acc b => acc * 256 + b) bs 0.

(** The host on which the program runs: [ntohs] depends on its byte
    order. *)
Class Host : Type := { little_endian : bool }.

Definition bswap16 (x : Z) : Z :=
  Z.lor (Z.shiftl (Z.land x 0xFF) 8) (Z.shiftr x 8).

Section WithHost.
Context `{Host}.

Definition ntohs (x : Z) : Z := if little_endian then bswap16 x else x.

(** [ParsedPacket::get_src_port], [ParsedPacket::get_dst_port] *)
Definition get_src_port (p : ParsedPacket) : Z :=
  if has_tcp p then ntohs (tcp_src_port (tcp_header p))
  else if has_udp p then ntohs (udp_src_port (udp_header p))
  else 0.

Definition get_dst_port (p : ParsedPacket) : Z :=
  if has_tcp p then ntohs (tcp_dst_port (tcp_header p))
  else if has_udp p then ntohs (udp_dst_port (udp_header p))
  else 0.

End WithHost.

(** [inet_ntop(AF_INET, &ip, ...)]: the four bytes of the address in
    memory order, in decimal, separated by dots. *)
Definition inet_ntop (ip : Z) : string :=
  pretty (Z.land (Z.shiftr ip 24) 0xFF) +:+ "." +:+
  pretty (Z.land (Z.shiftr ip 16) 0xFF) +:+ "." +:+
  pretty (Z.land (Z.shiftr ip 8) 0xFF) +:+ "." +:+
  pretty (Z.land ip 0xFF).

Definition get_src_ip (p : ParsedPacket) : string := inet_ntop (src_ip (ip_header p)).
Definition get_dst_ip (p : ParsedPacket) : string := inet_ntop (dst_ip (ip_header p)).

Definition get_protocol (p : ParsedPacket) : string :=
  if has_tcp p then "TCP" else if has_udp p then "UDP" else "OTHER".

End Types.

(** * parser/packet_parser.cpp *)

Module Parser.
Import Types.

Definition ETHER_HDR_SIZE : Z := 14.
Definition IPPROTO_TCP_NUM : Z := 6.
Definition IPPROTO_UDP_NUM : Z := 17.
Definition IPPROTO_ICMP_NUM : Z := 1.

Record PacketParser : Type := mkPacketParser {
  packets_parsed_ : Z;
  parse_errors_ : Z;
  next_packet_id_ : Z
}.

(** [PacketParser::PacketParser()] *)
Definition init : PacketParser := mkPacketParser 0 0 1.

Definition count_error (st : PacketParser) : PacketParser :=
  mkPacketParser (packets_parsed_ st) (u64 (parse_errors_ st + 1))
    (next_packet_id_ st).
Definition count_parsed (st : PacketParser) : PacketParser :=
  mkPacketParser (u64 (packets_parsed_ st + 1)) (parse_errors_ st)
    (next_packet_id_ st).
Definition take_id (st : PacketParser) : PacketParser :=
  mkPacketParser (packets_parsed_ st) (parse_errors_ st)
    (u64 (next_packet_id_ st + 1)).

Definition validate_packet (data : option Ptr) (length : Z) : bool :=
  match data with
  | None => false
  | Some _ => 34 <=? length
  end.

Definition parse_ethernet (data : Ptr) (length : Z) (packet : ParsedPacket)
    : Rd (bool * ParsedPacket) :=
  if length <? ETHER_HDR_SIZE then mret (false, packet)
  else
    dst ← load_bytes data 0 6;
    src ← load_bytes data 6 6;
    et ← load16 data 12;
    mret (et =? 0x0800, set_eth packet (mkEthernetHeader dst src et)).

Definition parse_ipv4 (data : Ptr) (length : Z) (packet : ParsedPacket)
    : Rd (bool * ParsedPacket) :=
  if length <? 20 then mret (false, packet)
  else
    vi ← load data 0;
    let h := ip_header packet in
    let h1 := mkIPv4Header vi (tos h) (total_length h) (identification h)
                (flags_fragment h) (ttl h) (protocol h) (ip_checksum h)
                (src_ip h) (dst_ip h) in
    b0 ← load data 0;
    let version := Z.land (Z.shiftr b0 4) 0x0F in
    if negb (version =? 4) then mret (false, set_ip packet h1)
    else
      ts ← load data 1;
      tl ← load16 data 2;
      idn ← load16 data 4;
      ff ← load16 data 6;
      tt ← load data 8;
      pr ← load data 9;
      ck ← load16 data 10;
      src ← load_bytes data 12 4;
      dst ← load_bytes data 16 4;
      mret (true, set_ip packet
                    (mkIPv4Header vi ts tl idn ff tt pr ck
                       (word_of_bytes src) (word_of_bytes dst))).

Definition parse_tcp (data : Ptr) (length : Z) (packet : ParsedPacket)
    : Rd (bool * ParsedPacket) :=
  if length <? 20 then mret (false, packet)
  else
    sp ← load16 data 0;
    dp ← load16 data 2;
    sq ← load32 data 4;
    ak ← load32 data 8;
    b12 ← load data 12;
    let doff := Z.land (Z.shiftr b12 4) 0x0F in
    b13 ← load data 13;
    let fl := Z.land b13 0x3F in
    ws ← load16 data 14;
    ck ← load16 data 16;
    up ← load16 data 18;
    let h := mkTCPHeader sp dp sq ak doff fl ws ck up in
    let tcp_header_length := u32 (doff * 4) in
    if tcp_header_length <? length
    then mret (true, set_tcp packet h (Some (ptr_add data tcp_header_length))
                       (u32 (length - tcp_header_length)))
    else mret (true, set_tcp packet h None 0).

Definition parse_udp (data : Ptr) (length : Z) (packet : ParsedPacket)
    : Rd (bool * ParsedPacket) :=
  if length <? 8 then mret (false, packet)
  else
    sp ← load16 data 0;
    dp ← load16 data 2;
    ln ← load16 data 4;
    ck ← load16 data 6;
    let h := mkUDPHeader sp dp ln ck in
    if 8 <? length
    then mret (true, set_udp packet h (Some (ptr_add data 8)) (u32 (length - 8)))
    else mret (true, set_udp packet h None 0).

(** [PacketParser::parse]: the parser state is threaded explicitly. *)
Definition parse (data : option Ptr) (length : Z) (ts : time_point)
    (st : PacketParser) : Rd (ParsedPacket * PacketParser) :=
  let packet := set_stamp zero_packet ts (next_packet_id_ st) data length in
  let st := take_id st in
  if negb (validate_packet data length) then mret (packet, count_error st)
  else
    match data with
    | None => mret (packet, count_error st)
    | Some d =>
      '(ok, packet) ← parse_ethernet d length packet;
      if negb ok then mret (packet, count_error st)
      else
        '(ok, packet) ← parse_ipv4 (ptr_add d ETHER_HDR_SIZE)
                          (u32 (length - ETHER_HDR_SIZE)) packet;
        if negb ok then mret (packet, count_error st)
        else
          let ip_header_length :=
            u8 (Z.land (version_ihl (ip_header packet)) 0x0F * 4) in
          let transport_data :=
            ptr_add (ptr_add d ETHER_HDR_SIZE) ip_header_length in
          let transport_length :=
            u32 (length - ETHER_HDR_SIZE - ip_header_length) in
          packet ←
            (if protocol (ip_header packet) =? IPPROTO_TCP_NUM then
               '(ok, packet) ← parse_tcp transport_data transport_length packet;
               mret (if ok : bool then set_has_tcp packet else packet)
             else if protocol (ip_header packet) =? IPPROTO_UDP_NUM then
               '(ok, packet) ← parse_udp transport_data transport_length packet;
               mret (if ok : bool then set_has_udp packet else packet)
             else mret packet : Rd ParsedPacket);
          mret (packet, count_parsed st)
    end.

(** An offset lies inside a capture of [length] bytes that starts at
    offset 0. *)
Definition in_bounds (length : Z) (o : Z) : bool := (0 <=? o) && (o <? length).

(** What the three admission checks of [parse] look at: the ethertype at
    bytes 12 and 13, and the version nibble of byte 14. *)
Definition ethertype_at (d : Ptr) : Z :=
  Z.lor (Z.shiftl (byte_at (buf d) (off d + 12)) 8)
        (byte_at (buf d) (off d + (12 + 1))).
Definition ip_version_at (d : Ptr) : Z :=
  Z.land (Z.shiftr (byte_at (buf d) (off d + ETHER_HDR_SIZE + 0)) 4) 0x0F.
Definition ihl_at (d : Ptr) : Z :=
  Z.land (byte_at (buf d) (off d + ETHER_HDR_SIZE + 0)) 0x0F.
Definition ip_protocol_at (d : Ptr) : Z :=
  byte_at (buf d) (off d + ETHER_HDR_SIZE + 9).

(** The input passes the length, ethertype and IP-version checks. *)
Definition accepted (data : option Ptr) (length : Z) : bool :=
  match data with
  | None => false
  | Some d =>
      (34 <=? length) && (ethertype_at d =? 0x0800) && (ip_version_at d =? 4)
  end.

(** Successive calls of [parse] on one parser. *)
Definition Input : Type := option Ptr * Z * time_point.

Fixpoint parse_all (inputs : list Input) (st : PacketParser)
    : list ParsedPacket * PacketParser :=
  match inputs with
  | [] => ([], st)
  | (data, length, ts) :: rest =>
      let '(pkt, st1) := fst (run_rd (parse data length ts st)) in
      let '(pkts, st2) := parse_all rest st1 in
      (pkt :: pkts, st2)
  end.

(** The [length] argument is a [uint32_t]. *)
Definition wf_input (i : Input) : Prop := 0 <= i.1.2 < 2 ^ 32.

(** How many of the inputs pass the three checks. *)
Fixpoint accepted_count (inputs : list Input) : Z :=
  match inputs with
  | [] => 0
  | (data, length, _) :: rest =>
      (if accepted data length then 1 else 0) + accepted_count rest
  end.

(** ** Records used to state the properties of the parser *)

(** What one call of [parse] does to the parser and what it returns,
    whichever bytes it read. *)
Record parse_facts (data : option Ptr) (len : Z) (ts : time_point)
    (st : PacketParser) (pkt : ParsedPacket) (st' : PacketParser) : Prop := {
  pf_id : packet_id pkt = next_packet_id_ st;
  pf_ts : timestamp pkt = ts;
  pf_len : raw_length pkt = len;
  pf_next : next_packet_id_ st' = u64 (next_packet_id_ st + 1);
  pf_counts :
    if accepted data len
    then packets_parsed_ st' = u64 (packets_parsed_ st + 1)
         /\ parse_errors_ st' = parse_errors_ st
    else packets_parsed_ st' = packets_parsed_ st
         /\ parse_errors_ st' = u64 (parse_errors_ st + 1)
         /\ has_tcp pkt = false /\ has_udp pkt = false
         /\ payload pkt = None /\ payload_length pkt = 0;
  pf_tcp : has_tcp pkt = true ->
           protocol (ip_header pkt) = IPPROTO_TCP_NUM /\ has_udp pkt = false;
  pf_udp : has_udp pkt = true ->
           protocol (ip_header pkt) = IPPROTO_UDP_NUM /\ has_tcp pkt = false
}.

(** What a run of [parse] does, when the counters do not wrap around. *)
Record run_facts (inputs : list Input) (st : PacketParser)
    (pkts : list ParsedPacket) (st' : PacketParser) : Prop := {
  rf_parsed : packets_parsed_ st' = packets_parsed_ st + accepted_count inputs;
  rf_errors : parse_errors_ st' =
              parse_errors_ st + (Z.of_nat (length inputs) - accepted_count inputs);
  rf_next : next_packet_id_ st' = next_packet_id_ st + Z.of_nat (length inputs);
  rf_length : length pkts = length inputs;
  rf_ids : forall (i : nat) p, pkts !! i = Some p ->
           packet_id p = next_packet_id_ st + Z.of_nat i
}.

End Parser.

(** * features/connection_tracker.h, features/connection_tracker.cpp *)

Module Tracker.
Import Types.

Definition TCP_FIN : Z := 0x01.
Definition TCP_SYN : Z := 0x02.
Definition TCP_RST : Z := 0x04.
Definition TCP_PSH : Z := 0x08.
Definition TCP_ACK : Z := 0x10.
Definition TCP_URG : Z := 0x20.

(** [flags & bit], read as a condition. *)
Definition has_flag (flags bit : Z) : bool := negb (Z.land flags bit =? 0).

Record ConnectionKey : Type := mkConnectionKey {
  src_ip : Z;
  dst_ip : Z;
  src_port : Z;
  dst_port : Z;
  protocol : Z
}.

#[global] Instance ConnectionKey_eq_dec : EqDecision ConnectionKey.
Proof. solve_decision. Defined.

#[global] Instance ConnectionKey_countable : Countable ConnectionKey.
Proof.
  refine (inj_countable'
            (fun k => (src_ip k, dst_ip k, src_port k, dst_port k, protocol k))
            (fun '(a, b, c, d, e) => mkConnectionKey a b c d e) _).
  intros []. reflexivity.
Defined.

Inductive ConnectionState : Type :=
  | SYN_SENT | SYN_RECEIVED | ESTABLISHED | FIN_WAIT | CLOSED | UNKNOWN.

#[global] Instance ConnectionState_eq_dec : EqDecision ConnectionState.
Proof. solve_decision. Defined.

(** [struct FlowStats], without the ten "computed features", which only
    [update_computed_features] writes. *)
Record FlowStats : Type := mkFlowStats {
  start_time : time_point;
  last_seen : time_point;
  duration : float;
  fwd_packets : Z;
  fwd_bytes : Z;
  fwd_iat : list float;
  fwd_pkt_lengths : list Z;
  bwd_packets : Z;
  bwd_bytes : Z;
  bwd_iat : list float;
  bwd_pkt_lengths : list Z;
  syn_count : Z;
  ack_count : Z;
  fin_count : Z;
  rst_count : Z;
  psh_count : Z;
  urg_count : Z;
  state : ConnectionState
}.

Record ConnectionTracker : Type := mkConnectionTracker {
  connections_ : gmap ConnectionKey FlowStats;
  timeout_seconds_ : Z;
  max_connections_ : Z;
  total_connections_ : Z;
  expired_connections_ : Z
}.

(** [ConnectionTracker::ConnectionTracker(timeout_seconds, max_connections)] *)
Definition init (timeout_seconds max_connections : Z) : ConnectionTracker :=
  mkConnectionTracker ∅ timeout_seconds max_connections 0 0.

(** [get_active_connections] *)
Definition get_active_connections (t : ConnectionTracker) : Z :=
  Z.of_nat (size (connections_ t)).

(** [update_tcp_state]: the new value of [flow.state]. *)
Definition update_tcp_state (st : ConnectionState) (flags : Z) : ConnectionState :=
  match st with
  | UNKNOWN =>
      if has_flag flags TCP_SYN && negb (has_flag flags TCP_ACK)
      then SYN_SENT else st
  | SYN_SENT =>
      if has_flag flags TCP_SYN && has_flag flags TCP_ACK
      then SYN_RECEIVED else st
  | SYN_RECEIVED =>
      if has_flag flags TCP_ACK then ESTABLISHED else st
  | ESTABLISHED =>
      if has_flag flags TCP_FIN then FIN_WAIT
      else if has_flag flags TCP_RST then CLOSED
      else st
  | FIN_WAIT =>
      if has_flag flags TCP_FIN || has_flag flags TCP_RST
      then CLOSED else st
  | CLOSED => st
  end.

(** [is_expired], given the reading [now] of the system clock. *)
Definition is_expired (timeout_seconds : Z) (now : time_point) (flow : FlowStats) : bool :=
  let age := to_seconds (now - last_seen flow) in
  (timeout_seconds <? age) || bool_decide (state flow = CLOSED).

(** [is_expired] reads the clock once for every entry it is asked about:
    a [Clock] gives the reading at which the entry of each key is judged. *)
Definition Clock : Type := ConnectionKey -> time_point.

Definition survives (timeout_seconds : Z) (clock : Clock)
    (kv : ConnectionKey * FlowStats) : Prop :=
  is_expired timeout_seconds (clock kv.1) kv.2 = false.

#[global] Instance survives_dec ts clock kv : Decision (survives ts clock kv).
Proof. unfold survives. apply _. Defined.

(** [cleanup_expired]: erase every entry for which [is_expired] holds and
    count the erased entries. *)
Definition cleanup_expired (clock : Clock) (t : ConnectionTracker) : ConnectionTracker :=
  let kept := filter (survives (timeout_seconds_ t) clock) (connections_ t) in
  let erased := Z.of_nat (size (connections_ t)) - Z.of_nat (size kept) in
  mkConnectionTracker kept (timeout_seconds_ t) (max_connections_ t)
    (total_connections_ t) (u64 (expired_connections_ t + erased)).

Section WithHost.
Context `{Host}.

Definition create_key (packet : ParsedPacket) : ConnectionKey :=
  mkConnectionKey (Types.src_ip (ip_header packet))
                  (Types.dst_ip (ip_header packet))
                  (get_src_port packet) (get_dst_port packet)
                  (Types.protocol (ip_header packet)).

(** [FlowStats flow = {}] followed by the assignments of lines 48-62. *)
Definition new_flow (ts : time_point) : FlowStats :=
  mkFlowStats ts ts fzero 0 0 [] [] 0 0 [] [] 0 0 0 0 0 0 UNKNOWN.

Definition bump (c : bool) (n : Z) : Z := if c then u32 (n + 1) else n.

(** Lines 69-115 of [update]: the packet's contribution to its flow. *)
Definition account (packet : ParsedPacket) (flow : FlowStats) : FlowStats :=
  let duration_ms := to_milliseconds (timestamp packet - last_seen flow) in
  let iat := ms_to_sec duration_ms in
  (* is_forward = true *)
  let fwd_packets' := u64 (fwd_packets flow + 1) in
  let fwd_bytes' := u64 (fwd_bytes flow + raw_length packet) in
  let fwd_iat' :=
    if 1 <? fwd_packets' then fwd_iat flow ++ [iat] else fwd_iat flow in
  let fwd_pkt_lengths' := fwd_pkt_lengths flow ++ [raw_length packet] in
  let fl := flags (tcp_header packet) in
  let tcp := has_tcp packet in
  let state' := if tcp then update_tcp_state (state flow) fl else state flow in
  let last_seen' := timestamp packet in
  mkFlowStats (start_time flow) last_seen'
    (ms_to_sec (to_milliseconds (last_seen' - start_time flow)))
    fwd_packets' fwd_bytes' fwd_iat' fwd_pkt_lengths'
    (bwd_packets flow) (bwd_bytes flow) (bwd_iat flow) (bwd_pkt_lengths flow)
    (bump (tcp && has_flag fl TCP_SYN) (syn_count flow))
    (bump (tcp && has_flag fl TCP_ACK) (ack_count flow))
    (bump (tcp && has_flag fl TCP_FIN) (fin_count flow))
    (bump (tcp && has_flag fl TCP_RST) (rst_count flow))
    (bump (tcp && has_flag fl TCP_PSH) (psh_count flow))
    (bump (tcp && has_flag fl TCP_URG) (urg_count flow))
    state'.

Definition set_connections (t : ConnectionTracker)
    (m : gmap ConnectionKey FlowStats) : ConnectionTracker :=
  mkConnectionTracker m (timeout_seconds_ t) (max_connections_ t)
    (total_connections_ t) (expired_connections_ t).

(** Lines 40-67 of [update]: the branch taken when the key is not in the
    table. *)
Definition admit_flow (clock : Clock) (key : ConnectionKey) (ts : time_point)
    (t : ConnectionTracker) : ConnectionTracker :=
  let t1 :=
    if max_connections_ t <=? Z.of_nat (size (connections_ t))
    then cleanup_expired clock t else t in
  mkConnectionTracker (<[key := new_flow ts]> (connections_ t1))
    (timeout_seconds_ t1) (max_connections_ t1)
    (u64 (total_connections_ t1 + 1)) (expired_connections_ t1).

(** [ConnectionTracker::update] *)
Definition update (clock : Clock) (packet : ParsedPacket)
    (t : ConnectionTracker) : ConnectionTracker :=
  let key := create_key packet in
  let t1 :=
    match connections_ t !! key with
    | None => admit_flow clock key (timestamp packet) t
    | Some _ => t
    end in
  match connections_ t1 !! key with
  | Some flow => set_connections t1 (<[key := account packet flow]> (connections_ t1))
  | None => t1
  end.

(** A run of the tracker: each packet comes with the clock readings its
    [update] would observe. *)
Fixpoint update_all (evs : list (Clock * ParsedPacket)) (t : ConnectionTracker)
    : ConnectionTracker :=
  match evs with
  | [] => t
  | (clock, packet) :: rest => update_all rest (update clock packet t)
  end.

End WithHost.

(** ** Predicates used to state the properties of the tracker *)

(** A packet as [parse] makes them: a TCP header only on IP protocol 6. *)
Definition tcp_only_on_protocol_6 (packet : ParsedPacket) : Prop :=
  has_tcp packet = true -> Types.protocol (ip_header packet) = 6.

(** Flows whose key is not TCP are in state [UNKNOWN]. *)
Definition non_tcp_unknown (t : ConnectionTracker) : Prop :=
  forall k f, connections_ t !! k = Some f -> protocol k <> 6 -> state f = UNKNOWN.

(** The contributions of a list of packets, in order, to one flow. *)
Definition account_all (packets : list ParsedPacket) (flow : FlowStats) : FlowStats :=
  fold_left (fun f p => account p f) packets flow.

(** The state of a flow that was in [st] after a list of packets, in
    order: [update_tcp_state] on the flags of each packet that carries a
    TCP header. *)
Definition tcp_states (packets : list ParsedPacket) (st : ConnectionState)
    : ConnectionState :=
  fold_left (fun st p => if has_tcp p
                         then update_tcp_state st (flags (tcp_header p))
                         else st) packets st.

(** The counting invariant of a flow that has taken [n] packets. *)
Record counted (n : Z) (f : FlowStats) : Prop := {
  ct_packets : fwd_packets f = n;
  ct_lengths : Z.of_nat (length (fwd_pkt_lengths f)) = n;
  ct_iat : Z.of_nat (length (fwd_iat f)) = Z.max 0 (n - 1);
  ct_bwd_packets : bwd_packets f = 0;
  ct_bwd_lengths : bwd_pkt_lengths f = [];
  ct_bwd_iat : bwd_iat f = []
}.

(** Timing: [start_time] never changes, [last_seen] is the timestamp of the
    latest packet and [duration] is computed from the two. *)
Definition timed (f : FlowStats) : Prop :=
  duration f = ms_to_sec (to_milliseconds (last_seen f - start_time f)).

(** Timestamps that never go back. *)
Fixpoint nondecreasing (ts : list Z) : Prop :=
  match ts with
  | [] => True
  | a :: rest =>
      match rest with
      | [] => True
      | b :: _ => a <= b /\ nondecreasing rest
      end
  end.

End Tracker.

(** * features/feature_extractor.cpp *)

Module Extractor.

(** Modelled from the spec: the declaration of [nids::features::FlowStats],
    the argument type of [FeatureExtractor::extract], is not among the
    sources.  Of its members, the ones read by the part of [extract]
    embedded below are kept; the packet and byte counters are unsigned
    64-bit integers and [duration] is a [double], as the expressions of
    [extract] require (integer comparison with [4] and [0],
    [static_cast<double>], division by a [double]). *)
Record FlowStats : Type := mkFlowStats {
  duration : float;
  fwd_packets : Z;
  bwd_packets : Z;
  fwd_bytes : Z;
  bwd_bytes : Z
}.

(** The members of [FeatureVector] written by lines 65, 106-117,
    129-156 and 196-225 of [extract]; the statistics over the sample
    vectors (lines 67-104, 168-194) are not part of this embedding. *)
Record FeatureVector : Type := mkFeatureVector {
  fv_duration : float;
  total_fwd_packets : float;
  total_bwd_packets : float;
  total_fwd_bytes : float;
  total_bwd_bytes : float;
  flow_bytes_per_sec : float;
  flow_packets_per_sec : float;
  fwd_packets_per_sec : float;
  bwd_packets_per_sec : float;
  down_up_ratio : float;
  avg_packet_size : float;
  avg_fwd_segment_size : float;
  avg_bwd_segment_size : float;
  subflow_fwd_packets : float;
  subflow_fwd_bytes : float;
  subflow_bwd_packets : float;
  subflow_bwd_bytes : float;
  fwd_bulk_rate_avg : float;
  bwd_bulk_rate_avg : float;
  fwd_bulk_size_avg : float;
  bwd_bulk_size_avg : float;
  fwd_bulk_packets_avg : float;
  bwd_bulk_packets_avg : float;
  act_data_pkt_fwd : float
}.

(** The three assignments of lines 213-215, and of lines 219-221. *)
Definition set_fwd_bulk (f : FeatureVector) (rate size pkts : float) : FeatureVector :=
  mkFeatureVector (fv_duration f) (total_fwd_packets f) (total_bwd_packets f)
    (total_fwd_bytes f) (total_bwd_bytes f) (flow_bytes_per_sec f)
    (flow_packets_per_sec f) (fwd_packets_per_sec f) (bwd_packets_per_sec f)
    (down_up_ratio f) (avg_packet_size f) (avg_fwd_segment_size f)
    (avg_bwd_segment_size f) (subflow_fwd_packets f) (subflow_fwd_bytes f)
    (subflow_bwd_packets f) (subflow_bwd_bytes f)
    rate (bwd_bulk_rate_avg f) size (bwd_bulk_size_avg f)
    pkts (bwd_bulk_packets_avg f) (act_data_pkt_fwd f).
Definition set_bwd_bulk (f : FeatureVector) (rate size pkts : float) : FeatureVector :=
  mkFeatureVector (fv_duration f) (total_fwd_packets f) (total_bwd_packets f)
    (total_fwd_bytes f) (total_bwd_bytes f) (flow_bytes_per_sec f)
    (flow_packets_per_sec f) (fwd_packets_per_sec f) (bwd_packets_per_sec f)
    (down_up_ratio f) (avg_packet_size f) (avg_fwd_segment_size f)
    (avg_bwd_segment_size f) (subflow_fwd_packets f) (subflow_fwd_bytes f)
    (subflow_bwd_packets f) (subflow_bwd_bytes f)
    (fwd_bulk_rate_avg f) rate (fwd_bulk_size_avg f) size
    (fwd_bulk_packets_avg f) pkts (act_data_pkt_fwd f).

Definition fdiv (x y : float) : float := PrimFloat.div x y.
Definition d (z : Z) : float := double_of_u64 z.

(** [FeatureExtractor::extract] *)
Definition extract (flow : FlowStats) : FeatureVector :=
  let dur := duration flow in
  (* Flow bytes/packets per second *)
  let rates :=
    if fgt0 dur
    then (fdiv (d (u64 (fwd_bytes flow + bwd_bytes flow))) dur,
          fdiv (d (u64 (fwd_packets flow + bwd_packets flow))) dur,
          fdiv (d (fwd_packets flow)) dur,
          fdiv (d (bwd_packets flow)) dur)
    else (fzero, fzero, fzero, fzero) in
  (* Down/up ratio *)
  let ratio :=
    if 0 <? fwd_bytes flow
    then fdiv (d (bwd_bytes flow)) (d (fwd_bytes flow)) else fzero in
  (* Average packet size *)
  let total_packets := u32 (fwd_packets flow + bwd_packets flow) in
  let total_bytes := u64 (fwd_bytes flow + bwd_bytes flow) in
  let avg_size :=
    if 0 <? total_packets then fdiv (d total_bytes) (d total_packets)
    else fzero in
  (* Forward/backward segment sizes *)
  let avg_fwd :=
    if 0 <? fwd_packets flow
    then fdiv (d (fwd_bytes flow)) (d (fwd_packets flow)) else fzero in
  let avg_bwd :=
    if 0 <? bwd_packets flow
    then fdiv (d (bwd_bytes flow)) (d (bwd_packets flow)) else fzero in
  (* Bulk transfer features (simplified): all six start at 0.0 *)
  let features :=
    mkFeatureVector dur
      (d (fwd_packets flow)) (d (bwd_packets flow))
      (d (fwd_bytes flow)) (d (bwd_bytes flow))
      rates.1.1.1 rates.1.1.2 rates.1.2 rates.2
      ratio avg_size avg_fwd avg_bwd
      (d (fwd_packets flow)) (d (fwd_bytes flow))
      (d (bwd_packets flow)) (d (bwd_bytes flow))
      fzero fzero fzero fzero fzero fzero
      (d (fwd_packets flow)) in
  (* Calculate bulk features (simple heuristic) *)
  let features :=
    if (4 <=? fwd_packets flow) && fgt0 dur
    then set_fwd_bulk features
           (fdiv (d (fwd_bytes flow)) dur)
           (avg_fwd_segment_size features)
           (fdiv (d (fwd_packets flow)) 4%float)
    else features in
  let features :=
    if (4 <=? bwd_packets flow) && fgt0 dur
    then set_bwd_bulk features
           (fdiv (d (bwd_bytes flow)) dur)
           (avg_bwd_segment_size features)
           (fdiv (d (bwd_packets flow)) 4%float)
    else features in
  features.

End Extractor.

(** * rules/rule_engine.h, rules/rule_engine.cpp *)

Module Rules.
Import Types.

Definition TCP_FIN : Z := 0x01.
Definition TCP_SYN : Z := 0x02.
Definition TCP_RST : Z := 0x04.
Definition TCP_PSH : Z := 0x08.
Definition TCP_ACK : Z := 0x10.
Definition TCP_URG : Z := 0x20.

#[global] Instance Protocol_eq_dec : EqDecision Protocol.
Proof. solve_decision. Defined.

(** [struct SignatureRule] (common/types.h) *)
Record SignatureRule : Type := mkSignatureRule {
  rule_id : Z;
  name : string;
  description : string;
  protocol : Protocol;
  src_ip_filter : string;
  dst_ip_filter : string;
  src_ports : list Z;
  dst_ports : list Z;
  tcp_flags_mask : Z;
  tcp_flags_value : Z;
  content_patterns : list string;
  regex_patterns : list string;
  severity : Severity;
  action : string;
  enabled : bool
}.

(** [struct Alert] (common/types.h) *)
Module Alert.
Record t : Type := mk {
  alert_id : Z;
  timestamp : time_point;
  rule_id : Z;
  rule_name : string;
  severity : Severity;
  packet_id : Z;
  src_ip : string;
  dst_ip : string;
  src_port : Z;
  dst_port : Z;
  protocol : string;
  description : string;
  matched_content : string
}.
End Alert.

(** The regular-expression library: [std::regex re(pattern, icase)], which
    throws [std::regex_error] on a bad pattern ([None]), and
    [std::regex_search]. *)
Class RegexLib : Type := {
  regex : Type;
  regex_compile : string -> option regex;
  regex_search : string -> regex -> bool
}.

(** [::tolower] in the C locale. *)
Definition tolower (c : ascii) : ascii :=
  let n := N_of_ascii c in
  if ((65 <=? n) && (n <=? 90))%N then ascii_of_N (n + 32) else c.

Fixpoint str_tolower (s : string) : string :=
  match s with
  | EmptyString => EmptyString
  | String c s' => String (tolower c) (str_tolower s')
  end.

(** [s.find(p) != std::string::npos] *)
Fixpoint str_contains (s p : string) : bool :=
  String.prefix p s ||
  match s with
  | EmptyString => false
  | String _ s' => str_contains s' p
  end.

(** [std::string(reinterpret_cast<const char*>(p), n)] *)
Fixpoint read_string (p : Ptr) (i : Z) (n : nat) : string :=
  match n with
  | O => EmptyString
  | S n' =>
      String (ascii_of_N (Z.to_N (byte_at (buf p) (off p + i))))
             (read_string p (i + 1) n')
  end.

Definition payload_str (p : Ptr) (payload_len : Z) : string :=
  read_string p 0 (Z.to_nat (Z.min payload_len 1024)).

Definition match_ip_filter (ip filter : string) : bool :=
  if String.eqb filter "any" then true
  else if String.eqb filter ip then true
  else false.

Definition match_port (port : Z) (port_list : list Z) : bool :=
  match port_list with
  | [] => true
  | _ => existsb (Z.eqb port) port_list
  end.

Definition match_tcp_flags (packet_flags mask value : Z) : bool :=
  Z.land packet_flags mask =? value.

Definition is_nil {A} (l : list A) : bool :=
  match l with [] => true | _ => false end.

Definition match_content (payload : option Ptr) (payload_len : Z)
    (patterns : list string) : bool :=
  match payload with
  | None => false
  | Some p =>
      if is_nil patterns || (payload_len =? 0) then false
      else
        let s := str_tolower (payload_str p payload_len) in
        existsb (fun pattern => str_contains s (str_tolower pattern)) patterns
  end.

Section WithRegex.
Context `{RegexLib}.

(** The loop of [match_regex] (lines 268-288), threading the cache. *)
Fixpoint match_regex_patterns (s : string) (patterns : list string)
    (cache : gmap string regex) : bool * gmap string regex :=
  match patterns with
  | [] => (false, cache)
  | pattern :: rest =>
      match cache !! pattern with
      | Some re =>
          if regex_search s re then (true, cache)
          else match_regex_patterns s rest cache
      | None =>
          match regex_compile pattern with
          | None => match_regex_patterns s rest cache
          | Some re =>
              let cache := <[pattern := re]> cache in
              if regex_search s re then (true, cache)
              else match_regex_patterns s rest cache
          end
      end
  end.

Definition match_regex (payload : option Ptr) (payload_len : Z)
    (patterns : list string) (cache : gmap string regex)
    : bool * gmap string regex :=
  match payload with
  | None => (false, cache)
  | Some p =>
      if is_nil patterns || (payload_len =? 0) then (false, cache)
      else match_regex_patterns (payload_str p payload_len) patterns cache
  end.

Record RuleEngine : Type := mkRuleEngine {
  regex_cache_ : gmap string regex;
  rules_ : list SignatureRule;
  packets_evaluated_ : Z;
  alerts_generated_ : Z;
  rule_matches_ : Z;
  next_alert_id_ : Z
}.

(** [RuleEngine::RuleEngine()] *)
Definition init : RuleEngine := mkRuleEngine ∅ [] 0 0 0 1.

Definition add_rule (rule : SignatureRule) (e : RuleEngine) : RuleEngine :=
  mkRuleEngine (regex_cache_ e) (rules_ e ++ [rule]) (packets_evaluated_ e)
    (alerts_generated_ e) (rule_matches_ e) (next_alert_id_ e).

Definition set_enabled (r : SignatureRule) (b : bool) : SignatureRule :=
  mkSignatureRule (rule_id r) (name r) (description r) (protocol r)
    (src_ip_filter r) (dst_ip_filter r) (src_ports r) (dst_ports r)
    (tcp_flags_mask r) (tcp_flags_value r) (content_patterns r)
    (regex_patterns r) (severity r) (action r) b.

Fixpoint enable_in (rules : list SignatureRule) (id : Z) (b : bool)
    : list SignatureRule :=
  match rules with
  | [] => []
  | r :: rest =>
      if rule_id r =? id then set_enabled r b :: rest
      else r :: enable_in rest id b
  end.

Definition enable_rule (id : Z) (b : bool) (e : RuleEngine) : RuleEngine :=
  mkRuleEngine (regex_cache_ e) (enable_in (rules_ e) id b)
    (packets_evaluated_ e) (alerts_generated_ e) (rule_matches_ e)
    (next_alert_id_ e).

Context `{Host}.

(** The body of the loop of [evaluate] up to line 204: [None] when a
    [continue] is taken, [Some matched_content] when line 206 is reached. *)
Definition check_rule (packet : ParsedPacket) (rule : SignatureRule)
    : option string :=
  if negb (enabled rule) then None
  (* Check protocol *)
  else if bool_decide (protocol rule = P_TCP) && negb (has_tcp packet) then None
  else if bool_decide (protocol rule = P_UDP) && negb (has_udp packet) then None
  (* Check IP filters *)
  else if negb (String.eqb (src_ip_filter rule) "any")
          && negb (match_ip_filter (get_src_ip packet) (src_ip_filter rule))
  then None
  else if negb (String.eqb (dst_ip_filter rule) "any")
          && negb (match_ip_filter (get_dst_ip packet) (dst_ip_filter rule))
  then None
  (* Check ports *)
  else if negb (is_nil (src_ports rule))
          && negb (match_port (get_src_port packet) (src_ports rule))
  then None
  else if negb (is_nil (dst_ports rule))
          && negb (match_port (get_dst_port packet) (dst_ports rule))
  then None
  (* Check TCP flags *)
  else if has_tcp packet && negb (tcp_flags_mask rule =? 0)
          && negb (match_tcp_flags (flags (tcp_header packet))
                     (tcp_flags_mask rule) (tcp_flags_value rule))
  then None
  (* Check content patterns *)
  else if is_nil (content_patterns rule) then Some EmptyString
  else if bool_decide (is_Some (payload packet)) && (0 <? payload_length packet)
  then
    if negb (match_content (payload packet) (payload_length packet)
               (content_patterns rule))
    then None
    else
      Some (default EmptyString
              (List.find
                 (fun pattern =>
                    match_content (payload packet) (payload_length packet)
                      [pattern])
                 (content_patterns rule)))
  else None.

(** [create_alert]: the alert, and the engine with [next_alert_id_]
    advanced. *)
Definition create_alert (rule : SignatureRule) (packet : ParsedPacket)
    (matched_content : string) (e : RuleEngine) : Alert.t * RuleEngine :=
  (Alert.mk (next_alert_id_ e) (timestamp packet) (rule_id rule) (name rule)
     (severity rule) (packet_id packet) (get_src_ip packet)
     (get_dst_ip packet) (get_src_port packet) (get_dst_port packet)
     (get_protocol packet) (description rule) matched_content,
   mkRuleEngine (regex_cache_ e) (rules_ e) (packets_evaluated_ e)
     (alerts_generated_ e) (rule_matches_ e) (u64 (next_alert_id_ e + 1))).

Definition count_match (e : RuleEngine) : RuleEngine :=
  mkRuleEngine (regex_cache_ e) (rules_ e) (packets_evaluated_ e)
    (alerts_generated_ e) (u64 (rule_matches_ e + 1)) (next_alert_id_ e).

(** The loop of [evaluate] over the rule list. *)
Fixpoint eval_rules (packet : ParsedPacket) (rules : list SignatureRule)
    (alerts : list Alert.t) (e : RuleEngine) : list Alert.t * RuleEngine :=
  match rules with
  | [] => (alerts, e)
  | rule :: rest =>
      match check_rule packet rule with
      | None => eval_rules packet rest alerts e
      | Some matched_content =>
          let '(alert, e) := create_alert rule packet matched_content (count_match e) in
          eval_rules packet rest (alerts ++ [alert]) e
      end
  end.

(** [RuleEngine::evaluate] *)
Definition evaluate (packet : ParsedPacket) (e : RuleEngine)
    : list Alert.t * RuleEngine :=
  let e := mkRuleEngine (regex_cache_ e) (rules_ e)
             (u64 (packets_evaluated_ e + 1)) (alerts_generated_ e)
             (rule_matches_ e) (next_alert_id_ e) in
  let '(alerts, e) := eval_rules packet (rules_ e) [] e in
  (alerts,
   mkRuleEngine (regex_cache_ e) (rules_ e) (packets_evaluated_ e)
     (u64 (alerts_generated_ e + Z.of_nat (length alerts)))
     (rule_matches_ e) (next_alert_id_ e)).

(** Successive calls of [evaluate] on one engine; the alerts of the run in
    the order of emission. *)
Fixpoint evaluate_all (packets : list ParsedPacket) (e : RuleEngine)
    : list Alert.t * RuleEngine :=
  match packets with
  | [] => ([], e)
  | packet :: rest =>
      let '(alerts, e) := evaluate packet e in
      let '(more, e) := evaluate_all rest e in
      (alerts ++ more, e)
  end.

(** ** Functions used to state the properties of the engine *)

(** The rule passes every check of the loop body for the packet. *)
Definition rule_fires (packet : ParsedPacket) (rule : SignatureRule) : bool :=
  match check_rule packet rule with
  | Some _ => true
  | None => false
  end.

(** The alerts that the rules of a list raise for a packet, numbered from
    [id] on. *)
Fixpoint alerts_from (packet : ParsedPacket) (rules : list SignatureRule)
    (id : Z) : list Alert.t :=
  match rules with
  | [] => []
  | rule :: rest =>
      match check_rule packet rule with
      | None => alerts_from packet rest id
      | Some matched_content =>
          Alert.mk id (timestamp packet) (rule_id rule) (name rule)
            (severity rule) (packet_id packet) (get_src_ip packet)
            (get_dst_ip packet) (get_src_port packet) (get_dst_port packet)
            (get_protocol packet) (description rule) matched_content
          :: alerts_from packet rest (id + 1)
      end
  end.

(** The engine with another rule list. *)
Definition with_rules (rules : list SignatureRule) (e : RuleEngine) : RuleEngine :=
  mkRuleEngine (regex_cache_ e) rules (packets_evaluated_ e)
    (alerts_generated_ e) (rule_matches_ e) (next_alert_id_ e).

End WithRegex.

(** What an alert says of the rule that raised it. *)
Definition alert_rule (a : Alert.t) : Z * string * Severity * string :=
  (Alert.rule_id a, Alert.rule_name a, Alert.severity a, Alert.description a).
Definition rule_summary (r : SignatureRule) : Z * string * Severity * string :=
  (rule_id r, name r, severity r, description r).

Definition set_regex_patterns (r : SignatureRule) (ps : list string) : SignatureRule :=
  mkSignatureRule (rule_id r) (name r) (description r) (protocol r)
    (src_ip_filter r) (dst_ip_filter r) (src_ports r) (dst_ports r)
    (tcp_flags_mask r) (tcp_flags_value r) (content_patterns r)
    ps (severity r) (action r) (enabled r).


(** The rules that [load_rules] installs (lines 29-117).  A rule is a
    default-constructed [SignatureRule] with some members assigned;
    [tcp_flags_mask] and [tcp_flags_value] are assigned for rules 1001 and
    1003 only, so for the other rules they hold whatever [uninit] says the
    unassigned bytes contain. *)
Definition rule (id : Z) (nm descr : string) (proto : Protocol)
    (dports : list Z) (mask_value : Z * Z) (content : list string)
    (sev : Severity) (act : string) (en : bool) : SignatureRule :=
  mkSignatureRule id nm descr proto "any" "any" [] dports
    mask_value.1 mask_value.2 content [] sev act en.

Definition default_rules (uninit : Z -> Z * Z) : list SignatureRule :=
  [ rule 1001 "SSH Scan Detection" "Multiple SSH connection attempts detected"
      P_TCP [22] (TCP_SYN, TCP_SYN) [] MEDIUM "alert" true;
    rule 1002 "SQL Injection Attempt" "Possible SQL injection in HTTP request"
      P_TCP [80; 443; 8080] (uninit 1002)
      ["union select"; "or 1=1"; "' or '1'='1"] HIGH "alert" true;
    rule 1003 "Port Scan Detection" "SYN packet to commonly scanned port"
      P_TCP [21; 22; 23; 25; 80; 443; 3389; 8080]
      (Z.lor TCP_SYN TCP_ACK, TCP_SYN) [] MEDIUM "alert" true;
    rule 1004 "FTP Authentication Attempt" "FTP USER or PASS command detected"
      P_TCP [21] (uninit 1004) ["USER "; "PASS "] LOW "alert" true;
    rule 1005 "DNS Query" "DNS query packet detected"
      P_UDP [53] (uninit 1005) [] LOW "log" false;
    rule 1006 "Telnet Connection" "Unencrypted Telnet connection detected"
      P_TCP [23] (uninit 1006) [] MEDIUM "alert" true ].

(** [load_rules]: six calls of [add_rule]. *)
Definition load_rules `{RegexLib} (uninit : Z -> Z * Z) (e : RuleEngine)
    : RuleEngine :=
  fold_left (fun e r => add_rule r e) (default_rules uninit) e.

End Rules.

(** * sids_main.cpp *)

Module Sids.
Import Types.

Section WithEnv.
Context `{Rules.RegexLib} `{Host}.

Record SignatureIDS : Type := mkSignatureIDS {
  parser_ : Parser.PacketParser;
  rule_engine_ : Rules.RuleEngine
}.

(** [SignatureIDS()] followed by [initialize()]. *)
Definition initialize (uninit : Z -> Z * Z) : SignatureIDS :=
  mkSignatureIDS Parser.init (Rules.load_rules uninit Rules.init).

(** The body of the capture loops (lines 108-132 and 187-207), without the
    statistics: every captured frame is parsed and the resulting packet is
    evaluated against the rules. *)
Definition process_packet (data : Ptr) (caplen : Z) (ts : time_point)
    (s : SignatureIDS) : list Rules.Alert.t * SignatureIDS :=
  let '(packet, p) :=
    fst (run_rd (Parser.parse (Some data) caplen ts (parser_ s))) in
  let '(alerts, e) := Rules.evaluate packet (rule_engine_ s) in
  (alerts, mkSignatureIDS p e).

End WithEnv.

End Sids.

(** * Test vectors *)

Module Vectors.
Import Types.

(** A little-endian host (x86-64). *)
Definition x86 : Host := {| little_endian := true |}.
Definition big_endian_host : Host := {| little_endian := false |}.

(** A regular-expression library that knows literal patterns only: the
    pattern is searched as a case-insensitive substring. *)
Definition literal_regex : Rules.RegexLib :=
  {| Rules.regex := string;
     Rules.regex_compile := fun pattern => Some (Rules.str_tolower pattern);
     Rules.regex_search := fun s re => Rules.str_contains (Rules.str_tolower s) re |}.

Definition junk : Z -> Z := fun _ => 0xAA.

Definition eth_ipv4 : list Z := [0; 0; 0; 0; 0; 1; 0; 0; 0; 0; 0; 2; 0x08; 0x00].

Definition ipv4 (version_ihl proto : Z) (src dst : list Z) : list Z :=
  [version_ihl; 0; 0; 0; 0; 0; 0; 0; 64; proto; 0; 0] ++ src ++ dst.

Definition port (p : Z) : list Z := [Z.shiftr p 8; Z.land p 0xFF].

Definition tcp (sport dport flags : Z) : list Z :=
  port sport ++ port dport ++ [0; 0; 0; 1; 0; 0; 0; 0; 0x50; flags; 0xFF; 0xFF; 0; 0; 0; 0].

Definition udp (sport dport : Z) (payload : list Z) : list Z :=
  port sport ++ port dport ++ port (8 + Z.of_nat (length payload)) ++ [0; 0] ++ payload.

Definition capture (frame : list Z) : Ptr := mkPtr (mkBuffer frame junk) 0.

(** The packet that a fresh parser makes of a frame. *)
Definition packet_of (frame : list Z) (ts : time_point) : ParsedPacket :=
  (run_rd (Parser.parse (Some (capture frame)) (Z.of_nat (length frame)) ts Parser.init)).1.1.

(** 34 bytes: Ethernet, then an IPv4 header that announces IHL = 15
    (a 60-byte header) and protocol TCP. *)
Definition frame_ihl15 : list Z :=
  eth_ipv4 ++ ipv4 0x4F 6 [10; 0; 0; 5] [10; 0; 0; 10].

(** 54 bytes: IHL = 0, protocol TCP. *)
Definition frame_ihl0 : list Z :=
  eth_ipv4 ++ ipv4 0x40 6 [10; 0; 0; 5] [10; 0; 0; 10] ++ tcp 40000 22 0x02.

(** A truncated frame of 20 bytes. *)
Definition frame_short : list Z := repeat 0 20.

Definition udp_frame (src_last : Z) (payload : list Z) : list Z :=
  eth_ipv4 ++ ipv4 0x45 17 [10; 0; 0; src_last] [10; 0; 0; 10] ++ udp 5000 53 payload.

Definition tcp_frame (flags : Z) : list Z :=
  eth_ipv4 ++ ipv4 0x45 6 [10; 0; 0; 5] [10; 0; 0; 10] ++ tcp 40000 22 flags.

Definition second : Z := ns_per_s.

(** A rule for any protocol, address and port, with one regular
    expression and nothing else to check. *)
Definition regex_rule : Rules.SignatureRule :=
  Rules.mkSignatureRule 2001 "Admin page" "Request for the admin page"
    P_UNKNOWN "any" "any" [] [] 0 0 [] ["^GET /admin"] HIGH "alert" true.

(** A rule for any protocol, address and port, with nothing to check. *)
Definition any_rule : Rules.SignatureRule :=
  Rules.mkSignatureRule 2002 "Any packet" "A packet was seen"
    P_UNKNOWN "any" "any" [] [] 0 0 [] [] LOW "alert" true.

(** The payload "abc". *)
Definition abc : list Z := [97; 98; 99].

(** The clock reading of the tracker examples, and a UDP packet from
    10.0.0.[src] stamped [ts], with that reading for every entry. *)
Definition now : time_point := 1000 * second.
Definition flow_ev (src : Z) (ts : time_point) : Tracker.Clock * ParsedPacket :=
  (fun _ => now, packet_of (udp_frame src [1; 2; 3]) ts).

(** A TCP segment with the given flags, from 10.0.0.5:40000 to
    10.0.0.10:22, stamped [ts]. *)
Definition tcp_ev (flags : Z) (ts : time_point) : Tracker.Clock * ParsedPacket :=
  (fun _ => now, packet_of (tcp_frame flags) ts).

(** A UDP packet followed by a TCP SYN. *)
Definition w_evs : list (Tracker.Clock * ParsedPacket) :=
  [flow_ev 1 now; (fun _ => now, packet_of (tcp_frame 2) now)].

(** Two calls of [parse] and a third input. *)
Definition w_inputs : list Parser.Input :=
  [ (Some (capture frame_short), 20, 0);
    (Some (capture (tcp_frame 2)), 54, second) ].
Definition w_input : Parser.Input := (Some (capture frame_ihl15), 34, 2 * second).

End Vectors.


(** * Wire format *)

Module Wire.
Import Types.

(** The two bytes of a 16-bit field and the four bytes of a 32-bit field,
    most significant first. *)
Definition be16 (x : Z) : list Z := [Z.shiftr x 8; Z.land x 0xFF].
Definition be32 (x : Z) : list Z :=
  [Z.shiftr x 24; Z.land (Z.shiftr x 16) 0xFF; Z.land (Z.shiftr x 8) 0xFF;
   Z.land x 0xFF].

Definition is_byte (b : Z) : Prop := 0 <= b < 256.

Definition encode_eth (h : EthernetHeader) : list Z :=
  dst_mac h ++ src_mac h ++ be16 (ethertype h).

(** The fixed 20 bytes of an IPv4 header. *)
Definition encode_ipv4 (h : IPv4Header) : list Z :=
  [version_ihl h; tos h] ++ be16 (total_length h) ++ be16 (identification h)
  ++ be16 (flags_fragment h) ++ [ttl h; protocol h] ++ be16 (ip_checksum h)
  ++ be32 (src_ip h) ++ be32 (dst_ip h).

(** The fixed 20 bytes of a TCP header (reserved bits zero). *)
Definition encode_tcp (h : TCPHeader) : list Z :=
  be16 (tcp_src_port h) ++ be16 (tcp_dst_port h) ++ be32 (seq_number h)
  ++ be32 (ack_number h) ++ [data_offset h * 16; flags h]
  ++ be16 (window_size h) ++ be16 (tcp_checksum h) ++ be16 (urgent_pointer h).

Definition encode_udp (h : UDPHeader) : list Z :=
  be16 (udp_src_port h) ++ be16 (udp_dst_port h) ++ be16 (udp_length h)
  ++ be16 (udp_checksum h).

(** A frame: Ethernet, IPv4 with its options, a transport header with its
    options, payload. *)
Definition tcp_frame (eh : EthernetHeader) (ih : IPv4Header) (ip_options : list Z)
    (th : TCPHeader) (tcp_options payload : list Z) : list Z :=
  encode_eth eh ++ encode_ipv4 ih ++ ip_options
  ++ encode_tcp th ++ tcp_options ++ payload.

Definition udp_frame (eh : EthernetHeader) (ih : IPv4Header) (ip_options : list Z)
    (uh : UDPHeader) (payload : list Z) : list Z :=
  encode_eth eh ++ encode_ipv4 ih ++ ip_options ++ encode_udp uh ++ payload.

Record wf_eth (h : EthernetHeader) : Prop := {
  we_dst : length (dst_mac h) = 6%nat /\ Forall is_byte (dst_mac h);
  we_src : length (src_mac h) = 6%nat /\ Forall is_byte (src_mac h);
  we_type : ethertype h = 0x0800
}.

(** An IPv4 header of version 4 and [IHL >= 5] followed by the options the
    IHL announces. *)
Record wf_ipv4 (h : IPv4Header) (ip_options : list Z) : Prop := {
  wi_byte : is_byte (version_ihl h);
  wi_version : Z.land (Z.shiftr (version_ihl h) 4) 0x0F = 4;
  wi_ihl : 5 <= Z.land (version_ihl h) 0x0F;
  wi_options : Z.of_nat (length ip_options) = (Z.land (version_ihl h) 0x0F - 5) * 4;
  wi_tos : is_byte (tos h);
  wi_len : 0 <= total_length h < 2 ^ 16;
  wi_id : 0 <= identification h < 2 ^ 16;
  wi_frag : 0 <= flags_fragment h < 2 ^ 16;
  wi_ttl : is_byte (ttl h);
  wi_proto : is_byte (protocol h);
  wi_sum : 0 <= ip_checksum h < 2 ^ 16;
  wi_src : 0 <= src_ip h < 2 ^ 32;
  wi_dst : 0 <= dst_ip h < 2 ^ 32
}.

Record wf_tcp (h : TCPHeader) (tcp_options : list Z) : Prop := {
  wt_sport : 0 <= tcp_src_port h < 2 ^ 16;
  wt_dport : 0 <= tcp_dst_port h < 2 ^ 16;
  wt_seq : 0 <= seq_number h < 2 ^ 32;
  wt_ack : 0 <= ack_number h < 2 ^ 32;
  wt_doff : 5 <= data_offset h <= 15;
  wt_options : Z.of_nat (length tcp_options) = (data_offset h - 5) * 4;
  wt_flags : 0 <= flags h < 64;
  wt_window : 0 <= window_size h < 2 ^ 16;
  wt_sum : 0 <= tcp_checksum h < 2 ^ 16;
  wt_urgent : 0 <= urgent_pointer h < 2 ^ 16
}.

Record wf_udp (h : UDPHeader) : Prop := {
  wu_sport : 0 <= udp_src_port h < 2 ^ 16;
  wu_dport : 0 <= udp_dst_port h < 2 ^ 16;
  wu_len : 0 <= udp_length h < 2 ^ 16;
  wu_sum : 0 <= udp_checksum h < 2 ^ 16
}.

End Wire.

(** Headers for the examples: 10.0.0.5:40000 to 10.0.0.10:22, a SYN. *)
Module WireVectors.
Import Types.

Definition w_eh : EthernetHeader :=
  mkEthernetHeader [0; 0; 0; 0; 0; 1] [0; 0; 0; 0; 0; 2] 0x0800.
Definition w_ih (proto : Z) : IPv4Header :=
  mkIPv4Header 0x45 0 60 1 0 64 proto 0 0x0A000005 0x0A00000A.
Definition w_th : TCPHeader := mkTCPHeader 40000 22 1 0 5 0x02 65535 0 0.
Definition w_uh : UDPHeader := mkUDPHeader 5000 53 11 0.
Definition w_payload : list Z := [71; 69; 84].

End WireVectors.

(** * parser/packet_parser.cpp: the two tests beside [parse] *)

Module ParserTests.
Import Types Parser.

(** [PacketParser::has_ethernet] *)
Definition has_ethernet (data : Ptr) (length : Z) : Rd bool :=
  mret (ETHER_HDR_SIZE <=? length).

(** [PacketParser::has_ipv4] *)
Definition has_ipv4 (data : Ptr) (length : Z) : Rd bool :=
  if length <? ETHER_HDR_SIZE + 20 then mret false
  else
    let ip_data := ptr_add data ETHER_HDR_SIZE in
    b0 ← load ip_data 0;
    let version := Z.land (Z.shiftr b0 4) 0x0F in
    mret (version =? 4).

(** The bytes of the capture from which [parse] fills the packet. *)
Definition transport_offset (d : Ptr) : Z := ETHER_HDR_SIZE + ihl_at d * 4.
Definition transport_length (d : Ptr) (len : Z) : Z :=
  u32 (len - ETHER_HDR_SIZE - ihl_at d * 4).
Definition data_offset_at (d : Ptr) : Z :=
  Z.land (Z.shiftr (byte_at (buf d) (off d + transport_offset d + 12)) 4) 0x0F.
Definition address_at (d : Ptr) (i : Z) : list Z :=
  map (fun j => byte_at (buf d) (off d + ETHER_HDR_SIZE + i + j)) [0; 1; 2; 3].

(** The dotted quad of four bytes. *)
Definition dotted (bs : list Z) : string :=
  pretty (nth 0 bs 0) +:+ "." +:+ pretty (nth 1 bs 0) +:+ "." +:+
  pretty (nth 2 bs 0) +:+ "." +:+ pretty (nth 3 bs 0).

End ParserTests.

(** * features/connection_tracker.cpp: the rest of the interface *)

Module TrackerApi.
Import Types Tracker.

(** The ten "computed features" of [struct FlowStats].  Only
    [update_computed_features] writes them, each from the other members,
    and [get_flow] and [get_all_flows] call it before they hand a flow out:
    they are modelled as a result of these calls, not as stored state. *)
Record ComputedFeatures : Type := mkComputedFeatures {
  fwd_packet_rate : float;
  bwd_packet_rate : float;
  fwd_iat_mean : float;
  fwd_iat_std : float;
  bwd_iat_mean : float;
  bwd_iat_std : float;
  fwd_pkt_len_mean : float;
  fwd_pkt_len_std : float;
  bwd_pkt_len_mean : float;
  bwd_pkt_len_std : float
}.

(** [values.size()], a [size_t], converted to [double]. *)
Definition size_d {A} (values : list A) : float :=
  double_of_u64 (Z.of_nat (length values)).

(** [FlowStats::calculate_mean] *)
Definition calculate_mean (values : list float) : float :=
  match values with
  | [] => fzero
  | _ => PrimFloat.div (fold_left PrimFloat.add values fzero) (size_d values)
  end.

(** The loop shared by [calculate_std] and [calculate_std_uint]. *)
Definition sum_sq (values : list float) (mean : float) : float :=
  fold_left (fun acc val =>
               let diff := PrimFloat.sub val mean in
               PrimFloat.add acc (PrimFloat.mul diff diff))
            values fzero.

(** [FlowStats::calculate_std] *)
Definition calculate_std (values : list float) (mean : float) : float :=
  if (length values <? 2)%nat then fzero
  else PrimFloat.sqrt
         (PrimFloat.div (sum_sq values mean)
            (double_of_u64 (u64 (Z.of_nat (length values) - 1)))).

(** [FlowStats::calculate_mean_uint]: the sum is a [uint64_t]. *)
Definition calculate_mean_uint (values : list Z) : float :=
  match values with
  | [] => fzero
  | _ =>
      let sum := fold_left (fun acc v => u64 (acc + v)) values 0 in
      PrimFloat.div (double_of_u64 sum) (size_d values)
  end.

(** [FlowStats::calculate_std_uint] *)
Definition calculate_std_uint (values : list Z) (mean : float) : float :=
  if (length values <? 2)%nat then fzero
  else PrimFloat.sqrt
         (PrimFloat.div (sum_sq (map double_of_u64 values) mean)
            (double_of_u64 (u64 (Z.of_nat (length values) - 1)))).

(** [FlowStats::update_computed_features] *)
Definition update_computed_features (f : FlowStats) : ComputedFeatures :=
  let rate (n : Z) :=
    if fgt0 (duration f) then PrimFloat.div (double_of_u64 n) (duration f)
    else fzero in
  let stats (values : list float) :=
    if Rules.is_nil values then (fzero, fzero)
    else let m := calculate_mean values in (m, calculate_std values m) in
  let stats_uint (values : list Z) :=
    if Rules.is_nil values then (fzero, fzero)
    else let m := calculate_mean_uint values in (m, calculate_std_uint values m) in
  mkComputedFeatures
    (rate (fwd_packets f)) (rate (bwd_packets f))
    (stats (fwd_iat f)).1 (stats (fwd_iat f)).2
    (stats (bwd_iat f)).1 (stats (bwd_iat f)).2
    (stats_uint (fwd_pkt_lengths f)).1 (stats_uint (fwd_pkt_lengths f)).2
    (stats_uint (bwd_pkt_lengths f)).1 (stats_uint (bwd_pkt_lengths f)).2.

(** A flow as [get_flow] hands it out. *)
Definition report (f : FlowStats) : FlowStats * ComputedFeatures :=
  (f, update_computed_features f).

(** [ConnectionTracker::clear] *)
Definition clear (t : ConnectionTracker) : ConnectionTracker :=
  set_connections t ∅.

Section WithHost.
Context `{Host}.

(** [ConnectionTracker::get_flow]: [None] is the null pointer. *)
Definition get_flow (packet : ParsedPacket) (t : ConnectionTracker)
    : option (FlowStats * ComputedFeatures) :=
  match connections_ t !! create_key packet with
  | Some flow => Some (report flow)
  | None => None
  end.

(** The calls that change a tracker. *)
Inductive Call : Type :=
  | CallUpdate (clock : Clock) (packet : ParsedPacket)
  | CallCleanup (clock : Clock)
  | CallClear.

Definition call (c : Call) (t : ConnectionTracker) : ConnectionTracker :=
  match c with
  | CallUpdate clock packet => update clock packet t
  | CallCleanup clock => cleanup_expired clock t
  | CallClear => clear t
  end.

Definition run (calls : list Call) (t : ConnectionTracker) : ConnectionTracker :=
  fold_left (fun t c => call c t) calls t.

Definition is_clear (c : Call) : bool :=
  match c with CallClear => true | _ => false end.

End WithHost.

(** The position of a state on the way from [UNKNOWN] to [CLOSED]. *)
Definition rank (s : ConnectionState) : Z :=
  match s with
  | UNKNOWN => 0
  | SYN_SENT => 1
  | SYN_RECEIVED => 2
  | ESTABLISHED => 3
  | FIN_WAIT => 4
  | CLOSED => 5
  end.

(** How many of the packets are TCP packets with the flag [bit] set. *)
Definition flagged (bit : Z) (packets : list ParsedPacket) : Z :=
  Z.of_nat (length (List.filter
    (fun p => has_tcp p && has_flag (flags (tcp_header p)) bit) packets)).

(** The inter-arrival times of a list of timestamps: for each one after
    the first, the whole milliseconds since the one before, in seconds. *)
Fixpoint gaps (prev : time_point) (ts : list time_point) : list float :=
  match ts with
  | [] => []
  | t :: rest => ms_to_sec (to_milliseconds (t - prev)) :: gaps t rest
  end.

Definition sum_lengths (packets : list ParsedPacket) : Z :=
  fold_right Z.add 0 (map raw_length packets).

(** The bookkeeping of a tracker after at most [n] calls: every connection
    ever counted is in the table, was counted as expired, or is one of the
    [c] that [clear] dropped. *)
Record accounted (n c : Z) (t : ConnectionTracker) : Prop := {
  ac_expired : 0 <= expired_connections_ t;
  ac_total : total_connections_ t
             = get_active_connections t + expired_connections_ t + c;
  ac_cleared : 0 <= c;
  ac_bound : total_connections_ t <= n
}.

(** A flow that has taken no packet in the backward direction. *)
Definition one_way (f : FlowStats) : Prop :=
  bwd_packets f = 0 /\ bwd_bytes f = 0 /\ bwd_pkt_lengths f = [] /\ bwd_iat f = [].

(** The six flag counters of a flow lie between 0 and [m]. *)
Definition tallies_below (m : Z) (f : FlowStats) : Prop :=
  Forall (fun c => 0 <= c <= m)
    [syn_count f; ack_count f; fin_count f; rst_count f; psh_count f; urg_count f].

(** What the packets [packets] add to a flow [f], giving [g]. *)
Record tallied (packets : list ParsedPacket) (f g : FlowStats) : Prop := {
  tl_lengths : fwd_pkt_lengths g = fwd_pkt_lengths f ++ map raw_length packets;
  tl_bytes : u64 (fwd_bytes g) = u64 (fwd_bytes f + sum_lengths packets);
  tl_iat : fwd_iat g = fwd_iat f ++ gaps (last_seen f) (map timestamp packets);
  tl_syn : syn_count g = syn_count f + flagged TCP_SYN packets;
  tl_ack : ack_count g = ack_count f + flagged TCP_ACK packets;
  tl_fin : fin_count g = fin_count f + flagged TCP_FIN packets;
  tl_rst : rst_count g = rst_count f + flagged TCP_RST packets;
  tl_psh : psh_count g = psh_count f + flagged TCP_PSH packets;
  tl_urg : urg_count g = urg_count f + flagged TCP_URG packets
}.

End TrackerApi.

(** * rules/rule_engine.cpp: the conditions of a rule, in words *)

Module RulesSpec.
Import Types Rules.

(** The string [s] has [p] as a substring. *)
Definition substring_of (p s : string) : Prop :=
  exists a b, s = a +:+ p +:+ b.

Section WithHost.
Context `{Host}.

(** The packet has a payload whose first 1024 bytes contain [pattern],
    letter case apart. *)
Definition contains_pattern (packet : ParsedPacket) (pattern : string) : Prop :=
  exists p, payload packet = Some p
            /\ 0 < payload_length packet
            /\ substring_of (str_tolower pattern)
                 (str_tolower (payload_str p (payload_length packet))).

(** Everything that has to hold for a rule to raise an alert for a packet,
    with [matched] the alert's [matched_content]. *)
Record conditions (packet : ParsedPacket) (rule : SignatureRule)
    (matched : string) : Prop := {
  c_enabled : enabled rule = true;
  c_tcp : protocol rule = P_TCP -> has_tcp packet = true;
  c_udp : protocol rule = P_UDP -> has_udp packet = true;
  c_src_ip : src_ip_filter rule = "any"%string
             \/ src_ip_filter rule = get_src_ip packet;
  c_dst_ip : dst_ip_filter rule = "any"%string
             \/ dst_ip_filter rule = get_dst_ip packet;
  c_src_port : src_ports rule = [] \/ In (get_src_port packet) (src_ports rule);
  c_dst_port : dst_ports rule = [] \/ In (get_dst_port packet) (dst_ports rule);
  c_flags : has_tcp packet = true -> tcp_flags_mask rule <> 0 ->
            Z.land (flags (tcp_header packet)) (tcp_flags_mask rule)
            = tcp_flags_value rule;
  c_content :
    (content_patterns rule = [] /\ matched = EmptyString)
    \/ (exists l1 l2,
          content_patterns rule = l1 ++ matched :: l2
          /\ contains_pattern packet matched
          /\ Forall (fun p => ~ contains_pattern packet p) l1)
}.

End WithHost.

(** Every cached regular expression is the one its pattern compiles to. *)
Definition consistent `{RegexLib} (cache : gmap string regex) : Prop :=
  forall pattern re, cache !! pattern = Some re ->
                     regex_compile pattern = Some re.

(** What an engine with [rules] would be after [n] alerts over [k]
    packets, had it started as the constructor leaves it. *)
Definition engine_after `{RegexLib} (rules : list SignatureRule) (k n : Z)
    : RuleEngine :=
  mkRuleEngine ∅ rules k n n (1 + n).

(** The summary of an alert is not that of the rule [id]. *)
Definition other_rule (id : Z) (s : Z * string * Severity * string) : bool :=
  negb (s.1.1.1 =? id).

End RulesSpec.

(** * sids_main.cpp: the capture loop with its statistics *)

Module SidsStats.
Import Types.

(** The counters of [struct Statistics] (common/types.h).  The two rates
    and the two time points, which only [Statistics::update] writes, are
    left out. *)
Record Statistics : Type := mkStatistics {
  total_packets : Z;
  total_bytes : Z;
  tcp_packets : Z;
  udp_packets : Z;
  icmp_packets : Z;
  other_packets : Z;
  alerts_generated : Z;
  alerts_by_severity : list Z
}.

(** The statistics as the constructor of [SignatureIDS] leaves them. *)
Definition stats0 : Statistics := mkStatistics 0 0 0 0 0 0 0 [0; 0; 0; 0].

(** [static_cast<int>(severity)] *)
Definition severity_index (s : Severity) : nat :=
  match s with LOW => 0 | MEDIUM => 1 | HIGH => 2 | CRITICAL => 3 end.

(** The counters of [handle_alert]. *)
Definition handle_alert (alert : Rules.Alert.t) (st : Statistics) : Statistics :=
  mkStatistics (total_packets st) (total_bytes st) (tcp_packets st)
    (udp_packets st) (icmp_packets st) (other_packets st)
    (u64 (alerts_generated st + 1))
    (alter (fun n => u64 (n + 1)) (severity_index (Rules.Alert.severity alert))
       (alerts_by_severity st)).

Inductive PacketClass : Type := TcpPacket | UdpPacket | IcmpPacket | OtherPacket.

(** Lines 121-124: the counter a packet goes to. *)
Definition classify (packet : ParsedPacket) : PacketClass :=
  if has_tcp packet then TcpPacket
  else if has_udp packet then UdpPacket
  else if protocol (ip_header packet) =? 1 then IcmpPacket
  else OtherPacket.

Definition count_class (c x : PacketClass) (n : Z) : Z :=
  match c, x with
  | TcpPacket, TcpPacket | UdpPacket, UdpPacket
  | IcmpPacket, IcmpPacket | OtherPacket, OtherPacket => u64 (n + 1)
  | _, _ => n
  end.

(** Lines 118-124. *)
Definition count_packet (caplen : Z) (packet : ParsedPacket) (st : Statistics)
    : Statistics :=
  let c := classify packet in
  mkStatistics (u64 (total_packets st + 1)) (u64 (total_bytes st + caplen))
    (count_class c TcpPacket (tcp_packets st))
    (count_class c UdpPacket (udp_packets st))
    (count_class c IcmpPacket (icmp_packets st))
    (count_class c OtherPacket (other_packets st))
    (alerts_generated st) (alerts_by_severity st).

Section WithEnv.
Context `{Rules.RegexLib} `{Host}.

(** The body of the capture loops (lines 108-132 and 187-207) with the
    statistics. *)
Definition capture_step (data : Ptr) (caplen : Z) (ts : time_point)
    (s : Sids.SignatureIDS * Statistics)
    : list Rules.Alert.t * (Sids.SignatureIDS * Statistics) :=
  let '(packet, p) :=
    fst (run_rd (Parser.parse (Some data) caplen ts (Sids.parser_ s.1))) in
  let st := count_packet caplen packet s.2 in
  let '(alerts, e) := Rules.evaluate packet (Sids.rule_engine_ s.1) in
  (alerts,
   (Sids.mkSignatureIDS p e, fold_left (fun st a => handle_alert a st) alerts st)).

(** The loop over the frames that [pcap_next_ex] delivers. *)
Fixpoint capture_loop (frames : list (Ptr * Z * time_point))
    (s : Sids.SignatureIDS * Statistics)
    : list Rules.Alert.t * (Sids.SignatureIDS * Statistics) :=
  match frames with
  | [] => ([], s)
  | (data, caplen, ts) :: rest =>
      let '(alerts, s) := capture_step data caplen ts s in
      let '(more, s) := capture_loop rest s in
      (alerts ++ more, s)
  end.

(** What holds after [n] frames have raised [a] alerts. *)
Record consistent_stats (rules : list Rules.SignatureRule) (n a b : Z)
    (s : Sids.SignatureIDS * Statistics) : Prop := {
  cs_total : total_packets s.2 = n;
  cs_bytes : total_bytes s.2 = u64 b;
  cs_classes : tcp_packets s.2 + udp_packets s.2 + icmp_packets s.2
               + other_packets s.2 = n;
  cs_nonneg : 0 <= tcp_packets s.2 /\ 0 <= udp_packets s.2
              /\ 0 <= icmp_packets s.2 /\ 0 <= other_packets s.2;
  cs_alerts : alerts_generated s.2 = a;
  cs_severities : length (alerts_by_severity s.2) = 4%nat
                  /\ fold_right Z.add 0 (alerts_by_severity s.2) = a
                  /\ Forall (fun x => 0 <= x) (alerts_by_severity s.2);
  cs_engine : Sids.rule_engine_ s.1 = RulesSpec.engine_after rules n a;
  cs_parser : Parser.packets_parsed_ (Sids.parser_ s.1)
              + Parser.parse_errors_ (Sids.parser_ s.1) = n
              /\ 0 <= Parser.packets_parsed_ (Sids.parser_ s.1)
              /\ 0 <= Parser.parse_errors_ (Sids.parser_ s.1)
}.

End WithEnv.

(** The class of a captured frame, read off its bytes. *)
Definition frame_class (d : Ptr) (len : Z) : PacketClass :=
  if Parser.accepted (Some d) len then
    if (Parser.ip_protocol_at d =? Parser.IPPROTO_TCP_NUM)
       && (20 <=? ParserTests.transport_length d len) then TcpPacket
    else if (Parser.ip_protocol_at d =? Parser.IPPROTO_UDP_NUM)
            && (8 <=? ParserTests.transport_length d len) then UdpPacket
    else if Parser.ip_protocol_at d =? Parser.IPPROTO_ICMP_NUM then IcmpPacket
    else OtherPacket
  else OtherPacket.

End SidsStats.

(** * parser/protocol_decoder.cpp: the DNS decoder *)

Module Dns.
Import Types.

(** [struct DNSData] *)
Record DNSData : Type := mkDNSData {
  transaction_id : Z;
  is_query : bool;
  is_response : bool;
  dns_flags : Z;
  query_name : string;
  query_type : Z;
  query_class : Z;
  answers : list string;
  answer_count : Z;
  authority_count : Z;
  additional_count : Z
}.

Record ProtocolDecoder : Type := mkProtocolDecoder {
  http_decoded_ : Z;
  dns_decoded_ : Z;
  decode_errors_ : Z
}.

(** [ProtocolDecoder::ProtocolDecoder()] *)
Definition init : ProtocolDecoder := mkProtocolDecoder 0 0 0.

(** [std::string(reinterpret_cast<const char*>(p), n)] of bytes read. *)
Definition string_of_bytes (bs : list Z) : string :=
  fold_right (fun b s => String (ascii_of_N (Z.to_N b)) s) EmptyString bs.

(** [read_uint16] *)
Definition read_uint16 (data : Ptr) (offset : Z) : Rd Z :=
  hi ← load data offset;
  lo ← load data (u32 (offset + 1));
  mret (Z.lor (Z.shiftl hi 8) lo).

(** [is_dns] *)
Definition is_dns (payload : Ptr) (length : Z) : Rd bool :=
  if length <? 12 then mret false
  else
    flags ← load16 payload 2;
    qd_count ← load16 payload 4;
    mret ((0 <? qd_count) && (qd_count <? 100)).

(** The local variables of [parse_dns_name]. *)
Record NameState : Type := mkNameState {
  ns_name : string;
  ns_jumped : bool;
  ns_original_offset : Z;
  ns_offset : Z
}.

(** One turn of the loop of [parse_dns_name], entered with
    [offset < max_length]: the state after it, and whether the loop goes
    on ([false] after a [break]). *)
Definition name_step (data : Ptr) (max_length : Z) (s : NameState)
    : Rd (bool * NameState) :=
  len ← load data (ns_offset s);
  if len =? 0 then
    mret (false, mkNameState (ns_name s) (ns_jumped s) (ns_original_offset s)
                   (u32 (ns_offset s + 1)))
  else if Z.land len 0xC0 =? 0xC0 then
    let original :=
      if ns_jumped s then ns_original_offset s else u32 (ns_offset s + 2) in
    lo ← load data (u32 (ns_offset s + 1));
    let pointer := u16 (Z.lor (Z.shiftl (Z.land len 0x3F) 8) lo) in
    mret (true, mkNameState (ns_name s) true original pointer)
  else
    let offset := u32 (ns_offset s + 1) in
    if max_length <? u32 (offset + len) then
      mret (false, mkNameState (ns_name s) (ns_jumped s) (ns_original_offset s)
                     offset)
    else
      label ← load_bytes data offset (Z.to_nat len);
      let name :=
        (if String.eqb (ns_name s) EmptyString then ns_name s
         else ns_name s +:+ ".") +:+ string_of_bytes label in
      mret (true, mkNameState name (ns_jumped s) (ns_original_offset s)
                    (u32 (offset + len))).

(** The loop of [parse_dns_name]; [None] when [fuel] turns do not end it. *)
Fixpoint name_loop (fuel : nat) (data : Ptr) (max_length : Z) (s : NameState)
    : Rd (option NameState) :=
  match fuel with
  | O => mret None
  | S fuel' =>
      if ns_offset s <? max_length then
        '(again, s') ← name_step data max_length s;
        if again : bool then name_loop fuel' data max_length s'
        else mret (Some s')
      else mret (Some s)
  end.

(** [parse_dns_name]: the name and the new value of [offset]. *)
Definition parse_dns_name (fuel : nat) (data : Ptr) (offset max_length : Z)
    : Rd (option (string * Z)) :=
  r ← name_loop fuel data max_length
        (mkNameState EmptyString false offset offset);
  mret (match r with
        | Some s =>
            Some (ns_name s,
                  if ns_jumped s then ns_original_offset s else ns_offset s)
        | None => None
        end).

(** The inner loop of the answer section (lines 240-242). *)
Fixpoint skip_labels (fuel : nat) (payload : Ptr) (length offset : Z)
    : Rd (option Z) :=
  match fuel with
  | O => mret None
  | S fuel' =>
      if offset <? length then
        b ← load payload offset;
        if b =? 0 then mret (Some offset)
        else
          b' ← load payload offset;
          skip_labels fuel' payload length (u32 (offset + (b' + 1)))
      else mret (Some offset)
  end.

(** The loop over the answers (lines 234-251), [n] turns of it at most. *)
Fixpoint skip_answers (fuel : nat) (n : nat) (payload : Ptr)
    (length offset : Z) : Rd (option Z) :=
  match n with
  | O => mret (Some offset)
  | S n' =>
      if offset <? length then
        b ← load payload offset;
        r ← (if Z.land b 0xC0 =? 0xC0 then mret (Some (u32 (offset + 2)))
             else
               o ← skip_labels fuel payload length offset;
               mret (option_map (fun o => u32 (o + 1)) o) : Rd (option Z));
        match r with
        | None => mret None
        | Some offset =>
            offset ←
              (if u32 (offset + 10) <=? length then
                 data_len ← read_uint16 payload (u32 (offset + 8));
                 mret (u32 (offset + (10 + data_len)))
               else mret offset : Rd Z);
            skip_answers fuel n' payload length offset
        end
      else mret (Some offset)
  end.

(** [decode_dns]: [None] when [fuel] turns do not end one of its loops,
    else the returned flag, the [DNSData] and the decoder afterwards. *)
Definition decode_dns (fuel : nat) (payload : Ptr) (length : Z)
    (dns : DNSData) (dec : ProtocolDecoder)
    : Rd (option (bool * DNSData * ProtocolDecoder)) :=
  ok ← is_dns payload length;
  if negb ok then
    mret (Some (false, dns,
                mkProtocolDecoder (http_decoded_ dec) (dns_decoded_ dec)
                  (u64 (decode_errors_ dec + 1))))
  else
    id ← read_uint16 payload 0;
    fl ← read_uint16 payload 2;
    qd_count ← read_uint16 payload 4;
    an ← read_uint16 payload 6;
    au ← read_uint16 payload 8;
    ad ← read_uint16 payload 10;
    let query := Z.land fl 0x8000 =? 0 in
    let dns := mkDNSData id query (negb query) fl (query_name dns)
                 (query_type dns) (query_class dns) (answers dns) an au ad in
    let offset := 12 in
    r ← (if (0 <? qd_count) && (offset <? length) then
           nm ← parse_dns_name fuel payload offset length;
           match nm with
           | None => mret None
           | Some (name, offset) =>
               let dns := mkDNSData id query (negb query) fl name
                            (query_type dns) (query_class dns) (answers dns)
                            an au ad in
               if u32 (offset + 4) <=? length then
                 qt ← read_uint16 payload offset;
                 qc ← read_uint16 payload (u32 (offset + 2));
                 mret (Some (mkDNSData id query (negb query) fl name qt qc
                               (answers dns) an au ad,
                             u32 (offset + 4)))
               else mret (Some (dns, offset))
           end
         else mret (Some (dns, offset)) : Rd (option (DNSData * Z)));
    match r with
    | None => mret None
    | Some (dns, offset) =>
        let dns := mkDNSData (transaction_id dns) (is_query dns)
                     (is_response dns) (dns_flags dns) (query_name dns)
                     (query_type dns) (query_class dns) [] (answer_count dns)
                     (authority_count dns) (additional_count dns) in
        o ← skip_answers fuel (Z.to_nat (answer_count dns)) payload length offset;
        match o with
        | None => mret None
        | Some _ =>
            mret (Some (true, dns,
                        mkProtocolDecoder (http_decoded_ dec)
                          (u64 (dns_decoded_ dec + 1)) (decode_errors_ dec)))
        end
    end.

(** ** Names on the wire *)

(** A name as a sequence of labels, each a length byte and its bytes,
    ended by a zero byte. *)
Definition encode_label (l : list Z) : list Z := Z.of_nat (length l) :: l.
Definition encode_name (labels : list (list Z)) : list Z :=
  concat (map encode_label labels) ++ [0].

(** The labels joined by dots. *)
Fixpoint dotted_name (labels : list (list Z)) : string :=
  match labels with
  | [] => EmptyString
  | l :: rest =>
      match rest with
      | [] => string_of_bytes l
      | _ => string_of_bytes l +:+ "." +:+ dotted_name rest
      end
  end.

(** A label that [parse_dns_name] reads as a label: not empty, and with a
    length byte that is not a compression pointer. *)
Definition wf_label (l : list Z) : Prop :=
  (0 < length l)%nat /\ Z.land (Z.of_nat (length l)) 0xC0 <> 0xC0
  /\ Z.of_nat (length l) < 256
  /\ Forall (fun b => 0 <= b < 256) l.

(** The name that the loop of [parse_dns_name] builds from labels. *)
Fixpoint append_labels (name : string) (labels : list (list Z)) : string :=
  match labels with
  | [] => name
  | l :: rest =>
      append_labels
        ((if String.eqb name EmptyString then name else name +:+ ".")
         +:+ string_of_bytes l) rest
  end.

(** The byte at [off] is a compression pointer to [off] itself. *)
Definition self_pointer (data : Ptr) (o : Z) : Prop :=
  let len := byte_at (buf data) (off data + o) in
  Z.land len 0xC0 = 0xC0
  /\ u16 (Z.lor (Z.shiftl (Z.land len 0x3F) 8)
            (byte_at (buf data) (off data + u32 (o + 1)))) = o.

(** A DNS query with one question. *)
Definition encode_query (id flags authority additional : Z)
    (labels : list (list Z)) (qtype qclass : Z) : list Z :=
  Wire.be16 id ++ Wire.be16 flags ++ Wire.be16 1 ++ Wire.be16 0
  ++ Wire.be16 authority ++ Wire.be16 additional
  ++ encode_name labels ++ Wire.be16 qtype ++ Wire.be16 qclass.

(** A message with a question whose name is the two bytes [C0 0C]. *)
Definition looping_query : list Z :=
  [0; 1; 1; 0; 0; 1; 0; 0; 0; 0; 0; 0; 0xC0; 0x0C].

End Dns.
(** * Properties *)

(** ** Machine integers *)

Lemma wrap_small w x : 0 <= x < 2 ^ w -> wrap w x = x.
Proof. intros Hx. unfold wrap. now apply Z.mod_small. Qed.

Lemma wrap_range w x : 0 <= w -> 0 <= wrap w x < 2 ^ w.
Proof.
  intros Hw. unfold wrap. apply Z.mod_pos_bound. now apply Z.pow_pos_nonneg.
Qed.

Lemma u8_small x : 0 <= x < 2 ^ 8 -> u8 x = x.
Proof. apply wrap_small. Qed.
Lemma u32_small x : 0 <= x < 2 ^ 32 -> u32 x = x.
Proof. apply wrap_small. Qed.
Lemma u64_small x : 0 <= x < 2 ^ 64 -> u64 x = x.
Proof. apply wrap_small. Qed.
Lemma u8_range x : 0 <= u8 x < 2 ^ 8.
Proof. now apply wrap_range. Qed.
Lemma u32_range x : 0 <= u32 x < 2 ^ 32.
Proof. now apply wrap_range. Qed.
Lemma u64_range x : 0 <= u64 x < 2 ^ 64.
Proof. now apply wrap_range. Qed.

Lemma byte_at_range b i : 0 <= byte_at b i < 256.
Proof. unfold byte_at. destruct (_ && _); apply u8_range. Qed.

(** ** The packet parser *)

Module ParserProofs.
Import Types Parser Vectors.

(** Running a traced read: unfold the monad down to pairs. *)
Ltac rd_unfold :=
  cbv beta iota delta
    [mbind rd_bind mret rd_ret load16 load32 load load_bytes run_rd].

Ltac split_ltb :=
  repeat (match goal with
          | |- context [if (?a <? ?b) then _ else _] => destruct (a <? b) eqn:?
          end; rd_unfold).

Ltac facts Hacc :=
  split; rewrite ?Hacc; cbn; try discriminate; intros; repeat split; auto;
  try discriminate.

Lemma accepted_short d len : len < 34 -> accepted (Some d) len = false.
Proof.
  intros Hlt. unfold accepted. destruct (Z.leb_spec 34 len); [lia | reflexivity].
Qed.

Lemma accepted_long d len :
  34 <= len ->
  accepted (Some d) len = (ethertype_at d =? 2048) && (ip_version_at d =? 4).
Proof.
  intros Hle. unfold accepted. destruct (Z.leb_spec 34 len); [reflexivity | lia].
Qed.

Lemma parse_summary data len ts st tr :
  0 <= len < 2 ^ 32 ->
  parse_facts data len ts st (parse data len ts st tr).1.1
                             (parse data len ts st tr).1.2.
Proof.
  intros Hlen. unfold parse, validate_packet.
  destruct data as [d|]; cbn [negb]; [|rd_unfold; facts I].
  destruct (Z.leb_spec 34 len) as [H34|H34]; cbn [negb andb].
  2:{ pose proof (accepted_short d len H34) as Hacc. rd_unfold. facts Hacc. }
  pose proof (accepted_long d len H34) as Hacc.
  unfold parse_ethernet.
  destruct (Z.ltb_spec len ETHER_HDR_SIZE) as [?|_];
    [unfold ETHER_HDR_SIZE in *; lia|].
  rd_unfold. fold (ethertype_at d).
  destruct (ethertype_at d =? 2048) eqn:Het; cbn [negb andb] in *;
    [|facts Hacc].
  unfold parse_ipv4.
  rewrite (u32_small (len - ETHER_HDR_SIZE)) by (unfold ETHER_HDR_SIZE; lia).
  destruct (Z.ltb_spec (len - ETHER_HDR_SIZE) 20) as [?|_];
    [unfold ETHER_HDR_SIZE in *; lia|].
  rd_unfold. cbn [ptr_add buf off]. fold (ip_version_at d).
  destruct (ip_version_at d =? 4) eqn:Hv; cbn [negb andb] in *; [|facts Hacc].
  cbn [ip_header set_ip version_ihl protocol].
  set (proto := byte_at (buf d) (off d + ETHER_HDR_SIZE + 9)).
  unfold parse_tcp, parse_udp.
  destruct (proto =? IPPROTO_TCP_NUM) eqn:Htcp;
    [|destruct (proto =? IPPROTO_UDP_NUM) eqn:Hudp].
  - apply Z.eqb_eq in Htcp. split_ltb; facts Hacc.
  - apply Z.eqb_eq in Hudp. split_ltb; facts Hacc.
  - rd_unfold; facts Hacc.
Qed.

Lemma ihl_at_range d : 0 <= ihl_at d <= 15.
Proof.
  unfold ihl_at. set (b := byte_at _ _).
  replace (Z.land b 15) with (b mod 2 ^ 4)
    by (symmetry; apply (Z.land_ones b 4); lia).
  pose proof (Z.mod_pos_bound b (2 ^ 4)). lia.
Qed.

Ltac bounded_trace :=
  cbn [snd]; repeat (apply Forall_cons; split; [unfold ETHER_HDR_SIZE in *; lia|]);
  apply Forall_nil; exact I.

Lemma parse_reads_in_bounds d len ts st :
  off d = 0 -> 34 <= len < 2 ^ 32 ->
  ETHER_HDR_SIZE + ihl_at d * 4 <= len ->
  Forall (fun o => 0 <= o < len) (run_rd (parse (Some d) len ts st)).2.
Proof.
  intros Hoff Hlen Hihl. pose proof (ihl_at_range d) as Hr.
  unfold run_rd, parse, validate_packet. cbn [negb].
  destruct (Z.leb_spec 34 len) as [_|?]; [|lia]. cbn [negb].
  unfold parse_ethernet.
  destruct (Z.ltb_spec len ETHER_HDR_SIZE) as [?|_];
    [unfold ETHER_HDR_SIZE in *; lia|].
  rd_unfold.
  destruct (_ =? 2048); cbn [negb]; [|bounded_trace].
  unfold parse_ipv4.
  rewrite (u32_small (len - ETHER_HDR_SIZE)) by (unfold ETHER_HDR_SIZE; lia).
  destruct (Z.ltb_spec (len - ETHER_HDR_SIZE) 20) as [?|_];
    [unfold ETHER_HDR_SIZE in *; lia|].
  rd_unfold. cbn [ptr_add buf off].
  destruct (_ =? 4); cbn [negb]; [|bounded_trace].
  cbn [ip_header set_ip version_ihl protocol]. fold (ihl_at d).
  rewrite (u8_small (ihl_at d * 4)) by lia.
  rewrite (u32_small (len - ETHER_HDR_SIZE - ihl_at d * 4))
    by (unfold ETHER_HDR_SIZE in *; lia).
  unfold parse_tcp, parse_udp.
  destruct (_ =? IPPROTO_TCP_NUM); [|destruct (_ =? IPPROTO_UDP_NUM)].
  - destruct (Z.ltb_spec (len - ETHER_HDR_SIZE - ihl_at d * 4) 20); rd_unfold;
      [bounded_trace|].
    cbn [ptr_add buf off]. split_ltb; bounded_trace.
  - destruct (Z.ltb_spec (len - ETHER_HDR_SIZE - ihl_at d * 4) 8); rd_unfold;
      [bounded_trace|].
    cbn [ptr_add buf off]. split_ltb; bounded_trace.
  - rd_unfold. bounded_trace.
Qed.

(** When the IP header fits and fewer bytes than a transport header follow it,
    the packet carries no transport header. *)
Lemma parse_short_transport d len ts st :
  34 <= len < 2 ^ 32 ->
  ETHER_HDR_SIZE + ihl_at d * 4 <= len ->
  (ip_protocol_at d = IPPROTO_TCP_NUM -> len - ETHER_HDR_SIZE - ihl_at d * 4 < 20) ->
  (ip_protocol_at d = IPPROTO_UDP_NUM -> len - ETHER_HDR_SIZE - ihl_at d * 4 < 8) ->
  let pkt := (run_rd (parse (Some d) len ts st)).1.1 in
  has_tcp pkt = false /\ has_udp pkt = false.
Proof.
  intros Hlen Hihl Htcp Hudp. pose proof (ihl_at_range d) as Hr.
  unfold run_rd, parse, validate_packet. cbn [negb].
  destruct (Z.leb_spec 34 len) as [_|?]; [|lia]. cbn [negb].
  unfold parse_ethernet.
  destruct (Z.ltb_spec len ETHER_HDR_SIZE) as [?|_];
    [unfold ETHER_HDR_SIZE in *; lia|].
  rd_unfold.
  destruct (_ =? 2048); cbn [negb]; [|split; reflexivity].
  unfold parse_ipv4.
  rewrite (u32_small (len - ETHER_HDR_SIZE)) by (unfold ETHER_HDR_SIZE; lia).
  destruct (Z.ltb_spec (len - ETHER_HDR_SIZE) 20) as [?|_];
    [unfold ETHER_HDR_SIZE in *; lia|].
  rd_unfold. cbn [ptr_add buf off].
  destruct (_ =? 4); cbn [negb]; [|split; reflexivity].
  cbn [ip_header set_ip version_ihl protocol]. fold (ihl_at d). fold (ip_protocol_at d).
  rewrite (u8_small (ihl_at d * 4)) by lia.
  rewrite (u32_small (len - ETHER_HDR_SIZE - ihl_at d * 4))
    by (unfold ETHER_HDR_SIZE in *; lia).
  unfold parse_tcp, parse_udp.
  destruct (Z.eqb_spec (ip_protocol_at d) IPPROTO_TCP_NUM) as [E|_];
    [|destruct (Z.eqb_spec (ip_protocol_at d) IPPROTO_UDP_NUM) as [E|_]].
  - specialize (Htcp E).
    destruct (Z.ltb_spec (len - ETHER_HDR_SIZE - ihl_at d * 4) 20); [|lia].
    rd_unfold. split; reflexivity.
  - specialize (Hudp E).
    destruct (Z.ltb_spec (len - ETHER_HDR_SIZE - ihl_at d * 4) 8); [|lia].
    rd_unfold. split; reflexivity.
  - rd_unfold. split; reflexivity.
Qed.

Lemma parse_accepts_ihl0 (beyond_mem : Z -> Z) ts st :
  let data := mkPtr (mkBuffer frame_ihl0 beyond_mem) 0 in
  let r := run_rd (parse (Some data) 54 ts st) in
  ihl_at data * 4 = 0
  /\ packets_parsed_ r.1.2 = u64 (packets_parsed_ st + 1)
  /\ parse_errors_ r.1.2 = parse_errors_ st
  /\ has_tcp r.1.1 = true.
Proof.
  cbv zeta.
  pose proof (parse_summary (Some (mkPtr (mkBuffer frame_ihl0 beyond_mem) 0)) 54 ts st [])
    as Hsum.
  destruct Hsum as [_ _ _ _ Hc _ _]; [lia|].
  change (accepted _ _) with true in Hc.
  repeat split; try reflexivity; try apply Hc.
Qed.

Lemma accepted_count_range inputs :
  0 <= accepted_count inputs <= Z.of_nat (length inputs).
Proof.
  induction inputs as [|[[data len] ts] rest IH]; cbn [accepted_count length].
  - lia.
  - destruct (accepted data len); lia.
Qed.

Lemma parse_all_facts inputs : forall st,
  Forall wf_input inputs ->
  0 <= packets_parsed_ st -> 0 <= parse_errors_ st -> 0 <= next_packet_id_ st ->
  packets_parsed_ st + Z.of_nat (length inputs) < 2 ^ 64 ->
  parse_errors_ st + Z.of_nat (length inputs) < 2 ^ 64 ->
  next_packet_id_ st + Z.of_nat (length inputs) < 2 ^ 64 ->
  run_facts inputs st (parse_all inputs st).1 (parse_all inputs st).2.
Proof.
  induction inputs as [|[[data len] ts] rest IH]; intros st Hwf Hp He Hn Bp Be Bn.
  - split; cbn; try lia. intros i p Hi. destruct i; discriminate.
  - cbn [length] in *. rewrite Nat2Z.inj_succ in *.
    apply Forall_cons in Hwf as [Hlen Hwf]. unfold wf_input in Hlen. cbn in Hlen.
    pose proof (parse_summary data len ts st [] Hlen) as [Hid _ _ Hnx Hc _ _].
    pose proof (accepted_count_range rest) as Hr.
    cbn [parse_all accepted_count]. unfold run_rd.
    destruct (parse data len ts st []) as [[pkt st1] tr] eqn:Hparse.
    cbn [fst snd] in *.
    rewrite u64_small in Hnx by lia.
    assert (Hst1 : packets_parsed_ st1 + parse_errors_ st1
                   = packets_parsed_ st + parse_errors_ st + 1
                   /\ packets_parsed_ st1 = packets_parsed_ st
                        + (if accepted data len then 1 else 0)
                   /\ parse_errors_ st1 = parse_errors_ st
                        + (1 - (if accepted data len then 1 else 0))).
    { destruct (accepted data len).
      - destruct Hc as [Hc1 Hc2]. rewrite u64_small in Hc1 by lia. lia.
      - destruct Hc as (Hc1 & Hc2 & _). rewrite u64_small in Hc2 by lia. lia. }
    destruct Hst1 as (_ & Hp1 & He1).
    assert (Hb : 0 <= (if accepted data len then 1 else 0) <= 1)
      by (destruct (accepted data len); lia).
    specialize (IH st1 Hwf).
    destruct IH as [I1 I2 I3 I4 I5]; try lia.
    destruct (parse_all rest st1) as [pkts st2]. cbn [fst snd] in *.
    split; cbn [length accepted_count]; try lia.
    intros i p Hi. destruct i as [|i]; cbn in Hi.
    + inversion Hi; subst. lia.
    + apply I5 in Hi. lia.
Qed.

Lemma parse_all_app l1 l2 st :
  parse_all (l1 ++ l2) st =
  let '(p1, s1) := parse_all l1 st in
  let '(p2, s2) := parse_all l2 s1 in
  (p1 ++ p2, s2).
Proof.
  revert st. induction l1 as [|[[data len] ts] rest IH]; intros st.
  - cbn. now destruct (parse_all l2 st).
  - cbn [app parse_all].
    destruct (run_rd (parse data len ts st)).1 as [pkt st1].
    rewrite IH. destruct (parse_all rest st1) as [p1 s1].
    now destruct (parse_all l2 s1).
Qed.

Lemma u32_wrapped x : - 2 ^ 32 <= x < 0 -> u32 x = x + 2 ^ 32.
Proof.
  intros Hx. unfold u32, wrap.
  rewrite <- (Z.mod_add x 1 (2 ^ 32)) by lia.
  apply Z.mod_small. lia.
Qed.

(** The overrun: when the announced IPv4 header is longer than what follows
    the Ethernet header, the transport length wraps around and a TCP header
    is read from past the capture. *)
Lemma parse_tcp_overrun d len ts st :
  off d = 0 -> 34 <= len < 2 ^ 32 ->
  accepted (Some d) len = true ->
  ip_protocol_at d = IPPROTO_TCP_NUM ->
  len < ETHER_HDR_SIZE + ihl_at d * 4 ->
  let r := run_rd (parse (Some d) len ts st) in
  has_tcp r.1.1 = true
  /\ Forall (fun o => In o r.2)
       (map (fun i => ETHER_HDR_SIZE + ihl_at d * 4 + i) [0; 19]).
Proof.
  intros Hoff Hlen Hacc Hproto Hihl. pose proof (ihl_at_range d) as Hr.
  rewrite accepted_long in Hacc by lia.
  apply andb_true_iff in Hacc as [Het Hv].
  cbv zeta. unfold run_rd, parse, validate_packet. cbn [negb].
  destruct (Z.leb_spec 34 len) as [_|?]; [|lia]. cbn [negb].
  unfold parse_ethernet.
  destruct (Z.ltb_spec len ETHER_HDR_SIZE) as [?|_];
    [unfold ETHER_HDR_SIZE in *; lia|].
  rd_unfold. fold (ethertype_at d). rewrite Het. cbn [negb].
  unfold parse_ipv4.
  rewrite (u32_small (len - ETHER_HDR_SIZE)) by (unfold ETHER_HDR_SIZE; lia).
  destruct (Z.ltb_spec (len - ETHER_HDR_SIZE) 20) as [?|_];
    [unfold ETHER_HDR_SIZE in *; lia|].
  rd_unfold. cbn [ptr_add buf off]. fold (ip_version_at d). rewrite Hv.
  cbn [negb ip_header set_ip version_ihl protocol].
  fold (ihl_at d). fold (ip_protocol_at d). rewrite Hproto.
  change (IPPROTO_TCP_NUM =? IPPROTO_TCP_NUM) with true. cbv iota.
  rewrite (u8_small (ihl_at d * 4)) by lia.
  rewrite (u32_wrapped (len - ETHER_HDR_SIZE - ihl_at d * 4))
    by (unfold ETHER_HDR_SIZE in *; lia).
  unfold parse_tcp.
  destruct (Z.ltb_spec (len - ETHER_HDR_SIZE - ihl_at d * 4 + 2 ^ 32) 20);
    [unfold ETHER_HDR_SIZE in *; lia|].
  rd_unfold. cbn [ptr_add buf off]. rewrite Hoff.
  split_ltb; (split; [reflexivity|]);
    repeat (apply Forall_cons; split; [cbn [snd In]; unfold ETHER_HDR_SIZE; lia || (repeat (first [left; lia | right])) |]);
    apply Forall_nil; exact I.
Qed.

(** C3 (the code departs from it).  A 34-byte frame that passes the
    Ethernet and IP-version checks and announces IHL = 15 is accepted:
    [parse] does not compare the IPv4 header length with the bytes that are
    left, the subtraction [length - 14 - 60] wraps around, [parse_tcp] sees a
    huge length and reads offsets 74 to 93 of a 34-byte capture, and the
    packet comes back with [has_tcp] set. *)
Theorem parse_ihl15_reads_past_capture (beyond_mem : Z -> Z) ts st :
  let data := mkPtr (mkBuffer frame_ihl15 beyond_mem) 0 in
  let r := run_rd (parse (Some data) 34 ts st) in
  buf_len (buf data) = 34
  /\ accepted (Some data) 34 = true
  /\ ihl_at data * 4 = 60
  /\ packets_parsed_ r.1.2 = u64 (packets_parsed_ st + 1)
  /\ parse_errors_ r.1.2 = parse_errors_ st
  /\ has_tcp r.1.1 = true
  /\ In 74 r.2 /\ In 93 r.2.
Proof.
  cbv zeta.
  set (data := mkPtr (mkBuffer frame_ihl15 beyond_mem) 0).
  assert (Hacc : accepted (Some data) 34 = true) by reflexivity.
  assert (Hihl : ihl_at data = 15) by reflexivity.
  pose proof (parse_summary (Some data) 34 ts st []) as [_ _ _ _ Hc _ _]; [lia|].
  rewrite Hacc in Hc.
  destruct (parse_tcp_overrun data 34 ts st) as [Htcp Hrd];
    [reflexivity | lia | exact Hacc | reflexivity
    | rewrite Hihl; unfold ETHER_HDR_SIZE; lia |].
  rewrite Hihl in Hrd. cbn [map] in Hrd.
  apply Forall_cons in Hrd as [H74 Hrd]. apply Forall_cons in Hrd as [H93 _].
  refine (conj _ (conj Hacc (conj _ (conj (proj1 Hc) (conj (proj2 Hc)
            (conj Htcp (conj H74 H93)))))));
    [reflexivity | rewrite Hihl; reflexivity].
Qed.

(** C10.  Every call of [parse] increments exactly one of [packets_parsed_]
    and [parse_errors_] by one and gives the packet the value of
    [next_packet_id_], which it increments; so, in a run of a fresh parser
    over [inputs] followed by one more call on [x]: the call on [x] adds one
    to exactly one counter and numbers its packet with the counter; after
    the run the two counters add up to the number of calls; and the packet
    ids, those of rejected packets included, are strictly increasing (hence
    distinct). *)
Theorem parse_counts_and_numbers_every_call (inputs : list Input) (x : Input) :
  Forall wf_input inputs -> wf_input x ->
  Z.of_nat (length inputs) + 2 < 2 ^ 64 ->
  let r := parse_all inputs init in
  let r' := parse_all (inputs ++ [x]) init in
  ((packets_parsed_ r'.2 = packets_parsed_ r.2 + 1
    /\ parse_errors_ r'.2 = parse_errors_ r.2)
   \/ (packets_parsed_ r'.2 = packets_parsed_ r.2
       /\ parse_errors_ r'.2 = parse_errors_ r.2 + 1))
  /\ (exists p, r'.1 = r.1 ++ [p]
                /\ packet_id p = next_packet_id_ r.2
                /\ next_packet_id_ r'.2 = next_packet_id_ r.2 + 1)
  /\ packets_parsed_ r.2 + parse_errors_ r.2 = Z.of_nat (length inputs)
  /\ length r.1 = length inputs
  /\ (forall (i j : nat) p q, (i < j)%nat ->
        r.1 !! i = Some p -> r.1 !! j = Some q -> packet_id p < packet_id q).
Proof.
  intros Hwf Hx Hn. cbv zeta.
  pose proof (accepted_count_range inputs) as Hr.
  destruct (parse_all_facts inputs init Hwf) as [R1 R2 R3 R4 R5];
    cbn [init packets_parsed_ parse_errors_ next_packet_id_] in *; try lia.
  rewrite parse_all_app.
  destruct (parse_all inputs init) as [pkts st] eqn:Hrun. cbn [fst snd] in *.
  destruct x as [[data len] ts]. unfold wf_input in Hx. cbn in Hx.
  cbn [parse_all]. unfold run_rd.
  pose proof (parse_summary data len ts st [] Hx) as [Hid _ _ Hnx Hc _ _].
  destruct (parse data len ts st []) as [[pkt st1] tr]. cbn [fst snd] in *.
  rewrite u64_small in Hnx by lia.
  repeat split.
  - destruct (accepted data len).
    + left. destruct Hc as [Hc1 Hc2]. rewrite u64_small in Hc1 by lia. lia.
    + right. destruct Hc as (Hc1 & Hc2 & _). rewrite u64_small in Hc2 by lia. lia.
  - exists pkt. repeat split; [exact Hid | lia].
  - lia.
  - exact R4.
  - intros i j p q Hij Hi Hj. apply R5 in Hi. apply R5 in Hj. lia.
Qed.

Lemma parse_counts_and_numbers_every_call_witness :
  Forall wf_input w_inputs /\ wf_input w_input
  /\ packets_parsed_ (parse_all w_inputs init).2
     + parse_errors_ (parse_all w_inputs init).2 = 2.
Proof.
  assert (H1 : Forall wf_input w_inputs)
    by (repeat constructor; unfold wf_input; cbn; lia).
  assert (H2 : wf_input w_input) by (unfold wf_input; cbn; lia).
  assert (H3 : Z.of_nat (length w_inputs) + 2 < 2 ^ 64) by (cbn; lia).
  split; [exact H1 | split; [exact H2 |]].
  exact (proj1 (proj2 (proj2
           (parse_counts_and_numbers_every_call w_inputs w_input H1 H2 H3)))).
Defined.

End ParserProofs.

(** ** The connection tracker *)

Module TrackerProofs.
Import Types Tracker Vectors.
Section WithHost.
Context `{Host}.
(** *** What [update] does to the table *)

Lemma update_present clock packet t flow :
  connections_ t !! create_key packet = Some flow ->
  update clock packet t =
  set_connections t (<[create_key packet := account packet flow]> (connections_ t)).
Proof. intros Hk. unfold update. rewrite Hk. cbv zeta. now rewrite Hk. Qed.

Lemma update_absent clock packet t :
  connections_ t !! create_key packet = None ->
  connections_ (update clock packet t) =
  <[create_key packet := account packet (new_flow (timestamp packet))]>
    (connections_ (if max_connections_ t <=? Z.of_nat (size (connections_ t))
                   then cleanup_expired clock t else t)).
Proof.
  intros Hk. unfold update. rewrite Hk. cbv zeta.
  unfold admit_flow. cbn [connections_].
  rewrite lookup_insert_eq. cbn [set_connections connections_].
  now rewrite insert_insert_eq.
Qed.

Lemma cleanup_lookup_Some clock t k f :
  connections_ (cleanup_expired clock t) !! k = Some f <->
  connections_ t !! k = Some f
  /\ is_expired (timeout_seconds_ t) (clock k) f = false.
Proof. unfold cleanup_expired. cbn [connections_]. apply map_lookup_filter_Some. Qed.

(** Every entry of the table after [update] is the updated flow of the
    packet's key or an entry that was there before. *)
Lemma update_lookup clock packet t k f :
  connections_ (update clock packet t) !! k = Some f ->
  (k = create_key packet
   /\ f = account packet
            (default (new_flow (timestamp packet))
                     (connections_ t !! create_key packet)))
  \/ (k <> create_key packet /\ connections_ t !! k = Some f).
Proof.
  destruct (connections_ t !! create_key packet) as [f0|] eqn:Hk.
  - rewrite (update_present _ _ _ _ Hk). cbn [set_connections connections_ default].
    destruct (decide (k = create_key packet)) as [->|Hne].
    + rewrite lookup_insert_eq. intros [= <-]. now left.
    + rewrite lookup_insert_ne by congruence. intros Hf. now right.
  - rewrite (update_absent _ _ _ Hk). cbn [default].
    destruct (decide (k = create_key packet)) as [->|Hne].
    + rewrite lookup_insert_eq. intros [= <-]. now left.
    + rewrite lookup_insert_ne by congruence. intros Hf. right. split; [assumption|].
      destruct (_ <=? _); [|assumption].
      now apply cleanup_lookup_Some in Hf.
Qed.

(** The packet's flow is in the table after [update], whatever the size of
    the table was: no new flow is turned away. *)
Lemma update_tracks clock packet t :
  connections_ (update clock packet t) !! create_key packet =
  Some (account packet
          (default (new_flow (timestamp packet))
                   (connections_ t !! create_key packet))).
Proof.
  destruct (connections_ t !! create_key packet) as [f0|] eqn:Hk.
  - rewrite (update_present _ _ _ _ Hk). cbn [set_connections connections_ default].
    apply lookup_insert_eq.
  - rewrite (update_absent _ _ _ Hk). apply lookup_insert_eq.
Qed.


(** *** Expiry *)

(** C7 (as amended).  A run of [cleanup_expired] removes exactly the
    entries whose age since [last_seen], at the clock reading taken for the
    entry and cut down to whole seconds as [duration_cast<seconds>] does,
    exceeds [timeout_seconds_], or whose state is [CLOSED]: each of them is
    gone afterwards, every other entry is still there with the same flow,
    and nothing else is in the table.  So an entry that is older than the
    timeout by less than a second stays. *)
Theorem cleanup_expired_removes_exactly (clock : Clock) (t : ConnectionTracker)
    (k : ConnectionKey) (f : FlowStats) :
  let expired :=
    timeout_seconds_ t < to_seconds (clock k - last_seen f) \/ state f = CLOSED in
  (connections_ t !! k = Some f /\ expired ->
     connections_ (cleanup_expired clock t) !! k = None)
  /\ (connections_ t !! k = Some f /\ ~ expired ->
        connections_ (cleanup_expired clock t) !! k = Some f)
  /\ (connections_ (cleanup_expired clock t) !! k = Some f ->
        connections_ t !! k = Some f /\ ~ expired).
Proof.
  cbv zeta.
  assert (Hexp : is_expired (timeout_seconds_ t) (clock k) f = true <->
                 timeout_seconds_ t < to_seconds (clock k - last_seen f)
                 \/ state f = CLOSED).
  { unfold is_expired. rewrite orb_true_iff, Z.ltb_lt, bool_decide_eq_true.
    reflexivity. }
  split; [|split].
  - intros [Hk He]. apply Hexp in He.
    destruct (connections_ (cleanup_expired clock t) !! k) as [g|] eqn:Hg;
      [|reflexivity].
    apply cleanup_lookup_Some in Hg as [Hg1 Hg2]. congruence.
  - intros [Hk He]. apply cleanup_lookup_Some. split; [assumption|].
    destruct (is_expired _ _ _) eqn:E; [|reflexivity].
    exfalso. apply He, Hexp. reflexivity.
  - intros Hg. apply cleanup_lookup_Some in Hg as [Hg1 Hne].
    split; [exact Hg1|]. intros He. apply Hexp in He. congruence.
Qed.

(** *** The TCP state machine *)

Lemma account_state packet flow :
  state (account packet flow) =
  if has_tcp packet
  then update_tcp_state (state flow) (flags (tcp_header packet))
  else state flow.
Proof. reflexivity. Qed.

Lemma non_tcp_unknown_init timeout maxc : non_tcp_unknown (init timeout maxc).
Proof. intros k f Hk. cbn in Hk. now rewrite lookup_empty in Hk. Qed.

Lemma update_non_tcp_unknown clock packet t :
  tcp_only_on_protocol_6 packet ->
  non_tcp_unknown t -> non_tcp_unknown (update clock packet t).
Proof.
  intros Hp Ht k f Hk Hproto.
  apply update_lookup in Hk as [[-> ->]|[Hne Hk]]; [|now apply (Ht k f)].
  rewrite account_state. cbn [create_key protocol] in Hproto.
  destruct (has_tcp packet) eqn:Htcp; [now specialize (Hp Htcp)|].
  destruct (connections_ t !! create_key packet) as [f0|] eqn:Hf0; cbn [default].
  - now apply (Ht _ _ Hf0).
  - reflexivity.
Qed.

Lemma update_all_non_tcp_unknown evs : forall t,
  Forall (fun ev => tcp_only_on_protocol_6 ev.2) evs ->
  non_tcp_unknown t -> non_tcp_unknown (update_all evs t).
Proof.
  induction evs as [|[clock packet] rest IH]; intros t Hwf Ht; [exact Ht|].
  apply Forall_cons in Hwf as [Hp Hwf]. cbn [update_all].
  apply IH; [assumption|]. now apply update_non_tcp_unknown.
Qed.

(** The sequences of the specification: the handshake, then a reset, or
    two FINs. *)
Example handshake_then_close :
  update_tcp_state UNKNOWN TCP_SYN = SYN_SENT
  /\ update_tcp_state SYN_SENT (Z.lor TCP_SYN TCP_ACK) = SYN_RECEIVED
  /\ update_tcp_state SYN_RECEIVED TCP_ACK = ESTABLISHED
  /\ update_tcp_state ESTABLISHED TCP_RST = CLOSED
  /\ update_tcp_state ESTABLISHED TCP_FIN = FIN_WAIT
  /\ update_tcp_state FIN_WAIT TCP_FIN = CLOSED.
Proof. repeat split. Qed.

(** The packets that [parse] returns carry a TCP header only on IP
    protocol 6. *)
Lemma parse_tcp_only_on_protocol_6 data len ts st :
  0 <= len < 2 ^ 32 ->
  tcp_only_on_protocol_6 (run_rd (Parser.parse data len ts st)).1.1.
Proof.
  intros Hlen Htcp.
  now destruct (ParserProofs.parse_summary data len ts st [] Hlen)
    as [_ _ _ _ _ [Hp _] _].
Qed.

(** *** Flow aggregates *)

Lemma update_all_present evs : forall t flow key,
  Forall (fun ev => create_key ev.2 = key) evs ->
  connections_ t !! key = Some flow ->
  connections_ (update_all evs t) !! key = Some (account_all (map snd evs) flow).
Proof.
  induction evs as [|[clock packet] rest IH]; intros t flow key Hkey Hk;
    [exact Hk|].
  apply Forall_cons in Hkey as [Hp Hkey]. cbn in Hp. cbn [update_all map snd].
  unfold account_all. cbn [fold_left]. apply IH; [assumption|].
  subst key. rewrite update_tracks, Hk. reflexivity.
Qed.

Lemma update_all_absent clock packet rest t key :
  create_key packet = key ->
  Forall (fun ev => create_key ev.2 = key) rest ->
  connections_ t !! key = None ->
  connections_ (update_all ((clock, packet) :: rest) t) !! key =
  Some (account_all (packet :: map snd rest) (new_flow (timestamp packet))).
Proof.
  intros Hp Hkey Hk. cbn [update_all].
  rewrite (update_all_present rest _
             (account packet (new_flow (timestamp packet))) key Hkey).
  - reflexivity.
  - subst key. rewrite update_tracks, Hk. reflexivity.
Qed.

Lemma account_all_state packets : forall flow,
  state (account_all packets flow) = tcp_states packets (state flow).
Proof.
  induction packets as [|p rest IH]; intros flow; [reflexivity|].
  unfold account_all, tcp_states. cbn [fold_left].
  rewrite <- account_state. apply IH.
Qed.

(** The flow of the first packet after a run of packets of its 5-tuple. *)
Lemma update_all_tracks clock packet rest t :
  Forall (fun ev => create_key ev.2 = create_key packet) rest ->
  connections_ (update_all ((clock, packet) :: rest) t) !! create_key packet =
  Some (account_all (packet :: map snd rest)
          (default (new_flow (timestamp packet))
                   (connections_ t !! create_key packet))).
Proof.
  intros Hkey. cbn [update_all].
  rewrite (update_all_present rest _ _ _ Hkey (update_tracks clock packet t)).
  reflexivity.
Qed.

(** C6.  [update_tcp_state] is the transition table: UNKNOWN goes to
    SYN_SENT on SYN without ACK; SYN_SENT to SYN_RECEIVED on SYN with ACK;
    SYN_RECEIVED to ESTABLISHED on ACK; ESTABLISHED to FIN_WAIT on FIN and
    (FIN being looked at first) to CLOSED on RST; FIN_WAIT to CLOSED on FIN
    or RST; in every other case, and always in CLOSED, the state stays.
    [update] applies it: after [update] the flow of the packet is in the
    table, in the state that [update_tcp_state] gives from its state before
    (UNKNOWN for a flow that was not there) and the flags of the packet if
    the packet carries a TCP header, and in its state before otherwise;
    the flows of other keys that are there afterwards are as they were;
    and after a run of packets of one 5-tuple the flow is in the state
    that the table gives along the run.  In any run over packets as the
    parser makes them, started from a table whose non-TCP flows are in
    UNKNOWN (a fresh one, say), every flow whose key is not TCP is in
    UNKNOWN. *)
Theorem tcp_state_follows_table (fl : Z) (clock : Clock)
    (packet : ParsedPacket) (flow : FlowStats)
    (run evs : list (Clock * ParsedPacket)) (t : ConnectionTracker)
    (k : ConnectionKey) (f : FlowStats) :
  Forall (fun ev => create_key ev.2 = create_key packet) run ->
  Forall (fun ev => tcp_only_on_protocol_6 ev.2) evs ->
  non_tcp_unknown t ->
  connections_ (update_all evs t) !! k = Some f ->
  protocol k <> 6 ->
  let syn := has_flag fl TCP_SYN in
  let ack := has_flag fl TCP_ACK in
  let fin := has_flag fl TCP_FIN in
  let rst := has_flag fl TCP_RST in
  let before :=
    default UNKNOWN (state <$> connections_ t !! create_key packet) in
  update_tcp_state UNKNOWN fl = (if syn && negb ack then SYN_SENT else UNKNOWN)
  /\ update_tcp_state SYN_SENT fl = (if syn && ack then SYN_RECEIVED else SYN_SENT)
  /\ update_tcp_state SYN_RECEIVED fl = (if ack then ESTABLISHED else SYN_RECEIVED)
  /\ update_tcp_state ESTABLISHED fl =
       (if fin then FIN_WAIT else if rst then CLOSED else ESTABLISHED)
  /\ update_tcp_state FIN_WAIT fl = (if fin || rst then CLOSED else FIN_WAIT)
  /\ update_tcp_state CLOSED fl = CLOSED
  /\ state (account packet flow) =
       (if has_tcp packet
        then update_tcp_state (state flow) (flags (tcp_header packet))
        else state flow)
  /\ (exists flow',
        connections_ (update clock packet t) !! create_key packet = Some flow'
        /\ state flow' =
             (if has_tcp packet
              then update_tcp_state before (flags (tcp_header packet))
              else before))
  /\ (forall k' f', k' <> create_key packet ->
        connections_ (update clock packet t) !! k' = Some f' ->
        connections_ t !! k' = Some f')
  /\ (exists flow',
        connections_ (update_all ((clock, packet) :: run) t) !! create_key packet
          = Some flow'
        /\ state flow' = tcp_states (packet :: map snd run) before)
  /\ state f = UNKNOWN.
Proof.
  intros Hrun Hwf Ht Hk Hproto. cbv zeta.
  assert (Hbefore :
    state (default (new_flow (timestamp packet))
                   (connections_ t !! create_key packet))
    = default UNKNOWN (state <$> connections_ t !! create_key packet)).
  { destruct (connections_ t !! create_key packet); reflexivity. }
  repeat (split; [reflexivity|]).
  split; [|split; [|split]].
  - eexists. split; [apply update_tracks|].
    rewrite account_state, Hbefore. reflexivity.
  - intros k' f' Hne Hf'.
    apply update_lookup in Hf' as [[-> _]|[_ Hf']]; [congruence | exact Hf'].
  - eexists. split; [apply (update_all_tracks _ _ _ _ Hrun)|].
    rewrite account_all_state, Hbefore. reflexivity.
  - exact (update_all_non_tcp_unknown evs t Hwf Ht k f Hk Hproto).
Qed.

Lemma counted_new ts : counted 0 (new_flow ts).
Proof. split; reflexivity. Qed.

Lemma counted_account n packet f :
  0 <= n -> n + 1 < 2 ^ 64 -> counted n f -> counted (n + 1) (account packet f).
Proof.
  intros Hn Hb [C1 C2 C3 C4 C5 C6].
  split; cbn [account fwd_packets fwd_pkt_lengths fwd_iat bwd_packets
              bwd_pkt_lengths bwd_iat]; try assumption.
  - rewrite C1. apply u64_small. lia.
  - rewrite length_app. cbn [length]. lia.
  - rewrite C1, (u64_small (n + 1)) by lia.
    destruct (Z.ltb_spec 1 (n + 1)).
    + rewrite length_app. cbn [length]. lia.
    + lia.
Qed.

Lemma counted_account_all packets : forall n f,
  0 <= n -> n + Z.of_nat (length packets) < 2 ^ 64 ->
  counted n f -> counted (n + Z.of_nat (length packets)) (account_all packets f).
Proof.
  induction packets as [|p rest IH]; intros n f Hn Hb Hc.
  - cbn. now rewrite Z.add_0_r.
  - cbn [length] in *. rewrite Nat2Z.inj_succ in *.
    replace (n + Z.succ (Z.of_nat (length rest)))
      with ((n + 1) + Z.of_nat (length rest)) by lia.
    unfold account_all. cbn [fold_left]. apply IH; [lia | lia |].
    apply counted_account; [lia | lia | assumption].
Qed.

Lemma timed_account packet f : timed (account packet f).
Proof. reflexivity. Qed.

Lemma last_cons_default {A} (l : list A) : forall a d,
  List.last (a :: l) d = List.last l a.
Proof.
  induction l as [|b rest IH]; intros a d; [reflexivity|].
  change (List.last (a :: b :: rest) d) with (List.last (b :: rest) d).
  now rewrite !IH.
Qed.

Lemma account_all_timing packets : forall f,
  start_time (account_all packets f) = start_time f
  /\ last_seen (account_all packets f) = List.last (map timestamp packets) (last_seen f)
  /\ (packets <> [] -> timed (account_all packets f)).
Proof.
  induction packets as [|p rest IH]; intros f.
  - cbn. repeat split. congruence.
  - unfold account_all. cbn [fold_left]. fold (account_all rest (account p f)).
    destruct (IH (account p f)) as (I1 & I2 & I3).
    split; [exact I1|]. split.
    + rewrite I2. cbn [map]. now rewrite last_cons_default.
    + intros _. destruct rest as [|q rest'].
      * apply timed_account.
      * apply I3. discriminate.
Qed.

Lemma nondecreasing_last ts : forall a,
  nondecreasing (a :: ts) -> a <= List.last ts a.
Proof.
  induction ts as [|b rest IH]; intros a Hs.
  - cbn. lia.
  - destruct Hs as [Hab Hs]. specialize (IH b Hs).
    rewrite <- (last_cons_default rest b a) in IH.
    lia.
Qed.

(** C5 (as amended).  In a run over packets that share one 5-tuple, the
    first of which creates the flow, the flow afterwards has [fwd_packets]
    equal to the length of [fwd_pkt_lengths] (and to the number of
    packets), [fwd_iat] of length [max 0 (fwd_packets - 1)], the backward
    fields likewise (they stay empty), [start_time] the timestamp of the
    first packet, [last_seen] that of the last one, and [duration] the
    difference of the two in whole milliseconds, divided by 1000.0; when
    the timestamps never go back, [last_seen >= start_time]. *)
Theorem flow_invariants_of_one_tuple (clock : Clock) (packet : ParsedPacket)
    (rest : list (Clock * ParsedPacket)) (t : ConnectionTracker) :
  let key := create_key packet in
  let evs := (clock, packet) :: rest in
  Forall (fun ev => create_key ev.2 = key) rest ->
  connections_ t !! key = None ->
  Z.of_nat (length evs) < 2 ^ 64 ->
  exists f,
    connections_ (update_all evs t) !! key = Some f
    /\ fwd_packets f = Z.of_nat (length (fwd_pkt_lengths f))
    /\ Z.of_nat (length (fwd_iat f)) = Z.max 0 (fwd_packets f - 1)
    /\ bwd_packets f = Z.of_nat (length (bwd_pkt_lengths f))
    /\ Z.of_nat (length (bwd_iat f)) = Z.max 0 (bwd_packets f - 1)
    /\ fwd_packets f = Z.of_nat (length evs)
    /\ start_time f = timestamp packet
    /\ last_seen f = List.last (map (fun ev => timestamp ev.2) rest) (timestamp packet)
    /\ duration f = ms_to_sec (to_milliseconds (last_seen f - start_time f))
    /\ (nondecreasing (map (fun ev => timestamp ev.2) evs) ->
        start_time f <= last_seen f).
Proof.
  cbv zeta. intros Hkey Hk Hb.
  eexists. split; [apply update_all_absent; [reflexivity | exact Hkey | exact Hk]|].
  set (pkts := packet :: map snd rest).
  assert (Hlen : Z.of_nat (length pkts) = Z.of_nat (length ((clock, packet) :: rest)))
    by (unfold pkts; cbn [length]; now rewrite length_map).
  pose proof (counted_account_all pkts 0 (new_flow (timestamp packet))
                ltac:(lia) ltac:(lia) (counted_new _)) as [C1 C2 C3 C4 C5 C6].
  rewrite Z.add_0_l in *.
  destruct (account_all_timing pkts (new_flow (timestamp packet))) as (T1 & T2 & T3).
  cbn [new_flow start_time last_seen] in T1, T2.
  assert (Hts : map timestamp pkts = map (fun ev => timestamp ev.2) ((clock, packet) :: rest)).
  { unfold pkts. cbn [map snd]. f_equal. rewrite map_map. reflexivity. }
  assert (Hlast : last_seen (account_all pkts (new_flow (timestamp packet)))
                  = List.last (map (fun ev => timestamp ev.2) rest) (timestamp packet)).
  { rewrite T2, Hts. cbn [map snd]. apply last_cons_default. }
  repeat split.
  - lia.
  - rewrite C1. exact C3.
  - rewrite C4, C5. reflexivity.
  - rewrite C4, C6. reflexivity.
  - lia.
  - exact T1.
  - exact Hlast.
  - apply T3. discriminate.
  - intros Hs. rewrite T1, Hlast. now apply nondecreasing_last.
Qed.

(** C1 (the code departs from it).  A tracker with room for two
    connections is given four packets of four different 5-tuples, all
    stamped with the time the clock shows: each is inserted, and the table
    ends with four entries. *)
Theorem update_exceeds_max_connections :
  let t := update_all [flow_ev 1 now; flow_ev 2 now; flow_ev 3 now; flow_ev 4 now]
             (init 120 2) in
  max_connections_ t = 2
  /\ get_active_connections t = 4
  /\ expired_connections_ t = 0.
Proof. destruct H as [[|]]; vm_compute; auto. Qed.

(** Whatever [max_connections_] is, a packet of an unknown 5-tuple adds
    an entry when the expiry scan finds nothing to remove. *)
Lemma update_grows_full_table clock packet t :
  connections_ t !! create_key packet = None ->
  (forall k f, connections_ t !! k = Some f ->
               is_expired (timeout_seconds_ t) (clock k) f = false) ->
  size (connections_ (update clock packet t)) = S (size (connections_ t)).
Proof.
  intros Hk Hfresh. rewrite (update_absent _ _ _ Hk).
  assert (Hid : connections_ (cleanup_expired clock t) = connections_ t).
  { unfold cleanup_expired. cbn [connections_]. apply map_filter_id.
    intros k f Hf. now apply Hfresh. }
  destruct (_ <=? _); [rewrite Hid|]; now apply map_size_insert_None.
Qed.
End WithHost.

(** C7 (as stated) fails: with a timeout of 120 s, a UDP flow last seen
    120.5 s before the clock reading is older than the timeout and not
    [CLOSED], and [cleanup_expired] keeps it; half a second later it is
    removed. *)
Lemma entry_past_timeout_within_a_second_is_kept :
  let t := @update x86 (fun _ => now) (flow_ev 1 now).2 (init 120 100) in
  let k := @create_key x86 (flow_ev 1 now).2 in
  let later := now + 120 * second + second / 2 in
  exists f,
    connections_ t !! k = Some f
    /\ timeout_seconds_ t * second < later - last_seen f
    /\ state f <> CLOSED
    /\ connections_ (cleanup_expired (fun _ => later) t) !! k = Some f
    /\ connections_ (cleanup_expired (fun _ => later + second / 2) t) !! k = None.
Proof.
  cbv zeta. eexists.
  split; [vm_compute; reflexivity|].
  split; [vm_compute; reflexivity|].
  split; [discriminate|].
  split; vm_compute; reflexivity.
Qed.

(** C5 (as stated) fails: two packets of one 5-tuple, the second stamped
    five seconds before the first, leave the flow with [last_seen] before
    [start_time]. *)
Lemma last_seen_can_precede_start_time :
  exists f,
    connections_ (@update_all x86 [flow_ev 1 (10 * second); flow_ev 1 (5 * second)]
                    (init 120 100))
      !! @create_key x86 (flow_ev 1 0).2 = Some f
    /\ last_seen f < start_time f.
Proof. eexists. split; [vm_compute; reflexivity | vm_compute; reflexivity]. Qed.

Lemma flow_invariants_of_one_tuple_witness :
  exists f,
    connections_ (@update_all x86 [flow_ev 1 (10 * second); flow_ev 1 (11 * second)]
                    (init 120 100))
      !! @create_key x86 (flow_ev 1 (10 * second)).2 = Some f
    /\ fwd_packets f = 2
    /\ start_time f <= last_seen f.
Proof.
  destruct (@flow_invariants_of_one_tuple x86 (fun _ => now)
              (flow_ev 1 (10 * second)).2 [flow_ev 1 (11 * second)]
              (init 120 100))
    as (f & Hf & _ & _ & _ & _ & Hn & _ & _ & _ & Hle).
  - repeat constructor.
  - reflexivity.
  - cbn. lia.
  - exists f. split; [exact Hf|]. split; [exact Hn|].
    apply Hle. cbn. vm_compute. split; [discriminate | exact I].
Defined.

(** The handshake of one connection, seen through [update]: SYN, SYN with
    ACK, ACK; and a UDP flow next to a TCP one. *)
Lemma tcp_state_follows_table_witness :
  update_tcp_state ESTABLISHED (Z.lor TCP_FIN TCP_RST) = FIN_WAIT
  /\ state <$> connections_ (@update x86 (fun _ => now) (tcp_ev 0x02 now).2
                              (init 120 100))
                 !! @create_key x86 (tcp_ev 0x02 now).2 = Some SYN_SENT
  /\ state <$> connections_
                 (@update_all x86 [tcp_ev 0x02 now; tcp_ev 0x12 now; tcp_ev 0x10 now]
                    (init 120 100))
                 !! @create_key x86 (tcp_ev 0x02 now).2 = Some ESTABLISHED
  /\ state <$> connections_ (@update_all x86 w_evs (init 120 100))
                 !! @create_key x86 (flow_ev 1 now).2 = Some UNKNOWN.
Proof.
  destruct (connections_ (@update_all x86 w_evs (init 120 100))
              !! @create_key x86 (flow_ev 1 now).2) as [f|] eqn:Hk;
    [|vm_compute in Hk; discriminate].
  destruct (@tcp_state_follows_table x86 (Z.lor TCP_FIN TCP_RST)
              (fun _ => now) (tcp_ev 0x02 now).2 (new_flow now)
              [tcp_ev 0x12 now; tcp_ev 0x10 now] w_evs (init 120 100)
              (@create_key x86 (flow_ev 1 now).2) f)
    as (_ & _ & _ & E & _ & _ & _ & (f1 & Hf1 & Hs1) & _ & (f3 & Hf3 & Hs3) & Hs).
  - repeat constructor.
  - repeat constructor; intros Htcp; vm_compute in Htcp |- *; congruence.
  - apply non_tcp_unknown_init.
  - exact Hk.
  - vm_compute. discriminate.
  - split; [exact E|]. split; [|split].
    + rewrite Hf1. cbn [fmap option_fmap option_map]. f_equal.
      rewrite Hs1. reflexivity.
    + transitivity (state <$> Some f3);
        [exact (f_equal (fmap state) Hf3)|].
      cbn [fmap option_fmap option_map]. f_equal.
      rewrite Hs3. reflexivity.
    + cbn. f_equal. exact Hs.
Defined.
End TrackerProofs.

(** ** The feature extractor *)

Module ExtractorProofs.
Import Extractor.

(** C9.  The bulk features: when [fwd_packets >= 4] and [duration > 0],
    [fwd_bulk_rate_avg] is [fwd_bytes / duration], [fwd_bulk_size_avg] is
    [avg_fwd_segment_size] and [fwd_bulk_packets_avg] is
    [fwd_packets / 4.0]; otherwise the three are 0.  The backward features
    are the same function of [bwd_packets] and [bwd_bytes]. *)
Theorem bulk_features (flow : FlowStats) :
  let f := extract flow in
  (if (4 <=? fwd_packets flow) && fgt0 (duration flow)
   then fwd_bulk_rate_avg f = fdiv (d (fwd_bytes flow)) (duration flow)
        /\ fwd_bulk_size_avg f = avg_fwd_segment_size f
        /\ fwd_bulk_packets_avg f = fdiv (d (fwd_packets flow)) 4%float
   else fwd_bulk_rate_avg f = fzero
        /\ fwd_bulk_size_avg f = fzero
        /\ fwd_bulk_packets_avg f = fzero)
  /\ (if (4 <=? bwd_packets flow) && fgt0 (duration flow)
      then bwd_bulk_rate_avg f = fdiv (d (bwd_bytes flow)) (duration flow)
           /\ bwd_bulk_size_avg f = avg_bwd_segment_size f
           /\ bwd_bulk_packets_avg f = fdiv (d (bwd_packets flow)) 4%float
      else bwd_bulk_rate_avg f = fzero
           /\ bwd_bulk_size_avg f = fzero
           /\ bwd_bulk_packets_avg f = fzero).
Proof.
  cbv zeta. unfold extract.
  destruct ((4 <=? fwd_packets flow) && fgt0 (duration flow));
    destruct ((4 <=? bwd_packets flow) && fgt0 (duration flow));
    repeat split.
Qed.

(** The segment size that the bulk size copies. *)
Lemma avg_fwd_segment_size_extract flow :
  avg_fwd_segment_size (extract flow) =
  if 0 <? fwd_packets flow
  then fdiv (d (fwd_bytes flow)) (d (fwd_packets flow)) else fzero.
Proof.
  unfold extract.
  destruct ((4 <=? fwd_packets flow) && fgt0 (duration flow));
    destruct ((4 <=? bwd_packets flow) && fgt0 (duration flow)); reflexivity.
Qed.

(** Eight forward packets of 1200 bytes in all over two seconds, three
    backward packets. *)
Example bulk_features_example :
  let f := extract (mkFlowStats 2%float 8 3 1200 90) in
  fwd_bulk_rate_avg f = 600%float
  /\ fwd_bulk_size_avg f = 150%float
  /\ fwd_bulk_packets_avg f = 2%float
  /\ bwd_bulk_rate_avg f = 0%float
  /\ bwd_bulk_size_avg f = 0%float
  /\ bwd_bulk_packets_avg f = 0%float.
Proof. vm_compute. repeat split. Qed.

(** A flow whose duration is not a number has no bulk features. *)
Example bulk_features_nan :
  fwd_bulk_rate_avg (extract (mkFlowStats PrimFloat.nan 8 8 1200 1200)) = 0%float.
Proof. reflexivity. Qed.

End ExtractorProofs.

(** ** The rule engine *)

Module RulesProofs.
Import Types Rules Vectors.

Section WithEnv.
Context `{RegexLib} `{Host}.

(** *** The loop of [evaluate] *)

Lemma eval_rules_spec packet rules : forall acc e,
  0 <= next_alert_id_ e ->
  next_alert_id_ e + Z.of_nat (length rules) < 2 ^ 64 ->
  let new := alerts_from packet rules (next_alert_id_ e) in
  (eval_rules packet rules acc e).1 = acc ++ new
  /\ next_alert_id_ (eval_rules packet rules acc e).2
     = next_alert_id_ e + Z.of_nat (length new)
  /\ rules_ (eval_rules packet rules acc e).2 = rules_ e
  /\ packets_evaluated_ (eval_rules packet rules acc e).2 = packets_evaluated_ e
  /\ alerts_generated_ (eval_rules packet rules acc e).2 = alerts_generated_ e
  /\ regex_cache_ (eval_rules packet rules acc e).2 = regex_cache_ e.
Proof.
  induction rules as [|rule rest IH]; intros acc e Hn Hb; cbv zeta.
  - cbn. rewrite app_nil_r, Z.add_0_r. repeat split.
  - cbn [length] in Hb. rewrite Nat2Z.inj_succ in Hb.
    cbn [eval_rules alerts_from].
    destruct (check_rule packet rule) as [mc|].
    + unfold create_alert, count_match.
      cbn [next_alert_id_ regex_cache_ rules_ packets_evaluated_
           alerts_generated_ rule_matches_].
      rewrite (u64_small (next_alert_id_ e + 1)) by lia.
      match goal with
      | |- context [eval_rules packet rest ?a ?e'] =>
          destruct (IH a e') as (I1 & I2 & I3 & I4 & I5 & I6);
            cbn [next_alert_id_ regex_cache_ rules_ packets_evaluated_
                 alerts_generated_ rule_matches_] in *; try lia
      end.
      rewrite I1, I2. cbn [length]. rewrite <- app_assoc. cbn [app].
      repeat split; try assumption. lia.
    + destruct (IH acc e) as (I1 & I2 & I3 & I4 & I5 & I6); try lia.
      repeat split; assumption.
Qed.

Lemma alerts_from_length packet rules id :
  (length (alerts_from packet rules id) <= length rules)%nat.
Proof.
  revert id. induction rules as [|rule rest IH]; intros id; cbn; [lia|].
  destruct (check_rule packet rule); cbn; [specialize (IH (id + 1))|specialize (IH id)]; lia.
Qed.

(** The [i]-th alert has the [i]-th number from [id] on. *)
Lemma alerts_from_ids packet rules : forall id (i : nat) a,
  alerts_from packet rules id !! i = Some a ->
  Alert.alert_id a = id + Z.of_nat i.
Proof.
  induction rules as [|rule rest IH]; intros id i a Hi; [destruct i; discriminate|].
  cbn [alerts_from] in Hi. destruct (check_rule packet rule).
  - destruct i as [|i]; cbn in Hi.
    + inversion Hi; subst. cbn. lia.
    + apply IH in Hi. lia.
  - now apply IH.
Qed.

(** The alerts are those of the rules that fire, in the order of the rule
    list. *)
Lemma alerts_from_order packet rules : forall id,
  map alert_rule (alerts_from packet rules id) =
  map rule_summary (List.filter (rule_fires packet) rules).
Proof.
  induction rules as [|rule rest IH]; intros id; [reflexivity|].
  cbn [alerts_from List.filter]. unfold rule_fires at 1.
  destruct (check_rule packet rule); cbn [map]; [f_equal|]; apply IH.
Qed.

(** A rule that is not enabled raises nothing: the alerts are those of the
    list without it. *)
Lemma check_rule_disabled packet rule :
  enabled rule = false -> check_rule packet rule = None.
Proof. intros Hd. unfold check_rule. now rewrite Hd. Qed.

Lemma alerts_from_app packet l1 : forall l2 id,
  alerts_from packet (l1 ++ l2) id =
  alerts_from packet l1 id
  ++ alerts_from packet l2 (id + Z.of_nat (length (alerts_from packet l1 id))).
Proof.
  induction l1 as [|rule rest IH]; intros l2 id.
  - cbn. now rewrite Z.add_0_r.
  - cbn [app alerts_from]. destruct (check_rule packet rule).
    + cbn [app length]. rewrite IH. do 3 f_equal. lia.
    + apply IH.
Qed.

Lemma alerts_from_disabled packet l1 rule l2 id :
  enabled rule = false ->
  alerts_from packet (l1 ++ rule :: l2) id = alerts_from packet (l1 ++ l2) id.
Proof.
  intros Hd. rewrite !alerts_from_app. f_equal.
  cbn [alerts_from]. now rewrite (check_rule_disabled _ _ Hd).
Qed.

(** *** [evaluate] *)

Lemma evaluate_spec packet e :
  0 <= next_alert_id_ e ->
  next_alert_id_ e + Z.of_nat (length (rules_ e)) < 2 ^ 64 ->
  (evaluate packet e).1 = alerts_from packet (rules_ e) (next_alert_id_ e)
  /\ next_alert_id_ (evaluate packet e).2
     = next_alert_id_ e + Z.of_nat (length (evaluate packet e).1)
  /\ rules_ (evaluate packet e).2 = rules_ e.
Proof.
  intros Hn Hb. unfold evaluate.
  match goal with
  | |- context [eval_rules packet ?rs ?a ?e'] =>
      destruct (eval_rules_spec packet rs a e') as (I1 & I2 & I3 & _);
        [exact Hn | exact Hb |];
        destruct (eval_rules packet rs a e') as [alerts e1]
  end.
  cbn [fst snd next_alert_id_ rules_ app] in *. subst alerts.
  repeat split; assumption.
Qed.


(** *** A run of [evaluate] *)

Lemma evaluate_all_spec packets : forall e,
  0 <= next_alert_id_ e ->
  next_alert_id_ e + Z.of_nat (length packets) * Z.of_nat (length (rules_ e))
    < 2 ^ 64 ->
  (forall (i : nat) a, (evaluate_all packets e).1 !! i = Some a ->
                       Alert.alert_id a = next_alert_id_ e + Z.of_nat i)
  /\ next_alert_id_ (evaluate_all packets e).2
     = next_alert_id_ e + Z.of_nat (length (evaluate_all packets e).1)
  /\ Z.of_nat (length (evaluate_all packets e).1)
     <= Z.of_nat (length packets) * Z.of_nat (length (rules_ e)).
Proof.
  induction packets as [|packet rest IH]; intros e Hn Hb.
  - cbn. repeat split; try lia. intros i a Hi. destruct i; discriminate.
  - cbn [length] in Hb. rewrite Nat2Z.inj_succ in Hb.
    cbn [evaluate_all].
    destruct (evaluate_spec packet e Hn) as (E1 & E2 & E3); [nia|].
    pose proof (alerts_from_length packet (rules_ e) (next_alert_id_ e)) as Hl.
    rewrite <- E1 in Hl.
    pose proof (fun i a => alerts_from_ids packet (rules_ e) (next_alert_id_ e) i a)
      as Hids.
    rewrite <- E1 in Hids.
    destruct (evaluate packet e) as [alerts e1]. cbn [fst snd] in *.
    destruct (IH e1) as (I1 & I2 & I3); [lia | rewrite E3; nia |].
    rewrite E3 in I3.
    destruct (evaluate_all rest e1) as [more e2]. cbn [fst snd] in *.
    rewrite length_app, Nat2Z.inj_add. cbn [length]. rewrite Nat2Z.inj_succ.
    repeat split; try lia.
    intros i a Hi. apply lookup_app_Some in Hi as [Hi|[Hge Hi]].
    + now apply Hids.
    + apply I1 in Hi. lia.
Qed.

(** [check_rule] never looks at [regex_patterns]. *)
Lemma check_rule_ignores_regex packet rule ps :
  check_rule packet (set_regex_patterns rule ps) = check_rule packet rule.
Proof. reflexivity. Qed.





(** C8.  In a run of [evaluate] whose alert numbers fit [uint64_t], every
    alert has an [alert_id] above that of every earlier alert of the run;
    a rule with [enabled == false] raises nothing, so the alerts for a
    packet are those of the rule list without that rule; and the alerts for
    one packet are those of the rules that fire, which are all enabled, in
    the order of the rule list. *)
Theorem alerts_numbered_ordered_and_suppressed
    (packets : list ParsedPacket) (packet : ParsedPacket) (e : RuleEngine)
    (l1 l2 : list SignatureRule) (rule : SignatureRule) :
  rules_ e = l1 ++ rule :: l2 ->
  0 <= next_alert_id_ e ->
  next_alert_id_ e
    + (Z.of_nat (length packets) + 1) * Z.of_nat (length (rules_ e)) < 2 ^ 64 ->
  (forall (i j : nat) a b, (i < j)%nat ->
     (evaluate_all packets e).1 !! i = Some a ->
     (evaluate_all packets e).1 !! j = Some b ->
     Alert.alert_id a < Alert.alert_id b)
  /\ (evaluate packet (with_rules (l1 ++ set_enabled rule false :: l2) e)).1
     = (evaluate packet (with_rules (l1 ++ l2) e)).1
  /\ map alert_rule (evaluate packet e).1
     = map rule_summary (List.filter (rule_fires packet) (rules_ e))
  /\ Forall (fun r => enabled r = true) (List.filter (rule_fires packet) (rules_ e)).
Proof.
  intros Hrules Hn Hb.
  assert (Hlen : Z.of_nat (length (rules_ e))
                 = Z.of_nat (length l1) + Z.of_nat (length l2) + 1).
  { rewrite Hrules, length_app. cbn [length]. lia. }
  split; [|split; [|split]].
  - destruct (evaluate_all_spec packets e Hn) as (Hids & _); [nia|].
    intros i j a b Hij Hi Hj. apply Hids in Hi. apply Hids in Hj. lia.
  - destruct (evaluate_spec packet (with_rules (l1 ++ set_enabled rule false :: l2) e))
      as (E1 & _); cbn [with_rules next_alert_id_ rules_]; [exact Hn | |].
    { rewrite length_app. cbn [length]. nia. }
    destruct (evaluate_spec packet (with_rules (l1 ++ l2) e))
      as (E2 & _); cbn [with_rules next_alert_id_ rules_]; [exact Hn | |].
    { rewrite length_app. nia. }
    rewrite E1, E2. cbn [with_rules next_alert_id_ rules_].
    now apply alerts_from_disabled.
  - destruct (evaluate_spec packet e Hn) as (E1 & _); [nia|].
    rewrite E1. apply alerts_from_order.
  - apply List.Forall_forall. intros r Hr. apply List.filter_In in Hr as [_ Hf].
    unfold rule_fires in Hf.
    destruct (enabled r) eqn:Hen; [reflexivity|].
    now rewrite (check_rule_disabled packet r Hen) in Hf.
Qed.

(** C2 (the code departs from it).  An engine whose only rule has a
    regular expression and nothing else to check raises the rule's alert
    for a packet with payload "abc", whatever the regular-expression
    library is: [evaluate] never calls [match_regex], which for these
    patterns and this payload answers [false] (here with literal patterns). *)
Theorem evaluate_never_consults_regex :
  let e := add_rule regex_rule init in
  let packet := packet_of (udp_frame 1 abc) now in
  regex_patterns regex_rule = ["^GET /admin"]
  /\ option_map (fun p => payload_str p (payload_length packet)) (payload packet)
     = Some "abc"
  /\ (@match_regex literal_regex (payload packet) (payload_length packet)
        (regex_patterns regex_rule) ∅).1 = false
  /\ map alert_rule (evaluate packet e).1 = [rule_summary regex_rule].
Proof.
  cbv zeta. split; [reflexivity|]. split; [reflexivity|].
  split; [reflexivity|]. reflexivity.
Qed.

End WithEnv.

(** The engine with the rules of [load_rules] on a big-endian host, where a
    SYN to port 22 is seen as one: the rules 1001 and 1003 fire, in that
    order; with rule 1001 switched off only 1003 is left; and the four
    alerts of two such packets are numbered 1 to 4. *)
Lemma alerts_numbered_ordered_and_suppressed_witness :
  let e := @load_rules literal_regex (fun _ => (0, 0)) (@init literal_regex) in
  let syn := packet_of (tcp_frame 2) now in
  let ssh := hd any_rule (default_rules (fun _ => (0, 0))) in
  let rest := tl (default_rules (fun _ => (0, 0))) in
  map Alert.rule_id (@evaluate literal_regex big_endian_host syn e).1
    = [1001; 1003]
  /\ map Alert.rule_id
       (@evaluate literal_regex big_endian_host syn
          (with_rules (set_enabled ssh false :: rest) e)).1
     = [1003]
  /\ map Alert.alert_id
       (@evaluate_all literal_regex big_endian_host [syn; syn] e).1
     = [1; 2; 3; 4]
  /\ exists a b,
       (@evaluate_all literal_regex big_endian_host [syn; syn] e).1 !! 0%nat
         = Some a
       /\ (@evaluate_all literal_regex big_endian_host [syn; syn] e).1 !! 3%nat
            = Some b
       /\ Alert.rule_id a = 1001 /\ Alert.rule_id b = 1003
       /\ Alert.alert_id a < Alert.alert_id b.
Proof.
  cbv zeta.
  destruct (@alerts_numbered_ordered_and_suppressed literal_regex big_endian_host
       [packet_of (tcp_frame 2) now; packet_of (tcp_frame 2) now]
       (packet_of (tcp_frame 2) now)
       (@load_rules literal_regex (fun _ => (0, 0)) (@init literal_regex))
       [] (tl (default_rules (fun _ => (0, 0))))
       (hd any_rule (default_rules (fun _ => (0, 0)))))
    as (Hids & Hoff & Hord & _).
  - reflexivity.
  - cbn. lia.
  - cbn. lia.
  - split; [|split; [|split]].
    + apply (f_equal (map (fun x : Z * string * Severity * string => x.1.1.1)))
        in Hord.
      rewrite !map_map in Hord.
      etransitivity; [exact Hord|]. vm_compute. reflexivity.
    + etransitivity; [exact (f_equal (map Alert.rule_id) Hoff)|].
      vm_compute. reflexivity.
    + vm_compute. reflexivity.
    + destruct ((@evaluate_all literal_regex big_endian_host
                   [packet_of (tcp_frame 2) now; packet_of (tcp_frame 2) now]
                   (@load_rules literal_regex (fun _ => (0, 0))
                      (@init literal_regex))).1 !! 0%nat)
        as [a|] eqn:Ha; [|vm_compute in Ha; discriminate].
      destruct ((@evaluate_all literal_regex big_endian_host
                   [packet_of (tcp_frame 2) now; packet_of (tcp_frame 2) now]
                   (@load_rules literal_regex (fun _ => (0, 0))
                      (@init literal_regex))).1 !! 3%nat)
        as [b|] eqn:Hb; [|vm_compute in Hb; discriminate].
      exists a, b. split; [reflexivity|]. split; [reflexivity|].
      split; [|split].
      * vm_compute in Ha. injection Ha as <-. reflexivity.
      * vm_compute in Hb. injection Hb as <-. reflexivity.
      * apply (Hids 0%nat 3%nat a b); [lia | exact Ha | exact Hb].
Defined.
End RulesProofs.

(** ** The signature pipeline *)

Module SidsProofs.
Import Types Vectors.
Import Parser Rules Sids.

Section WithEnv.
Context `{RegexLib} `{Host}.


End WithEnv.


End SidsProofs.

(** ** Wire format round trips *)

Module WireProofs.
Import Types Parser ParserProofs Wire.

Lemma lor_shiftl_add hi lo n :
  0 <= n -> 0 <= lo < 2 ^ n -> Z.lor (Z.shiftl hi n) lo = hi * 2 ^ n + lo.
Proof.
  intros Hn Hlo.
  assert (Hland : Z.land (Z.shiftl hi n) lo = 0).
  { apply Z.bits_inj'. intros k Hk. rewrite Z.land_spec, Z.bits_0.
    destruct (Z.lt_ge_cases k n) as [Hlt|Hge].
    - rewrite Z.shiftl_spec_low by assumption. reflexivity.
    - destruct (Z.eq_dec lo 0) as [->|Hne];
        [rewrite Z.bits_0; apply andb_false_r|].
      rewrite (Z.bits_above_log2 lo k); [apply andb_false_r | lia |].
      apply Z.log2_lt_pow2; [lia|].
      apply Z.lt_le_trans with (2 ^ n); [lia|].
      apply Z.pow_le_mono_r; lia. }
  rewrite <- Z.lxor_lor by assumption.
  rewrite <- Z.add_nocarry_lxor by assumption.
  now rewrite Z.shiftl_mul_pow2.
Qed.

Lemma land_ones_small x n : 0 <= n -> 0 <= x < 2 ^ n -> Z.land x (Z.ones n) = x.
Proof. intros Hn Hx. rewrite Z.land_ones by assumption. now apply Z.mod_small. Qed.

Lemma u8_shiftr_land x hi lo :
  0 <= lo -> 0 <= x < 2 ^ (lo + hi) -> 0 <= hi <= 8 ->
  u8 (Z.land (Z.shiftr x lo) (Z.ones hi)) = (x / 2 ^ lo) mod 2 ^ hi.
Proof.
  intros Hlo Hx Hhi. rewrite Z.shiftr_div_pow2, Z.land_ones by lia.
  apply u8_small.
  pose proof (Z.mod_pos_bound (x / 2 ^ lo) (2 ^ hi) ltac:(lia)).
  assert (2 ^ hi <= 2 ^ 8) by (apply Z.pow_le_mono_r; lia). lia.
Qed.

Lemma join16 x :
  0 <= x < 2 ^ 16 ->
  Z.lor (Z.shiftl (u8 (Z.shiftr x 8)) 8) (u8 (Z.land x 0xFF)) = x.
Proof.
  intros Hx.
  assert (E1 : u8 (Z.shiftr x 8) = x / 256).
  { rewrite Z.shiftr_div_pow2 by lia. apply u8_small.
    change (2 ^ 8) with 256. Z.div_mod_to_equations. lia. }
  assert (E2 : u8 (Z.land x 0xFF) = x mod 256).
  { change 0xFF with (Z.ones 8). rewrite Z.land_ones by lia. apply u8_small.
    change (2 ^ 8) with 256. Z.div_mod_to_equations. lia. }
  rewrite E1, E2. rewrite lor_shiftl_add; change (2 ^ 8) with 256;
    Z.div_mod_to_equations; lia.
Qed.

Lemma join32 x :
  0 <= x < 2 ^ 32 ->
  u32 (Z.lor (Z.lor (Z.lor (Z.shiftl (u8 (Z.shiftr x 24)) 24)
                           (Z.shiftl (u8 (Z.land (Z.shiftr x 16) 0xFF)) 16))
                    (Z.shiftl (u8 (Z.land (Z.shiftr x 8) 0xFF)) 8))
             (u8 (Z.land x 0xFF))) = x.
Proof.
  intros Hx.
  assert (E0 : u8 (Z.shiftr x 24) = x / 16777216).
  { rewrite Z.shiftr_div_pow2 by lia. apply u8_small.
    change (2 ^ 24) with 16777216. change (2 ^ 8) with 256.
    Z.div_mod_to_equations. lia. }
  assert (E1 : u8 (Z.land (Z.shiftr x 16) 0xFF) = (x / 65536) mod 256).
  { change 0xFF with (Z.ones 8). rewrite Z.shiftr_div_pow2, Z.land_ones by lia.
    apply u8_small. change (2 ^ 16) with 65536. change (2 ^ 8) with 256.
    Z.div_mod_to_equations. lia. }
  assert (E2 : u8 (Z.land (Z.shiftr x 8) 0xFF) = (x / 256) mod 256).
  { change 0xFF with (Z.ones 8). rewrite Z.shiftr_div_pow2, Z.land_ones by lia.
    apply u8_small. change (2 ^ 8) with 256.
    Z.div_mod_to_equations. lia. }
  assert (E3 : u8 (Z.land x 0xFF) = x mod 256).
  { change 0xFF with (Z.ones 8). rewrite Z.land_ones by lia. apply u8_small.
    change (2 ^ 8) with 256. Z.div_mod_to_equations. lia. }
  rewrite E0, E1, E2, E3.
  change 24 with (8 + 16) at 1.
  rewrite <- (Z.shiftl_shiftl _ 8 16) by lia.
  rewrite <- Z.shiftl_lor.
  rewrite (lor_shiftl_add (x / 16777216) _ 8)
    by (change (2 ^ 8) with 256; Z.div_mod_to_equations; lia).
  change 16 with (8 + 8) at 1.
  rewrite <- (Z.shiftl_shiftl _ 8 8) by lia.
  rewrite <- Z.shiftl_lor.
  rewrite (lor_shiftl_add _ ((x / 256) mod 256) 8)
    by (change (2 ^ 8) with 256; Z.div_mod_to_equations; lia).
  rewrite lor_shiftl_add
    by (change (2 ^ 8) with 256; Z.div_mod_to_equations; lia).
  change (2 ^ 8) with 256 in *. change (2 ^ 32) with 4294967296 in *.
  rewrite u32_small; change (2 ^ 32) with 4294967296;
    Z.div_mod_to_equations; lia.
Qed.

Lemma word_of_be32 x :
  0 <= x < 2 ^ 32 -> word_of_bytes (map u8 (be32 x)) = x.
Proof.
  intros Hx. unfold be32, word_of_bytes. cbn [map fold_left].
  change 0xFF with (Z.ones 8).
  rewrite !Z.land_ones, !Z.shiftr_div_pow2 by lia.
  change (2 ^ 24) with 16777216. change (2 ^ 16) with 65536.
  change (2 ^ 8) with 256. change (2 ^ 32) with 4294967296 in Hx.
  rewrite !u8_small by (change (2 ^ 8) with 256; Z.div_mod_to_equations; lia).
  Z.div_mod_to_equations. lia.
Qed.


(** A read through a pointer that stands right after [pre]. *)
Lemma load_at pre rest bm (p : Ptr) i x :
  buf p = mkBuffer (pre ++ rest) bm ->
  off p = Z.of_nat (length pre) ->
  0 <= i ->
  nth_error rest (Z.to_nat i) = Some x ->
  byte_at (buf p) (off p + i) = u8 x.
Proof.
  intros Hbuf Hoff Hi Hx. rewrite Hbuf, Hoff. unfold byte_at, buf_len. cbn [bytes].
  assert (Hlt : (Z.to_nat i < length rest)%nat)
    by (apply nth_error_Some; congruence).
  rewrite length_app.
  destruct (Z.leb_spec 0 (Z.of_nat (length pre) + i)); [|lia].
  destruct (Z.ltb_spec (Z.of_nat (length pre) + i)
              (Z.of_nat (length pre + length rest))); [|lia].
  cbn [andb]. f_equal.
  replace (Z.to_nat (Z.of_nat (length pre) + i))
    with (length pre + Z.to_nat i)%nat by lia.
  rewrite app_nth2_plus. now apply nth_error_nth.
Qed.

Ltac loads Hbuf Hoff :=
  repeat (erewrite (load_at _ _ _ _ _ _ Hbuf Hoff) by (lia || reflexivity)).

Lemma u8_byte b : Wire.is_byte b -> u8 b = b.
Proof. intros Hb. apply u8_small. exact Hb. Qed.

Lemma map_u8_bytes l : Forall Wire.is_byte l -> map u8 l = l.
Proof.
  induction 1 as [|b l Hb _ IH]; [reflexivity|].
  cbn [map]. now rewrite IH, u8_byte.
Qed.

Lemma parse_ethernet_encode pre eh rest bm (p : Ptr) len pkt tr :
  buf p = mkBuffer (pre ++ encode_eth eh ++ rest) bm ->
  off p = Z.of_nat (length pre) ->
  ETHER_HDR_SIZE <= len ->
  wf_eth eh ->
  (parse_ethernet p len pkt tr).1 = (true, set_eth pkt eh).
Proof.
  intros Hbuf Hoff Hlen [[Ld Bd] [Ls Bs] Ht].
  destruct eh as [dm sm et]. cbn [dst_mac src_mac ethertype] in *. subst et.
  do 7 (destruct dm as [|? dm]; try discriminate).
  do 7 (destruct sm as [|? sm]; try discriminate).
  unfold parse_ethernet.
  destruct (Z.ltb_spec len ETHER_HDR_SIZE); [lia|].
  unfold encode_eth in Hbuf. cbn [dst_mac src_mac ethertype] in Hbuf.
  rd_unfold. cbn [fst].
  loads Hbuf Hoff.
  rewrite join16 by lia.
  pose proof (map_u8_bytes _ Bd) as Ed. pose proof (map_u8_bytes _ Bs) as Es.
  cbn [map] in Ed, Es. rewrite Ed, Es. reflexivity.
Qed.

Lemma parse_ipv4_encode pre ih ip_options rest bm (p : Ptr) len pkt tr :
  buf p = mkBuffer (pre ++ encode_ipv4 ih ++ rest) bm ->
  off p = Z.of_nat (length pre) ->
  20 <= len ->
  wf_ipv4 ih ip_options ->
  (parse_ipv4 p len pkt tr).1 = (true, set_ip pkt ih).
Proof.
  intros Hbuf Hoff Hlen
    [Wb Wv Wi Wo Wtos Wlen Wid Wfrag Wttl Wproto Wsum Wsrc Wdst].
  destruct ih as [vi ts tl idn ff tt pr ck sip dip]. cbn in *.
  unfold parse_ipv4. destruct (Z.ltb_spec len 20); [lia|].
  unfold encode_ipv4 in Hbuf. cbn in Hbuf.
  rd_unfold. loads Hbuf Hoff.
  rewrite (u8_byte vi), (u8_byte ts), (u8_byte tt), (u8_byte pr) by assumption.
  rewrite Wv. change (4 =? 4) with true. cbn [negb fst].
  rewrite !join16 by assumption.
  pose proof (word_of_be32 sip Wsrc) as Es. pose proof (word_of_be32 dip Wdst) as Ed.
  unfold be32 in Es, Ed. cbn [map] in Es, Ed. rewrite Es, Ed. reflexivity.
Qed.

Lemma doff_byte d : 0 <= d <= 15 -> Z.land (Z.shiftr (u8 (d * 16)) 4) 15 = d.
Proof.
  intros Hd. rewrite u8_small by (change (2 ^ 8) with 256; lia).
  rewrite Z.shiftr_div_pow2 by lia. change (2 ^ 4) with 16.
  rewrite Z.div_mul by lia.
  change 15 with (Z.ones 4). apply land_ones_small; [lia|].
  change (2 ^ 4) with 16. lia.
Qed.

Lemma flags_byte f : 0 <= f < 64 -> Z.land (u8 f) 63 = f.
Proof.
  intros Hf. rewrite u8_small by (change (2 ^ 8) with 256; lia).
  change 63 with (Z.ones 6). apply land_ones_small; [lia|].
  change (2 ^ 6) with 64. lia.
Qed.

Lemma parse_tcp_encode pre th tcp_options payload bm (p : Ptr) len pkt tr :
  buf p = mkBuffer (pre ++ encode_tcp th ++ tcp_options ++ payload) bm ->
  off p = Z.of_nat (length pre) ->
  len = 20 + Z.of_nat (length tcp_options) + Z.of_nat (length payload) ->
  len < 2 ^ 32 ->
  wf_tcp th tcp_options ->
  (parse_tcp p len pkt tr).1 =
  (true, set_tcp pkt th
           (if Z.of_nat (length payload) =? 0 then None
            else Some (ptr_add p (data_offset th * 4)))
           (Z.of_nat (length payload))).
Proof.
  intros Hbuf Hoff Hlen Hbound
    [Wsp Wdp Wseq Wack Wdoff Wopt Wfl Wwin Wsum Wurg].
  destruct th as [sp dp sq ak doff fl ws ck up]. cbn in *.
  unfold parse_tcp. destruct (Z.ltb_spec len 20); [lia|].
  unfold encode_tcp in Hbuf. cbn in Hbuf.
  rd_unfold. loads Hbuf Hoff.
  rewrite !join16, !join32 by assumption.
  rewrite doff_byte, flags_byte by lia.
  rewrite (u32_small (doff * 4)) by lia.
  destruct (Z.ltb_spec (doff * 4) len);
    destruct (Z.eqb_spec (Z.of_nat (length payload)) 0); try lia; cbn [fst].
  - rewrite u32_small by lia. do 3 f_equal. lia.
  - replace (Z.of_nat (length payload)) with 0 by lia. reflexivity.
Qed.

Lemma parse_udp_encode pre uh payload bm (p : Ptr) len pkt tr :
  buf p = mkBuffer (pre ++ encode_udp uh ++ payload) bm ->
  off p = Z.of_nat (length pre) ->
  len = 8 + Z.of_nat (length payload) ->
  len < 2 ^ 32 ->
  wf_udp uh ->
  (parse_udp p len pkt tr).1 =
  (true, set_udp pkt uh
           (if Z.of_nat (length payload) =? 0 then None
            else Some (ptr_add p 8))
           (Z.of_nat (length payload))).
Proof.
  intros Hbuf Hoff Hlen Hbound [Wsp Wdp Wlen Wsum].
  destruct uh as [sp dp ln ck]. cbn in *.
  unfold parse_udp. destruct (Z.ltb_spec len 8); [lia|].
  unfold encode_udp in Hbuf. cbn in Hbuf.
  rd_unfold. loads Hbuf Hoff.
  rewrite !join16 by assumption.
  destruct (Z.ltb_spec 8 len);
    destruct (Z.eqb_spec (Z.of_nat (length payload)) 0); try lia; cbn [fst].
  - rewrite u32_small by lia. do 3 f_equal. lia.
  - replace (Z.of_nat (length payload)) with 0 by lia. reflexivity.
Qed.

Lemma length_encode_eth eh : wf_eth eh -> length (encode_eth eh) = 14%nat.
Proof.
  intros [[Ld _] [Ls _] _]. unfold encode_eth. rewrite !length_app, Ld, Ls.
  reflexivity.
Qed.

Lemma land15_range x : 0 <= Z.land x 15 <= 15.
Proof.
  replace (Z.land x 15) with (x mod 2 ^ 4)
    by (symmetry; apply (Z.land_ones x 4); lia).
  pose proof (Z.mod_pos_bound x (2 ^ 4)). lia.
Qed.

(** The part of [parse] up to the transport layer, on an encoded frame. *)
Ltac step_call lemma :=
  match goal with
  | |- context [let '(_, _) := ?call in _] =>
      let E := fresh "E" in
      pose proof lemma as E;
      destruct call as [[? ?] ?]; cbn [fst] in E;
      injection E as -> ->; cbv beta iota
  end.

Section RoundTrip.
Variables (eh : EthernetHeader) (ih : IPv4Header) (ip_options : list Z).
Variables (bm : Z -> Z) (ts : time_point) (st : PacketParser).
Hypothesis Heth : wf_eth eh.
Hypothesis Hip : wf_ipv4 ih ip_options.

Lemma parse_tcp_frame th tcp_options payload :
  protocol ih = IPPROTO_TCP_NUM ->
  wf_tcp th tcp_options ->
  let frame := Wire.tcp_frame eh ih ip_options th tcp_options payload in
  Z.of_nat (length frame) < 2 ^ 32 ->
  (run_rd (parse (Some (mkPtr (mkBuffer frame bm) 0)) (Z.of_nat (length frame)) ts st)).1.1
  = set_has_tcp
      (set_tcp (set_ip (set_eth (set_stamp zero_packet ts (next_packet_id_ st)
                                   (Some (mkPtr (mkBuffer frame bm) 0))
                                   (Z.of_nat (length frame))) eh) ih) th
         (if Z.of_nat (length payload) =? 0 then None
          else Some (mkPtr (mkBuffer frame bm)
                       (ETHER_HDR_SIZE + Z.land (version_ihl ih) 15 * 4
                        + data_offset th * 4)))
         (Z.of_nat (length payload))).
Proof.
  intros Hproto Htcp frame Hbound.
  pose proof (length_encode_eth eh Heth) as Leth.
  pose proof (land15_range (version_ihl ih)) as Hihl.
  pose proof Hip as [_ _ Wi Wo _ _ _ _ _ _ _ _ _].
  pose proof Htcp as [_ _ _ _ Wdoff Wto _ _ _ _].
  assert (Lip : length (encode_ipv4 ih) = 20%nat) by reflexivity.
  assert (Ltcp : length (encode_tcp th) = 20%nat) by reflexivity.
  assert (Lframe : Z.of_nat (length frame)
                   = 14 + Z.land (version_ihl ih) 15 * 4 + data_offset th * 4
                     + Z.of_nat (length payload)).
  { unfold frame, Wire.tcp_frame. rewrite !length_app, Leth, Lip, Ltcp. lia. }
  set (len := Z.of_nat (length frame)) in *.
  set (d := mkPtr (mkBuffer frame bm) 0).
  unfold run_rd, parse, validate_packet.
  destruct (Z.leb_spec 34 len); [|lia]. cbn [negb].
  cbv beta iota delta [mbind rd_bind].
  step_call (parse_ethernet_encode [] eh
               (encode_ipv4 ih ++ ip_options ++ encode_tcp th ++ tcp_options ++ payload)
               bm d len
               (set_stamp zero_packet ts (next_packet_id_ st) (Some d) len) []
               eq_refl eq_refl ltac:(unfold ETHER_HDR_SIZE; lia) Heth).
  cbn [negb].
  rewrite (u32_small (len - ETHER_HDR_SIZE)) by (unfold ETHER_HDR_SIZE; lia).
  step_call (parse_ipv4_encode (encode_eth eh) ih ip_options
               (ip_options ++ encode_tcp th ++ tcp_options ++ payload)
               bm (ptr_add d ETHER_HDR_SIZE) (len - ETHER_HDR_SIZE)
               (set_eth (set_stamp zero_packet ts (next_packet_id_ st) (Some d) len) eh)
               l eq_refl
               ltac:(cbn [ptr_add off d]; rewrite Leth; reflexivity)
               ltac:(unfold ETHER_HDR_SIZE; lia) Hip).
  cbn [negb ip_header set_ip]. rewrite Hproto.
  change (IPPROTO_TCP_NUM =? IPPROTO_TCP_NUM) with true. cbv iota.
  rewrite (u8_small (Z.land (version_ihl ih) 15 * 4))
    by (change (2 ^ 8) with 256; lia).
  rewrite (u32_small (len - ETHER_HDR_SIZE - Z.land (version_ihl ih) 15 * 4))
    by (unfold ETHER_HDR_SIZE; lia).
  step_call (parse_tcp_encode (encode_eth eh ++ encode_ipv4 ih ++ ip_options)
               th tcp_options payload bm
               (ptr_add (ptr_add d ETHER_HDR_SIZE) (Z.land (version_ihl ih) 15 * 4))
               (len - ETHER_HDR_SIZE - Z.land (version_ihl ih) 15 * 4)
               (set_ip (set_eth (set_stamp zero_packet ts (next_packet_id_ st) (Some d) len) eh) ih)
               l0
               ltac:(cbn [ptr_add buf d]; unfold frame, Wire.tcp_frame;
                     now rewrite <- !app_assoc)
               ltac:(cbn [ptr_add off d]; rewrite !length_app, Leth, Lip;
                     unfold ETHER_HDR_SIZE; lia)
               ltac:(unfold ETHER_HDR_SIZE; lia)
               ltac:(unfold ETHER_HDR_SIZE; lia) Htcp).
  reflexivity.
Qed.


Lemma parse_udp_frame uh payload :
  protocol ih = IPPROTO_UDP_NUM ->
  wf_udp uh ->
  let frame := Wire.udp_frame eh ih ip_options uh payload in
  Z.of_nat (length frame) < 2 ^ 32 ->
  (run_rd (parse (Some (mkPtr (mkBuffer frame bm) 0)) (Z.of_nat (length frame)) ts st)).1.1
  = set_has_udp
      (set_udp (set_ip (set_eth (set_stamp zero_packet ts (next_packet_id_ st)
                                   (Some (mkPtr (mkBuffer frame bm) 0))
                                   (Z.of_nat (length frame))) eh) ih) uh
         (if Z.of_nat (length payload) =? 0 then None
          else Some (mkPtr (mkBuffer frame bm)
                       (ETHER_HDR_SIZE + Z.land (version_ihl ih) 15 * 4 + 8)))
         (Z.of_nat (length payload))).
Proof.
  intros Hproto Hudp frame Hbound.
  pose proof (length_encode_eth eh Heth) as Leth.
  pose proof (land15_range (version_ihl ih)) as Hihl.
  pose proof Hip as [_ _ Wi Wo _ _ _ _ _ _ _ _ _].
  assert (Lip : length (encode_ipv4 ih) = 20%nat) by reflexivity.
  assert (Ludp : length (encode_udp uh) = 8%nat) by reflexivity.
  assert (Lframe : Z.of_nat (length frame)
                   = 14 + Z.land (version_ihl ih) 15 * 4 + 8
                     + Z.of_nat (length payload)).
  { unfold frame, Wire.udp_frame. rewrite !length_app, Leth, Lip, Ludp. lia. }
  set (len := Z.of_nat (length frame)) in *.
  set (d := mkPtr (mkBuffer frame bm) 0).
  unfold run_rd, parse, validate_packet.
  destruct (Z.leb_spec 34 len); [|lia]. cbn [negb].
  cbv beta iota delta [mbind rd_bind].
  step_call (parse_ethernet_encode [] eh
               (encode_ipv4 ih ++ ip_options ++ encode_udp uh ++ payload)
               bm d len
               (set_stamp zero_packet ts (next_packet_id_ st) (Some d) len) []
               eq_refl eq_refl ltac:(unfold ETHER_HDR_SIZE; lia) Heth).
  cbn [negb].
  rewrite (u32_small (len - ETHER_HDR_SIZE)) by (unfold ETHER_HDR_SIZE; lia).
  step_call (parse_ipv4_encode (encode_eth eh) ih ip_options
               (ip_options ++ encode_udp uh ++ payload)
               bm (ptr_add d ETHER_HDR_SIZE) (len - ETHER_HDR_SIZE)
               (set_eth (set_stamp zero_packet ts (next_packet_id_ st) (Some d) len) eh)
               l eq_refl
               ltac:(cbn [ptr_add off d]; rewrite Leth; reflexivity)
               ltac:(unfold ETHER_HDR_SIZE; lia) Hip).
  cbn [negb ip_header set_ip]. rewrite Hproto.
  change (IPPROTO_UDP_NUM =? IPPROTO_TCP_NUM) with false.
  change (IPPROTO_UDP_NUM =? IPPROTO_UDP_NUM) with true. cbv iota.
  rewrite (u8_small (Z.land (version_ihl ih) 15 * 4))
    by (change (2 ^ 8) with 256; lia).
  rewrite (u32_small (len - ETHER_HDR_SIZE - Z.land (version_ihl ih) 15 * 4))
    by (unfold ETHER_HDR_SIZE; lia).
  step_call (parse_udp_encode (encode_eth eh ++ encode_ipv4 ih ++ ip_options)
               uh payload bm
               (ptr_add (ptr_add d ETHER_HDR_SIZE) (Z.land (version_ihl ih) 15 * 4))
               (len - ETHER_HDR_SIZE - Z.land (version_ihl ih) 15 * 4)
               (set_ip (set_eth (set_stamp zero_packet ts (next_packet_id_ st) (Some d) len) eh) ih)
               l0
               ltac:(cbn [ptr_add buf d]; unfold frame, Wire.udp_frame;
                     now rewrite <- !app_assoc)
               ltac:(cbn [ptr_add off d]; rewrite !length_app, Leth, Lip;
                     unfold ETHER_HDR_SIZE; lia)
               ltac:(unfold ETHER_HDR_SIZE; lia)
               ltac:(unfold ETHER_HDR_SIZE; lia) Hudp).
  reflexivity.
Qed.

(** The bytes that a payload pointer of a frame leads to. *)
Lemma payload_bytes pre payload (i : nat) x :
  nth_error payload i = Some x ->
  byte_at (mkBuffer (pre ++ payload) bm) (Z.of_nat (length pre) + Z.of_nat i) = u8 x.
Proof.
  intros Hx.
  apply (load_at pre payload bm (mkPtr (mkBuffer (pre ++ payload) bm)
                                   (Z.of_nat (length pre))) (Z.of_nat i) x);
    [reflexivity | reflexivity | lia | now rewrite Nat2Z.id].
Qed.

Lemma payload_slice pre payload :
  Forall is_byte payload ->
  map (fun i => byte_at (mkBuffer (pre ++ payload) bm)
                  (Z.of_nat (length pre) + Z.of_nat i))
      (seq 0 (length payload)) = payload.
Proof.
  intros Hbytes.
  apply (nth_ext _ _ 0 0); rewrite length_map, length_seq; [reflexivity|].
  intros i Hi.
  rewrite (nth_indep _ 0 (byte_at (mkBuffer (pre ++ payload) bm)
                            (Z.of_nat (length pre) + Z.of_nat 0)))
    by (now rewrite length_map, length_seq).
  rewrite (map_nth (fun i => byte_at _ (_ + Z.of_nat i))), seq_nth by assumption.
  change (0 + i)%nat with i.
  destruct (nth_error payload i) as [x|] eqn:Hx;
    [|apply nth_error_None in Hx; lia].
  rewrite (payload_bytes pre payload _ x Hx).
  rewrite (nth_error_nth _ _ 0 Hx).
  apply u8_byte.
  eapply (proj1 (List.Forall_forall _ _)); [exact Hbytes|].
  eapply nth_error_In; exact Hx.
Qed.

(** X1.  Decoding an encoded TCP frame gives back the three headers, marks
    the packet as TCP and makes the payload slice the bytes that follow
    the TCP options: its length is that of the payload, it is null when
    the payload is empty, and otherwise its bytes are the payload's. *)
Theorem tcp_frame_round_trip th tcp_options payload :
  protocol ih = IPPROTO_TCP_NUM ->
  wf_tcp th tcp_options ->
  Forall is_byte payload ->
  let frame := Wire.tcp_frame eh ih ip_options th tcp_options payload in
  Z.of_nat (length frame) < 2 ^ 32 ->
  let pkt := (run_rd (parse (Some (mkPtr (mkBuffer frame bm) 0))
                        (Z.of_nat (length frame)) ts st)).1.1 in
  eth_header pkt = eh /\ ip_header pkt = ih /\ tcp_header pkt = th
  /\ has_tcp pkt = true /\ has_udp pkt = false
  /\ payload_length pkt = Z.of_nat (length payload)
  /\ (payload = [] -> Types.payload pkt = None)
  /\ (payload <> [] ->
      exists p, Types.payload pkt = Some p
                /\ map (fun i => byte_at (buf p) (off p + Z.of_nat i))
                       (seq 0 (length payload)) = payload).
Proof.
  intros Hproto Htcp Hbytes frame Hbound. cbv zeta. subst frame.
  rewrite (parse_tcp_frame th tcp_options payload Hproto Htcp Hbound).
  cbn [set_has_tcp set_tcp set_ip set_eth set_stamp eth_header ip_header
       tcp_header has_tcp has_udp payload_length Types.payload zero_packet].
  repeat (split; [reflexivity|]). split.
  - intros ->. reflexivity.
  - intros Hne. destruct payload as [|b rest] eqn:Epl; [congruence|].
    rewrite <- Epl in *. replace (Z.of_nat (length payload) =? 0) with false
      by (symmetry; apply Z.eqb_neq; subst payload; cbn [length]; lia).
    eexists. split; [reflexivity|]. cbn [buf off].
    pose proof (length_encode_eth eh Heth) as Leth.
    pose proof Hip as [_ _ _ Wo _ _ _ _ _ _ _ _ _].
    pose proof Htcp as [_ _ _ _ _ Wto _ _ _ _].
    set (pre := encode_eth eh ++ encode_ipv4 ih ++ ip_options
                ++ encode_tcp th ++ tcp_options).
    assert (Hframe : Wire.tcp_frame eh ih ip_options th tcp_options payload
                     = pre ++ payload)
      by (unfold Wire.tcp_frame, pre; now rewrite <- !app_assoc).
    assert (Lpre : ETHER_HDR_SIZE + Z.land (version_ihl ih) 15 * 4 + data_offset th * 4
                   = Z.of_nat (length pre)).
    { unfold pre. rewrite !length_app, Leth.
      change (length (encode_ipv4 ih)) with 20%nat.
      change (length (encode_tcp th)) with 20%nat.
      unfold ETHER_HDR_SIZE. lia. }
    rewrite Hframe, Lpre. now apply payload_slice.
Qed.


(** X2.  Decoding an encoded UDP frame gives back the three headers, marks
    the packet as UDP and makes the payload slice the bytes that follow
    the UDP header. *)
Theorem udp_frame_round_trip uh payload :
  protocol ih = IPPROTO_UDP_NUM ->
  wf_udp uh ->
  Forall is_byte payload ->
  let frame := Wire.udp_frame eh ih ip_options uh payload in
  Z.of_nat (length frame) < 2 ^ 32 ->
  let pkt := (run_rd (parse (Some (mkPtr (mkBuffer frame bm) 0))
                        (Z.of_nat (length frame)) ts st)).1.1 in
  eth_header pkt = eh /\ ip_header pkt = ih /\ udp_header pkt = uh
  /\ has_udp pkt = true /\ has_tcp pkt = false
  /\ payload_length pkt = Z.of_nat (length payload)
  /\ (payload = [] -> Types.payload pkt = None)
  /\ (payload <> [] ->
      exists p, Types.payload pkt = Some p
                /\ map (fun i => byte_at (buf p) (off p + Z.of_nat i))
                       (seq 0 (length payload)) = payload).
Proof.
  intros Hproto Hudp Hbytes frame Hbound. cbv zeta. subst frame.
  rewrite (parse_udp_frame uh payload Hproto Hudp Hbound).
  cbn [set_has_udp set_udp set_ip set_eth set_stamp eth_header ip_header
       udp_header has_tcp has_udp payload_length Types.payload zero_packet].
  repeat (split; [reflexivity|]). split.
  - intros ->. reflexivity.
  - intros Hne. destruct payload as [|b rest] eqn:Epl; [congruence|].
    rewrite <- Epl in *. replace (Z.of_nat (length payload) =? 0) with false
      by (symmetry; apply Z.eqb_neq; subst payload; cbn [length]; lia).
    eexists. split; [reflexivity|]. cbn [buf off].
    pose proof (length_encode_eth eh Heth) as Leth.
    pose proof Hip as [_ _ _ Wo _ _ _ _ _ _ _ _ _].
    set (pre := encode_eth eh ++ encode_ipv4 ih ++ ip_options ++ encode_udp uh).
    assert (Hframe : Wire.udp_frame eh ih ip_options uh payload = pre ++ payload)
      by (unfold Wire.udp_frame, pre; now rewrite <- !app_assoc).
    assert (Lpre : ETHER_HDR_SIZE + Z.land (version_ihl ih) 15 * 4 + 8
                   = Z.of_nat (length pre)).
    { unfold pre. rewrite !length_app, Leth.
      change (length (encode_ipv4 ih)) with 20%nat.
      change (length (encode_udp uh)) with 8%nat.
      unfold ETHER_HDR_SIZE. lia. }
    rewrite Hframe, Lpre. now apply payload_slice.
Qed.

End RoundTrip.

(** X3.  [get_src_port] and [get_dst_port] apply [ntohs] to a port that
    [parse_tcp] has already put in host order: for a decoded TCP frame, a
    little-endian host sees the wire port with its two bytes swapped, a
    big-endian host the wire port; the key of the flow carries the same
    value. *)
Theorem tcp_ports_are_converted_twice `{Host} eh ih ip_options bm ts st
    th tcp_options payload :
  wf_eth eh -> wf_ipv4 ih ip_options ->
  protocol ih = IPPROTO_TCP_NUM ->
  wf_tcp th tcp_options ->
  let frame := Wire.tcp_frame eh ih ip_options th tcp_options payload in
  Z.of_nat (length frame) < 2 ^ 32 ->
  let pkt := (run_rd (parse (Some (mkPtr (mkBuffer frame bm) 0))
                        (Z.of_nat (length frame)) ts st)).1.1 in
  let seen p := if little_endian then bswap16 p else p in
  get_src_port pkt = seen (tcp_src_port th)
  /\ get_dst_port pkt = seen (tcp_dst_port th)
  /\ Tracker.create_key pkt =
     Tracker.mkConnectionKey (src_ip ih) (dst_ip ih)
       (seen (tcp_src_port th)) (seen (tcp_dst_port th)) IPPROTO_TCP_NUM.
Proof.
  intros Heth Hip Hproto Htcp frame Hbound. cbv zeta. subst frame.
  rewrite (parse_tcp_frame eh ih ip_options bm ts st Heth Hip
             th tcp_options payload Hproto Htcp Hbound).
  unfold Tracker.create_key, get_src_port, get_dst_port, ntohs.
  cbn [set_has_tcp set_tcp set_ip set_eth set_stamp ip_header tcp_header has_tcp].
  rewrite Hproto. repeat split.
Qed.

Import WireVectors.

Lemma w_eth_wf : wf_eth w_eh.
Proof. split; cbn; try reflexivity; (split; [reflexivity|]); repeat constructor; lia. Qed.

Lemma w_ipv4_wf proto : is_byte proto -> wf_ipv4 (w_ih proto) [].
Proof. intros Hp. split; cbn; unfold is_byte in *; try reflexivity; lia. Qed.

Lemma w_tcp_wf : wf_tcp w_th [].
Proof. split; cbn; lia. Qed.

Lemma w_udp_wf : wf_udp w_uh.
Proof. split; cbn; lia. Qed.

Lemma tcp_frame_round_trip_witness :
  tcp_header (run_rd (parse (Some (mkPtr (mkBuffer
      (Wire.tcp_frame w_eh (w_ih 6) [] w_th [] w_payload) (fun _ => 0)) 0))
      57 0 Parser.init)).1.1 = w_th.
Proof.
  refine (proj1 (proj2 (proj2
    (tcp_frame_round_trip w_eh (w_ih 6) [] (fun _ => 0) 0 Parser.init
       w_eth_wf (w_ipv4_wf 6 _) w_th [] w_payload eq_refl w_tcp_wf _ _)))).
  - unfold is_byte. lia.
  - repeat constructor; lia.
  - cbn. lia.
Defined.

Lemma udp_frame_round_trip_witness :
  udp_header (run_rd (parse (Some (mkPtr (mkBuffer
      (Wire.udp_frame w_eh (w_ih 17) [] w_uh w_payload) (fun _ => 0)) 0))
      45 0 Parser.init)).1.1 = w_uh.
Proof.
  refine (proj1 (proj2 (proj2
    (udp_frame_round_trip w_eh (w_ih 17) [] (fun _ => 0) 0 Parser.init
       w_eth_wf (w_ipv4_wf 17 _) w_uh w_payload eq_refl w_udp_wf _ _)))).
  - unfold is_byte. lia.
  - repeat constructor; lia.
  - cbn. lia.
Defined.

(** On a little-endian host port 22 is seen as 5632. *)
Lemma tcp_ports_are_converted_twice_witness :
  @get_dst_port Vectors.x86 (run_rd (parse (Some (mkPtr (mkBuffer
      (Wire.tcp_frame w_eh (w_ih 6) [] w_th [] w_payload) (fun _ => 0)) 0))
      57 0 Parser.init)).1.1 = 5632.
Proof.
  refine (proj1 (proj2
    (@tcp_ports_are_converted_twice Vectors.x86 w_eh (w_ih 6) [] (fun _ => 0)
       0 Parser.init w_th [] w_payload w_eth_wf (w_ipv4_wf 6 _) eq_refl
       w_tcp_wf _))).
  - unfold is_byte. lia.
  - cbn. lia.
Defined.

End WireProofs.

(** ** The packet parser: what an accepted capture decodes to *)

Module ParserShape.
Import Types Parser ParserProofs ParserTests.

(** The fields of the packet that [parse] returns for a capture that passes
    the three checks, read off the bytes of the capture. *)
Ltac same_offsets :=
  unfold ETHER_HDR_SIZE; rewrite <- !Z.add_assoc; reflexivity.

Lemma parse_accepted_fields d len ts st :
  34 <= len < 2 ^ 32 ->
  accepted (Some d) len = true ->
  let pkt := (run_rd (parse (Some d) len ts st)).1.1 in
  let tl := transport_length d len in
  let td := off d + transport_offset d in
  src_ip (ip_header pkt) = word_of_bytes (address_at d 12)
  /\ dst_ip (ip_header pkt) = word_of_bytes (address_at d 16)
  /\ protocol (ip_header pkt) = ip_protocol_at d
  /\ has_tcp pkt = (ip_protocol_at d =? IPPROTO_TCP_NUM) && (20 <=? tl)
  /\ has_udp pkt = (ip_protocol_at d =? IPPROTO_UDP_NUM) && (8 <=? tl)
  /\ (has_tcp pkt = true ->
      if u32 (data_offset_at d * 4) <? tl
      then payload pkt = Some (mkPtr (buf d) (td + u32 (data_offset_at d * 4)))
           /\ payload_length pkt = u32 (tl - u32 (data_offset_at d * 4))
      else payload pkt = None /\ payload_length pkt = 0)
  /\ (has_udp pkt = true ->
      if 8 <? tl
      then payload pkt = Some (mkPtr (buf d) (td + 8))
           /\ payload_length pkt = u32 (tl - 8)
      else payload pkt = None /\ payload_length pkt = 0)
  /\ (has_tcp pkt = false -> has_udp pkt = false ->
      payload pkt = None /\ payload_length pkt = 0).
Proof.
  intros Hlen Hacc. pose proof (ihl_at_range d) as Hr.
  rewrite accepted_long in Hacc by lia.
  apply andb_true_iff in Hacc as [Het Hv].
  cbv zeta. unfold transport_length, transport_offset, data_offset_at, address_at.
  unfold run_rd, parse, validate_packet. cbn [negb].
  destruct (Z.leb_spec 34 len) as [_|?]; [|lia]. cbn [negb].
  unfold parse_ethernet.
  destruct (Z.ltb_spec len ETHER_HDR_SIZE) as [?|_];
    [unfold ETHER_HDR_SIZE in *; lia|].
  rd_unfold. fold (ethertype_at d). rewrite Het. cbn [negb].
  unfold parse_ipv4.
  rewrite (u32_small (len - ETHER_HDR_SIZE)) by (unfold ETHER_HDR_SIZE; lia).
  destruct (Z.ltb_spec (len - ETHER_HDR_SIZE) 20) as [?|_];
    [unfold ETHER_HDR_SIZE in *; lia|].
  rd_unfold. cbn [ptr_add buf off]. fold (ip_version_at d). rewrite Hv.
  cbn [negb ip_header set_ip version_ihl protocol].
  fold (ihl_at d). fold (ip_protocol_at d).
  rewrite (u8_small (ihl_at d * 4)) by lia.
  set (tl := u32 (len - ETHER_HDR_SIZE - ihl_at d * 4)).
  unfold parse_tcp, parse_udp.
  destruct (Z.eqb_spec (ip_protocol_at d) IPPROTO_TCP_NUM) as [E|NE];
    [|destruct (Z.eqb_spec (ip_protocol_at d) IPPROTO_UDP_NUM) as [E|NE']].
  - assert (Hu : (ip_protocol_at d =? IPPROTO_UDP_NUM) = false)
      by (rewrite E; reflexivity).
    rewrite Hu. cbn [andb].
    destruct (Z.ltb_spec tl 20) as [Hs|Hs]; rd_unfold.
    + destruct (Z.leb_spec 20 tl); [lia|].
      cbn. repeat split; try reflexivity; try discriminate; same_offsets.
    + destruct (Z.leb_spec 20 tl); [|lia].
      cbn [ptr_add buf off].
      replace (off d + ETHER_HDR_SIZE + ihl_at d * 4 + 12)
        with (off d + (ETHER_HDR_SIZE + ihl_at d * 4) + 12) by lia.
      set (doff := u32 (Z.land (Z.shiftr (byte_at (buf d) _) 4) 15 * 4)).
      destruct (doff <? tl) eqn:Hd; rd_unfold;
        cbn [fst snd set_has_tcp set_tcp set_ip set_eth set_stamp has_tcp
             has_udp payload payload_length ip_header src_ip dst_ip protocol
             zero_packet map];
        repeat split; try reflexivity; try discriminate; try same_offsets;
        try (unfold ptr_add; cbn [buf off]; do 2 f_equal; lia).
  - cbn [andb].
    destruct (Z.ltb_spec tl 8) as [Hs|Hs]; rd_unfold.
    + destruct (Z.leb_spec 8 tl); [lia|].
      cbn. repeat split; try reflexivity; try discriminate; same_offsets.
    + destruct (Z.leb_spec 8 tl); [|lia].
      cbn [ptr_add buf off].
      destruct (8 <? tl) eqn:Hd; rd_unfold;
        cbn [fst snd set_has_udp set_udp set_ip set_eth set_stamp has_tcp
             has_udp payload payload_length ip_header src_ip dst_ip protocol
             zero_packet map];
        repeat split; try reflexivity; try discriminate; try same_offsets;
        try (unfold ptr_add; cbn [buf off]; do 2 f_equal; lia).
  - rd_unfold. cbn. repeat split; try reflexivity; try discriminate; same_offsets.
Qed.


Lemma transport_length_fits d len :
  ETHER_HDR_SIZE + ihl_at d * 4 <= len < 2 ^ 32 ->
  transport_length d len = len - ETHER_HDR_SIZE - ihl_at d * 4.
Proof.
  intros Hl. pose proof (ihl_at_range d). unfold transport_length.
  apply u32_small. unfold ETHER_HDR_SIZE in *. lia.
Qed.

Lemma data_offset_at_range d : 0 <= data_offset_at d <= 15.
Proof.
  unfold data_offset_at. set (b := Z.shiftr _ _).
  replace (Z.land b 15) with (b mod 2 ^ 4)
    by (symmetry; apply (Z.land_ones b 4); lia).
  pose proof (Z.mod_pos_bound b (2 ^ 4)). lia.
Qed.

(** X4.  Memory safety of [parse] when the announced IPv4 header fits the
    capture: every byte [parse] reads lies inside the capture, and the
    payload it returns is a non-empty range of the same buffer that starts
    after the IPv4 header and ends exactly where the capture ends; without
    a payload pointer the payload length is 0. *)
Theorem parse_stays_inside_capture d len ts st :
  off d = 0 -> 34 <= len < 2 ^ 32 ->
  ETHER_HDR_SIZE + ihl_at d * 4 <= len ->
  let r := run_rd (parse (Some d) len ts st) in
  Forall (fun o => 0 <= o < len) r.2
  /\ match payload r.1.1 with
     | Some p =>
         buf p = buf d
         /\ transport_offset d <= off p
         /\ 0 < payload_length r.1.1
         /\ off p + payload_length r.1.1 = len
     | None => payload_length r.1.1 = 0
     end.
Proof.
  intros Hoff Hlen Hihl. cbv zeta.
  split; [now apply parse_reads_in_bounds|].
  destruct (accepted (Some d) len) eqn:Hacc.
  2:{ destruct (parse_summary (Some d) len ts st []) as [_ _ _ _ Hc _ _]; [lia|].
      rewrite Hacc in Hc. destruct Hc as (_ & _ & _ & _ & Hp & Hl).
      unfold run_rd. rewrite Hp. exact Hl. }
  pose proof (parse_accepted_fields d len ts st Hlen Hacc) as Hf.
  cbv zeta in Hf.
  destruct Hf as (_ & _ & _ & Htcp & Hudp & Ptcp & Pudp & Pnone).
  rewrite (transport_length_fits d len) in * by lia.
  pose proof (ihl_at_range d) as Hr. pose proof (data_offset_at_range d) as Hdo.
  rewrite (u32_small (data_offset_at d * 4)) in Ptcp by lia.
  unfold transport_offset in *. rewrite Hoff in *.
  set (pkt := (run_rd (parse (Some d) len ts st)).1.1) in *.
  destruct (has_tcp pkt) eqn:Ht; [|destruct (has_udp pkt) eqn:Hu].
  - specialize (Ptcp eq_refl).
    destruct (Z.ltb_spec (data_offset_at d * 4) (len - ETHER_HDR_SIZE - ihl_at d * 4))
      as [Hlt|Hge]; destruct Ptcp as [-> ->]; [|reflexivity].
    rewrite u32_small by (unfold ETHER_HDR_SIZE in *; lia).
    cbn [buf off]. unfold ETHER_HDR_SIZE in *. repeat split; lia.
  - specialize (Pudp eq_refl).
    destruct (Z.ltb_spec 8 (len - ETHER_HDR_SIZE - ihl_at d * 4))
      as [Hlt|Hge]; destruct Pudp as [-> ->]; [|reflexivity].
    rewrite u32_small by (unfold ETHER_HDR_SIZE in *; lia).
    cbn [buf off]. unfold ETHER_HDR_SIZE in *. repeat split; lia.
  - destruct (Pnone eq_refl eq_refl) as [-> ->]. reflexivity.
Qed.

(** X5.  When [parse] sets [has_tcp] and [has_udp]: the capture passes the
    three checks, the IPv4 protocol byte is 6 (respectively 17) and the
    32-bit difference [length - 14 - 4 * IHL] is at least 20 (respectively
    8).  A capture cut short inside the transport header is still counted
    as parsed, with neither flag. *)
Theorem transport_header_needs_its_bytes d len ts st :
  0 <= len < 2 ^ 32 ->
  let r := run_rd (parse (Some d) len ts st) in
  has_tcp r.1.1 = accepted (Some d) len
                  && (ip_protocol_at d =? IPPROTO_TCP_NUM)
                  && (20 <=? transport_length d len)
  /\ has_udp r.1.1 = accepted (Some d) len
                     && (ip_protocol_at d =? IPPROTO_UDP_NUM)
                     && (8 <=? transport_length d len)
  /\ (accepted (Some d) len = true ->
      packets_parsed_ r.1.2 = u64 (packets_parsed_ st + 1)
      /\ parse_errors_ r.1.2 = parse_errors_ st).
Proof.
  intros Hlen. cbv zeta.
  destruct (parse_summary (Some d) len ts st []) as [_ _ _ _ Hc _ _]; [lia|].
  destruct (accepted (Some d) len) eqn:Hacc.
  - destruct (Z.le_gt_cases 34 len) as [H34|H34];
      [|rewrite accepted_short in Hacc by lia; discriminate].
    pose proof (parse_accepted_fields d len ts st (conj H34 (proj2 Hlen)) Hacc) as Hf.
    cbv zeta in Hf. destruct Hf as (_ & _ & _ & Htcp & Hudp & _).
    cbn [andb]. unfold run_rd in *. rewrite Htcp, Hudp.
    split; [reflexivity|]. split; [reflexivity|]. intros _. exact Hc.
  - destruct Hc as (_ & _ & Ht & Hu & _). unfold run_rd in *.
    rewrite Ht, Hu. cbn [andb].
    split; [reflexivity|]. split; [reflexivity|]. discriminate.
Qed.

Lemma inet_ntop_word a b c e :
  0 <= a < 256 -> 0 <= b < 256 -> 0 <= c < 256 -> 0 <= e < 256 ->
  inet_ntop (word_of_bytes [a; b; c; e]) = dotted [a; b; c; e].
Proof.
  intros Ha Hb Hc He. unfold inet_ntop, dotted, word_of_bytes.
  cbn [fold_left nth].
  set (w := ((((0 * 256 + a) * 256 + b) * 256 + c) * 256 + e)).
  assert (E1 : Z.land (Z.shiftr w 24) 255 = a).
  { rewrite Z.shiftr_div_pow2 by lia. change 255 with (Z.ones 8).
    rewrite Z.land_ones by lia. unfold w. Z.div_mod_to_equations. lia. }
  assert (E2 : Z.land (Z.shiftr w 16) 255 = b).
  { rewrite Z.shiftr_div_pow2 by lia. change 255 with (Z.ones 8).
    rewrite Z.land_ones by lia. unfold w. Z.div_mod_to_equations. lia. }
  assert (E3 : Z.land (Z.shiftr w 8) 255 = c).
  { rewrite Z.shiftr_div_pow2 by lia. change 255 with (Z.ones 8).
    rewrite Z.land_ones by lia. unfold w. Z.div_mod_to_equations. lia. }
  assert (E4 : Z.land w 255 = e).
  { change 255 with (Z.ones 8).
    rewrite Z.land_ones by lia. unfold w. Z.div_mod_to_equations. lia. }
  now rewrite E1, E2, E3, E4.
Qed.

(** X6.  The addresses of a packet print in wire order on every host:
    [get_src_ip] and [get_dst_ip] of a packet made from a capture that
    passes the checks are the dotted quads of bytes 26 to 29 and 30 to 33
    of the capture, in that order. *)
Theorem addresses_print_in_wire_order d len ts st :
  34 <= len < 2 ^ 32 ->
  accepted (Some d) len = true ->
  let pkt := (run_rd (parse (Some d) len ts st)).1.1 in
  get_src_ip pkt = dotted (address_at d 12)
  /\ get_dst_ip pkt = dotted (address_at d 16).
Proof.
  intros Hlen Hacc. cbv zeta.
  pose proof (parse_accepted_fields d len ts st Hlen Hacc) as Hf.
  cbv zeta in Hf. destruct Hf as (Hs & Hd & _).
  unfold get_src_ip, get_dst_ip. rewrite Hs, Hd.
  unfold address_at. cbn [map].
  split; apply inet_ntop_word; apply byte_at_range.
Qed.

(** X7.  [has_ipv4] is the admission test of [parse] but for the
    ethertype: a call of [parse] on a non-null capture counts the packet as
    parsed when [has_ipv4] holds and bytes 12 and 13 are 0x0800, and as an
    error otherwise.  [has_ipv4] implies [has_ethernet], and reads byte 14
    only, and only of a capture of 34 bytes or more. *)
Theorem parse_admits_what_has_ipv4 d len ts st :
  0 <= len < 2 ^ 32 ->
  let ipv4 := run_rd (has_ipv4 d len) in
  let r := run_rd (parse (Some d) len ts st) in
  (if ipv4.1 && (ethertype_at d =? 0x0800)
   then packets_parsed_ r.1.2 = u64 (packets_parsed_ st + 1)
        /\ parse_errors_ r.1.2 = parse_errors_ st
   else packets_parsed_ r.1.2 = packets_parsed_ st
        /\ parse_errors_ r.1.2 = u64 (parse_errors_ st + 1))
  /\ (ipv4.1 = true -> (run_rd (has_ethernet d len)).1 = true)
  /\ (ipv4.2 = [] \/ (ipv4.2 = [off d + 14] /\ 34 <= len)).
Proof.
  intros Hlen. cbv zeta.
  destruct (parse_summary (Some d) len ts st []) as [_ _ _ _ Hc _ _]; [lia|].
  assert (Hipv4 : run_rd (has_ipv4 d len)
                  = if len <? 34 then (false, [])
                    else (ip_version_at d =? 4, [off d + 14 + 0])).
  { unfold has_ipv4, run_rd. change (ETHER_HDR_SIZE + 20) with 34.
    destruct (len <? 34); reflexivity. }
  rewrite Hipv4. unfold has_ethernet, run_rd in *. rd_unfold.
  destruct (Z.ltb_spec len 34) as [Hs|Hl]; cbn [fst snd andb].
  - rewrite accepted_short in Hc by lia.
    split; [repeat split; apply Hc|]. split; [discriminate | now left].
  - rewrite accepted_long in Hc by lia.
    rewrite andb_comm in Hc.
    destruct ((ip_version_at d =? 4) && (ethertype_at d =? 2048)).
    + split; [exact Hc|]. split.
      * intros _. apply Z.leb_le. unfold ETHER_HDR_SIZE. lia.
      * right. split; [f_equal; lia | lia].
    + split; [repeat split; apply Hc|]. split.
      * intros _. apply Z.leb_le. unfold ETHER_HDR_SIZE. lia.
      * right. split; [f_equal; lia | lia].
Qed.

Import Vectors.

Lemma parse_stays_inside_capture_witness :
  Forall (fun o => 0 <= o < 45)
    (run_rd (parse (Some (capture (udp_frame 1 abc))) 45 0 Parser.init)).2.
Proof.
  refine (proj1 (parse_stays_inside_capture (capture (udp_frame 1 abc)) 45 0
                   Parser.init eq_refl _ _)).
  - lia.
  - vm_compute. discriminate.
Defined.

Lemma transport_header_needs_its_bytes_witness :
  has_udp (run_rd (parse (Some (capture (udp_frame 1 abc))) 45 0 Parser.init)).1.1
  = true.
Proof.
  refine (eq_trans (proj1 (proj2 (transport_header_needs_its_bytes
            (capture (udp_frame 1 abc)) 45 0 Parser.init _))) _).
  - lia.
  - vm_compute. reflexivity.
Defined.

Lemma addresses_print_in_wire_order_witness :
  get_src_ip (run_rd (parse (Some (capture (udp_frame 1 abc))) 45 0 Parser.init)).1.1
  = "10.0.0.1"%string.
Proof.
  refine (eq_trans (proj1 (addresses_print_in_wire_order
            (capture (udp_frame 1 abc)) 45 0 Parser.init _ _)) _).
  - lia.
  - vm_compute. reflexivity.
  - vm_compute. reflexivity.
Defined.

Lemma parse_admits_what_has_ipv4_witness :
  (run_rd (has_ethernet (capture (udp_frame 1 abc)) 45)).1 = true.
Proof.
  refine (proj1 (proj2 (parse_admits_what_has_ipv4
            (capture (udp_frame 1 abc)) 45 0 Parser.init _)) _).
  - lia.
  - vm_compute. reflexivity.
Defined.

End ParserShape.

(** ** The connection tracker: counters, lookups and tallies *)

Module TrackerApiProofs.
Import Types Tracker TrackerProofs TrackerApi.

Section WithHost.
Context `{Host}.

(** *** Every connection is active, expired or cleared *)

Lemma size_filter_le clock (t : ConnectionTracker) :
  (size (filter (survives (timeout_seconds_ t) clock) (connections_ t))
   <= size (connections_ t))%nat.
Proof. apply map_subseteq_size, map_filter_subseteq. Qed.

Lemma accounted_cleanup n c clock t :
  n < 2 ^ 64 -> accounted n c t -> accounted n c (cleanup_expired clock t).
Proof.
  intros Hn [A1 A2 A3 A4]. unfold get_active_connections in *.
  pose proof (size_filter_le clock t) as Hle.
  unfold cleanup_expired.
  split; cbn [expired_connections_ total_connections_ connections_
              get_active_connections]; unfold get_active_connections;
    cbn [connections_]; try assumption.
  - apply u64_range.
  - rewrite u64_small by lia. lia.
Qed.

Lemma accounted_update n c clock packet t :
  n + 1 < 2 ^ 64 -> accounted n c t -> accounted (n + 1) c (update clock packet t).
Proof.
  intros Hn Ha.
  destruct (connections_ t !! create_key packet) as [f|] eqn:Hk.
  - rewrite (update_present _ _ _ _ Hk). destruct Ha as [A1 A2 A3 A4].
    unfold get_active_connections in *.
    split; cbn [set_connections expired_connections_ total_connections_
                connections_]; try assumption; try lia.
    unfold get_active_connections. cbn [set_connections connections_].
    rewrite map_size_insert, Hk. exact A2.
  - set (t1 := if max_connections_ t <=? Z.of_nat (size (connections_ t))
               then cleanup_expired clock t else t).
    assert (Ha1 : accounted n c t1).
    { unfold t1. destruct (_ <=? _); [apply accounted_cleanup; [lia | exact Ha] | exact Ha]. }
    assert (Hk1 : connections_ t1 !! create_key packet = None).
    { unfold t1. destruct (_ <=? _); [|exact Hk].
      unfold cleanup_expired. cbn [connections_].
      apply map_lookup_filter_None. left. exact Hk. }
    assert (Hu : update clock packet t =
                 mkConnectionTracker
                   (<[create_key packet := account packet (new_flow (timestamp packet))]>
                      (connections_ t1))
                   (timeout_seconds_ t1) (max_connections_ t1)
                   (u64 (total_connections_ t1 + 1)) (expired_connections_ t1)).
    { unfold update. rewrite Hk. cbv zeta. unfold admit_flow. fold t1.
      cbn [connections_]. rewrite lookup_insert_eq.
      cbn [set_connections connections_ timeout_seconds_ max_connections_
           total_connections_ expired_connections_].
      now rewrite insert_insert_eq. }
    rewrite Hu. destruct Ha1 as [A1 A2 A3 A4].
    unfold get_active_connections in *.
    split; cbn [expired_connections_ total_connections_ connections_];
      try assumption.
    + unfold get_active_connections. cbn [connections_].
      rewrite map_size_insert, Hk1, u64_small by lia. lia.
    + rewrite u64_small by lia. lia.
Qed.

Lemma accounted_mono n m c t : n <= m -> accounted n c t -> accounted m c t.
Proof. intros Hnm [A1 A2 A3 A4]. split; try assumption. lia. Qed.

Lemma accounted_clear n c t :
  accounted n c t -> accounted n (c + get_active_connections t) (clear t).
Proof.
  intros [A1 A2 A3 A4]. unfold get_active_connections in *.
  split; unfold clear;
    cbn [set_connections expired_connections_ total_connections_];
    try assumption.
  - unfold get_active_connections. cbn [set_connections connections_].
    rewrite map_size_empty. lia.
  - lia.
Qed.

Lemma accounted_run calls : forall n c t,
  n + Z.of_nat (length calls) < 2 ^ 64 ->
  accounted n c t ->
  exists c', accounted (n + Z.of_nat (length calls)) c' (run calls t)
             /\ (forallb (fun x => negb (is_clear x)) calls = true -> c' = c).
Proof.
  induction calls as [|x rest IH]; intros n c t Hn Ha.
  - exists c. cbn [length run fold_left]. rewrite Z.add_0_r. now split.
  - cbn [length] in *. rewrite Nat2Z.inj_succ in *.
    replace (n + Z.succ (Z.of_nat (length rest)))
      with ((n + 1) + Z.of_nat (length rest)) in * by lia.
    unfold run. cbn [fold_left]. fold (run rest (call x t)).
    destruct x as [clock packet|clock|]; cbn [call forallb is_clear negb andb].
    + apply IH; [lia|]. apply accounted_update; [lia | exact Ha].
    + apply IH; [lia|]. apply (accounted_mono n); [lia|].
      apply accounted_cleanup; [lia | exact Ha].
    + destruct (IH (n + 1) (c + get_active_connections t) (clear t)) as (c' & Hc & _);
        [lia | apply (accounted_mono n); [lia | now apply accounted_clear] |].
      exists c'. split; [exact Hc | discriminate].
Qed.

Lemma accounted_init timeout maxc : accounted 0 0 (init timeout maxc).
Proof.
  split; cbn; try lia. unfold get_active_connections. cbn.
  rewrite map_size_empty. lia.
Qed.


(** X8.  In every run of [update], [cleanup_expired] and [clear] on a new
    tracker, short enough for the counters not to wrap: the active and the
    expired connections together never exceed [total_connections_], which
    never exceeds the number of calls; and as long as [clear] is not
    called, every connection ever counted is either in the table or
    counted as expired. *)
Theorem connections_are_active_or_expired (calls : list Call) (timeout maxc : Z) :
  Z.of_nat (length calls) < 2 ^ 64 ->
  let t := run calls (init timeout maxc) in
  get_active_connections t + expired_connections_ t <= total_connections_ t
  /\ total_connections_ t <= Z.of_nat (length calls)
  /\ 0 <= expired_connections_ t
  /\ (forallb (fun c => negb (is_clear c)) calls = true ->
      total_connections_ t = get_active_connections t + expired_connections_ t).
Proof.
  intros Hn. cbv zeta.
  destruct (accounted_run calls 0 0 (init timeout maxc)) as (c & [A1 A2 A3 A4] & Hc);
    [lia | apply accounted_init |].
  repeat split; try lia.
  intros Hnc. rewrite (Hc Hnc) in A2. lia.
Qed.

(** *** Lookups *)

(** X9.  What [get_flow] finds after [update]: for the 5-tuple of the
    updated packet, the flow with the packet accounted (a new flow when the
    tuple was unknown); for any other 5-tuple, what it found before, except
    that a packet of an unknown tuple arriving at a full table makes the
    expired flows disappear. *)
Theorem get_flow_after_update clock (p q : ParsedPacket) (t : ConnectionTracker) :
  get_flow q (update clock p t) =
  if decide (create_key q = create_key p) then
    Some (report (account p (default (new_flow (timestamp p))
                               (connections_ t !! create_key p))))
  else
    match connections_ t !! create_key p with
    | Some _ => get_flow q t
    | None =>
        if max_connections_ t <=? get_active_connections t then
          match connections_ t !! create_key q with
          | Some f =>
              if is_expired (timeout_seconds_ t) (clock (create_key q)) f
              then None else Some (report f)
          | None => None
          end
        else get_flow q t
    end.
Proof.
  unfold get_flow, get_active_connections.
  destruct (decide (create_key q = create_key p)) as [E|NE].
  - rewrite E, update_tracks. reflexivity.
  - destruct (connections_ t !! create_key p) as [f0|] eqn:Hk.
    + rewrite (update_present _ _ _ _ Hk). cbn [set_connections connections_].
      now rewrite lookup_insert_ne by congruence.
    + rewrite (update_absent _ _ _ Hk), lookup_insert_ne by congruence.
      destruct (_ <=? _); [|reflexivity].
      unfold cleanup_expired. cbn [connections_].
      destruct (connections_ t !! create_key q) as [f|] eqn:Hq.
      * destruct (is_expired _ _ f) eqn:He.
        -- replace (filter _ _ !! create_key q) with (@None FlowStats);
             [reflexivity|].
           symmetry. apply map_lookup_filter_None. right.
           intros f' Hf' Hs. rewrite Hq in Hf'. injection Hf' as <-.
           unfold survives in Hs. cbn [fst snd] in Hs. congruence.
        -- replace (filter _ _ !! create_key q) with (Some f); [reflexivity|].
           symmetry. apply map_lookup_filter_Some. split; [exact Hq|exact He].
      * replace (filter _ _ !! create_key q) with (@None FlowStats);
          [reflexivity|].
        symmetry. apply map_lookup_filter_None. now left.
Qed.

(** *** Flows are one-directional *)

Lemma run_flows_invariant (P : FlowStats -> Prop) :
  (forall ts, P (new_flow ts)) ->
  (forall p f, P f -> P (account p f)) ->
  forall calls t,
    (forall k f, connections_ t !! k = Some f -> P f) ->
    forall k f, connections_ (run calls t) !! k = Some f -> P f.
Proof.
  intros Hnew Hacc. induction calls as [|x rest IH]; intros t Ht; [exact Ht|].
  unfold run. cbn [fold_left]. fold (run rest (call x t)). apply IH.
  destruct x as [clock packet|clock|]; cbn [call]; intros k f Hk.
  - apply update_lookup in Hk as [[_ ->]|[_ Hk]]; [|now apply (Ht k)].
    apply Hacc. destruct (connections_ t !! create_key packet) as [f0|] eqn:E;
      cbn [default]; [now apply (Ht _ _ E) | apply Hnew].
  - apply cleanup_lookup_Some in Hk as [Hk _]. now apply (Ht k).
  - unfold clear in Hk. cbn [set_connections connections_] in Hk.
    rewrite lookup_empty in Hk. discriminate.
Qed.

(** X10.  No packet is ever accounted to the backward direction: whatever
    calls a new tracker has taken, a flow that [get_flow] hands out has
    [bwd_packets] and [bwd_bytes] 0 and empty [bwd_pkt_lengths] and
    [bwd_iat], and the means and standard deviations that
    [update_computed_features] gives for the backward direction are 0. *)
Theorem flows_have_no_backward_packets (calls : list Call) (timeout maxc : Z)
    (packet : ParsedPacket) :
  match get_flow packet (run calls (init timeout maxc)) with
  | Some (f, c) =>
      bwd_packets f = 0 /\ bwd_bytes f = 0
      /\ bwd_pkt_lengths f = [] /\ bwd_iat f = []
      /\ bwd_iat_mean c = fzero /\ bwd_iat_std c = fzero
      /\ bwd_pkt_len_mean c = fzero /\ bwd_pkt_len_std c = fzero
  | None => True
  end.
Proof.
  unfold get_flow.
  destruct (connections_ (run calls (init timeout maxc)) !! create_key packet)
    as [f|] eqn:Hk; [|exact I].
  assert (Hone : one_way f).
  { revert Hk. apply (run_flows_invariant one_way).
    - intros ts. repeat split.
    - intros p f0 (B1 & B2 & B3 & B4). repeat split; assumption.
    - intros k f0 Hf0. cbn in Hf0. rewrite lookup_empty in Hf0. discriminate. }
  destruct Hone as (B1 & B2 & B3 & B4).
  unfold report, update_computed_features.
  cbn [bwd_iat_mean bwd_iat_std bwd_pkt_len_mean bwd_pkt_len_std].
  rewrite B3, B4. repeat split; assumption.
Qed.

(** *** The TCP state of a flow *)

Lemma update_tcp_state_rank st fl :
  rank st <= rank (update_tcp_state st fl).
Proof.
  destruct st; cbn [update_tcp_state];
    repeat match goal with
           | |- context [if ?c then _ else _] => destruct c
           end; cbn; lia.
Qed.

(** X11.  The state of a flow never goes back: each packet leaves it where
    it was or moves it towards [CLOSED].  A flow that has reached [CLOSED]
    stays [CLOSED] whatever arrives on its 5-tuple, a new SYN included, and
    [is_expired] holds for it at every clock reading and every timeout. *)
Theorem state_never_goes_back (packets : list ParsedPacket) (f : FlowStats) :
  rank (state f) <= rank (state (account_all packets f))
  /\ (state f = CLOSED ->
      state (account_all packets f) = CLOSED
      /\ forall timeout now,
           is_expired timeout now (account_all packets f) = true).
Proof.
  assert (Hmono : forall pkts g, rank (state g) <= rank (state (account_all pkts g))).
  { induction pkts as [|p rest IH]; intros g; [cbn; lia|].
    unfold account_all. cbn [fold_left]. fold (account_all rest (account p g)).
    specialize (IH (account p g)).
    assert (rank (state g) <= rank (state (account p g))); [|lia].
    cbn [account state]. destruct (has_tcp p); [apply update_tcp_state_rank | lia]. }
  split; [apply Hmono|]. intros Hc.
  assert (Hs : state (account_all packets f) = CLOSED).
  { specialize (Hmono packets f). rewrite Hc in Hmono.
    destruct (state (account_all packets f)); cbn in Hmono; try lia. reflexivity. }
  split; [exact Hs|]. intros timeout now. unfold is_expired. rewrite Hs.
  rewrite bool_decide_true by reflexivity. apply orb_true_r.
Qed.

(** *** What a flow tallies *)

Lemma u64_add_l a b : u64 (u64 a + b) = u64 (a + b).
Proof. unfold u64, wrap. apply Zplus_mod_idemp_l. Qed.

Lemma flagged_cons bit p rest :
  flagged bit (p :: rest)
  = (if has_tcp p && has_flag (flags (tcp_header p)) bit then 1 else 0)
    + flagged bit rest.
Proof.
  unfold flagged. cbn [List.filter].
  destruct (has_tcp p && _); cbn [length]; lia.
Qed.

Lemma flagged_range bit packets :
  0 <= flagged bit packets <= Z.of_nat (length packets).
Proof.
  unfold flagged. pose proof (List.filter_length_le
    (fun p => has_tcp p && has_flag (flags (tcp_header p)) bit) packets). lia.
Qed.

Lemma bump_flagged bit p n :
  0 <= n -> n + 1 < 2 ^ 32 ->
  bump (has_tcp p && has_flag (flags (tcp_header p)) bit) n
  = n + (if has_tcp p && has_flag (flags (tcp_header p)) bit then 1 else 0).
Proof.
  intros Hn Hb. unfold bump. destruct (has_tcp p && _); [|lia].
  apply u32_small. lia.
Qed.

Lemma tallied_account_all packets : forall n m f,
  1 <= n -> n + Z.of_nat (length packets) < 2 ^ 64 ->
  m + Z.of_nat (length packets) < 2 ^ 32 ->
  fwd_packets f = n -> tallies_below m f ->
  tallied packets f (account_all packets f).
Proof.
  induction packets as [|p rest IH]; intros n m f Hn Hb Hm Hf Ht.
  - split; cbn [account_all fold_left map gaps sum_lengths fold_right]; unfold flagged;
      cbn [List.filter length]; rewrite ?app_nil_r, ?Z.add_0_r; reflexivity.
  - cbn [length] in Hb, Hm. rewrite Nat2Z.inj_succ in Hb, Hm.
    unfold account_all. cbn [fold_left]. fold (account_all rest (account p f)).
    assert (Hf1 : fwd_packets (account p f) = n + 1).
    { cbn [account fwd_packets]. rewrite Hf. apply u64_small. lia. }
    unfold tallies_below in Ht.
    repeat (apply Forall_cons in Ht as [? Ht]).
    assert (Ht1 : tallies_below (m + 1) (account p f)).
    { unfold tallies_below.
      cbn [account syn_count ack_count fin_count rst_count psh_count urg_count].
      rewrite !bump_flagged by lia.
      repeat (apply Forall_cons; split;
              [destruct (has_tcp p && _); lia|]).
      apply Forall_nil; exact I. }
    destruct (IH (n + 1) (m + 1) (account p f)) as [L B I S A F R P U];
      [lia | lia | lia | exact Hf1 | exact Ht1 |].
    split; rewrite ?flagged_cons.
    + rewrite L. cbn [account fwd_pkt_lengths map]. now rewrite <- app_assoc.
    + rewrite B. cbn [account fwd_bytes]. rewrite u64_add_l.
      unfold sum_lengths. cbn [map fold_right]. f_equal. lia.
    + rewrite I. cbn [account fwd_iat last_seen map gaps].
      rewrite Hf, (u64_small (n + 1)) by lia.
      destruct (Z.ltb_spec 1 (n + 1)); [|lia]. now rewrite <- app_assoc.
    + rewrite S. cbn [account syn_count]. rewrite bump_flagged by lia. lia.
    + rewrite A. cbn [account ack_count]. rewrite bump_flagged by lia. lia.
    + rewrite F. cbn [account fin_count]. rewrite bump_flagged by lia. lia.
    + rewrite R. cbn [account rst_count]. rewrite bump_flagged by lia. lia.
    + rewrite P. cbn [account psh_count]. rewrite bump_flagged by lia. lia.
    + rewrite U. cbn [account urg_count]. rewrite bump_flagged by lia. lia.
Qed.

Lemma fwd_bytes_wrapped packets : forall f,
  u64 (fwd_bytes f) = fwd_bytes f ->
  u64 (fwd_bytes (account_all packets f)) = fwd_bytes (account_all packets f).
Proof.
  induction packets as [|p rest IH]; intros f Hf; [exact Hf|].
  unfold account_all. cbn [fold_left]. fold (account_all rest (account p f)).
  apply IH. cbn [account fwd_bytes]. unfold u64, wrap. apply Zmod_mod.
Qed.

(** X12.  What a flow tallies.  In a run over packets that share one
    5-tuple, the first of which creates the flow, fewer than 2^32 in all:
    [fwd_pkt_lengths] lists the captured lengths of the packets in order,
    [fwd_bytes] is their sum (modulo 2^64), [fwd_iat] holds for each packet
    after the first the whole milliseconds since the packet before it,
    divided by 1000.0, and each flag counter is the number of packets that
    have a TCP header with the flag set. *)
Theorem flow_tallies (clock : Clock) (packet : ParsedPacket)
    (rest : list (Clock * ParsedPacket)) (t : ConnectionTracker) :
  let key := create_key packet in
  let packets := packet :: map snd rest in
  Forall (fun ev => create_key ev.2 = key) rest ->
  connections_ t !! key = None ->
  Z.of_nat (length packets) < 2 ^ 32 ->
  exists f,
    connections_ (update_all ((clock, packet) :: rest) t) !! key = Some f
    /\ fwd_pkt_lengths f = map raw_length packets
    /\ fwd_bytes f = u64 (sum_lengths packets)
    /\ fwd_iat f = gaps (timestamp packet) (map timestamp (map snd rest))
    /\ syn_count f = flagged TCP_SYN packets
    /\ ack_count f = flagged TCP_ACK packets
    /\ fin_count f = flagged TCP_FIN packets
    /\ rst_count f = flagged TCP_RST packets
    /\ psh_count f = flagged TCP_PSH packets
    /\ urg_count f = flagged TCP_URG packets.
Proof.
  cbv zeta. intros Hkey Hk Hb.
  eexists. split; [apply update_all_absent; [reflexivity | exact Hkey | exact Hk]|].
  cbn [length] in Hb. rewrite Nat2Z.inj_succ in Hb.
  unfold account_all. cbn [fold_left].
  set (f1 := account packet (new_flow (timestamp packet))).
  fold (account_all (map snd rest) f1).
  assert (Ht1 : tallies_below 1 f1).
  { unfold tallies_below, f1.
    cbn [account new_flow syn_count ack_count fin_count rst_count psh_count urg_count].
    rewrite !bump_flagged by lia.
    repeat (apply Forall_cons; split; [destruct (has_tcp packet && _); lia|]).
    apply Forall_nil; exact I. }
  destruct (tallied_account_all (map snd rest) 1 1 f1) as [L B I S A F R P U];
    [lia | lia | lia | reflexivity | exact Ht1 |].
  rewrite <- (fwd_bytes_wrapped (map snd rest) f1) by
    (unfold f1; cbn [account fwd_bytes]; unfold u64, wrap; apply Zmod_mod).
  rewrite L, B, I, S, A, F, R, P, U, !flagged_cons.
  unfold f1.
  cbn [account new_flow fwd_pkt_lengths fwd_bytes fwd_iat last_seen fwd_packets
       syn_count ack_count fin_count rst_count psh_count urg_count app map].
  rewrite !bump_flagged by lia. rewrite u64_add_l.
  change (1 <? u64 (0 + 1)) with false. cbv iota.
  unfold sum_lengths. cbn [map fold_right app].
  repeat split; try reflexivity; try (f_equal; lia).
Qed.

(** *** Expiry scans *)

(** X13.  A second [cleanup_expired] at the same clock readings changes
    nothing, and one scan moves connections from the table to
    [expired_connections_] without losing any: the active and the expired
    connections add up (modulo 2^64) to what they added up to before. *)
Theorem cleanup_expired_settles (clock : Clock) (t : ConnectionTracker) :
  cleanup_expired clock (cleanup_expired clock t) = cleanup_expired clock t
  /\ u64 (get_active_connections (cleanup_expired clock t)
          + expired_connections_ (cleanup_expired clock t))
     = u64 (get_active_connections t + expired_connections_ t).
Proof.
  split.
  - assert (Hid : filter (survives (timeout_seconds_ (cleanup_expired clock t)) clock)
                    (connections_ (cleanup_expired clock t))
                  = connections_ (cleanup_expired clock t)).
    { apply map_filter_id. intros k f Hf.
      apply cleanup_lookup_Some in Hf as [_ He]. exact He. }
    unfold cleanup_expired at 1. rewrite Hid, Z.sub_diag, Z.add_0_r.
    unfold cleanup_expired.
    cbn [connections_ timeout_seconds_ max_connections_ total_connections_
         expired_connections_].
    f_equal. unfold u64, wrap. apply Zmod_mod.
  - unfold cleanup_expired, get_active_connections.
    cbn [connections_ expired_connections_].
    rewrite Z.add_comm, u64_add_l. f_equal. lia.
Qed.

End WithHost.

Import Vectors.

(** Three updates, a scan and one more update on a little-endian host. *)
Lemma connections_are_active_or_expired_witness :
  let t := @run x86 [CallUpdate (flow_ev 1 now).1 (flow_ev 1 now).2;
                     CallUpdate (flow_ev 2 now).1 (flow_ev 2 now).2;
                     CallCleanup (fun _ => 200 * second + now);
                     CallUpdate (flow_ev 3 now).1 (flow_ev 3 now).2]
             (init 120 2) in
  total_connections_ t = get_active_connections t + expired_connections_ t.
Proof.
  refine (proj2 (proj2 (proj2 (@connections_are_active_or_expired x86
            [CallUpdate (flow_ev 1 now).1 (flow_ev 1 now).2;
             CallUpdate (flow_ev 2 now).1 (flow_ev 2 now).2;
             CallCleanup (fun _ => 200 * second + now);
             CallUpdate (flow_ev 3 now).1 (flow_ev 3 now).2] 120 2 _))) _).
  - cbn. lia.
  - reflexivity.
Defined.

(** Two packets of one 5-tuple, a second apart. *)
Lemma flow_tallies_witness :
  exists f,
    connections_ (@update_all x86 [flow_ev 1 now; flow_ev 1 (now + second)]
                    (init 120 100))
      !! @create_key x86 (flow_ev 1 now).2 = Some f
    /\ fwd_pkt_lengths f = [45; 45].
Proof.
  destruct (@flow_tallies x86 (flow_ev 1 now).1 (flow_ev 1 now).2
              [flow_ev 1 (now + second)] (init 120 100)) as (f & Hf & Hl & _).
  - repeat constructor.
  - reflexivity.
  - cbn. lia.
  - exists f. split; [exact Hf | exact Hl].
Defined.

End TrackerApiProofs.

(** ** The rule engine: conditions, counters, switches and caches *)

Module RulesSpecProofs.
Import Types Rules RulesProofs RulesSpec.

(** *** Substrings *)

Lemma append_cons c (p b : string) : String c p +:+ b = String c (p +:+ b).
Proof. reflexivity. Qed.

Lemma append_nil (b : string) : EmptyString +:+ b = b.
Proof. reflexivity. Qed.

Lemma prefix_iff p : forall s,
  String.prefix p s = true <-> exists b, s = p +:+ b.
Proof.
  induction p as [|c p IH]; intros s.
  - split; [intros _; now exists s | intros _; destruct s; reflexivity].
  - destruct s as [|c' s]; cbn.
    + split; [discriminate | intros [b Hb]; rewrite append_cons in Hb; discriminate].
    + destruct (Ascii.ascii_dec c c') as [->|Hne].
      * rewrite IH. split; intros [b Hb]; exists b.
        -- rewrite append_cons. now rewrite Hb.
        -- rewrite append_cons in Hb. now injection Hb.
      * split; [discriminate | intros [b Hb]; rewrite append_cons in Hb; congruence].
Qed.

Lemma str_contains_iff p : forall s,
  str_contains s p = true <-> substring_of p s.
Proof.
  unfold substring_of. induction s as [|c s IH].
  - cbn [str_contains]. rewrite orb_false_r, prefix_iff. split.
    + intros [b Hb]. now exists EmptyString, b.
    + intros (a & b & Hab). destruct a; [now exists b|].
      rewrite append_cons in Hab. discriminate.
  - cbn [str_contains]. rewrite orb_true_iff, prefix_iff, IH. split.
    + intros [[b Hb]|(a & b & Hab)].
      * now exists EmptyString, b.
      * exists (String c a), b. rewrite append_cons. now rewrite Hab.
    + intros (a & b & Hab). destruct a as [|c' a].
      * left. now exists b.
      * right. exists a, b. rewrite append_cons in Hab. congruence.
Qed.


(** *** The checks of [evaluate], one by one *)

Section WithEnv.
Context `{RegexLib} `{Host}.

Lemma guard_enabled rule : negb (enabled rule) = false <-> enabled rule = true.
Proof. destruct (enabled rule); cbn; split; congruence. Qed.

Lemma guard_protocol rule proto (b : bool) :
  bool_decide (protocol rule = proto) && negb b = false
  <-> (protocol rule = proto -> b = true).
Proof.
  destruct (decide (protocol rule = proto)) as [E|NE].
  - rewrite bool_decide_true by exact E. destruct b; cbn; split; auto.
    intros Hb. specialize (Hb E). discriminate.
  - rewrite bool_decide_false by exact NE. cbn. split; [tauto | reflexivity].
Qed.

Lemma guard_ip ip filter :
  negb (String.eqb filter "any") && negb (match_ip_filter ip filter) = false
  <-> (filter = "any"%string \/ filter = ip).
Proof.
  unfold match_ip_filter.
  destruct (String.eqb_spec filter "any") as [E|NE]; cbn;
    [split; [now left | reflexivity]|].
  destruct (String.eqb_spec filter ip) as [E|NE']; cbn.
  - split; [now right | reflexivity].
  - split; [discriminate | intros [?|?]; contradiction].
Qed.

Lemma guard_port port ports :
  negb (is_nil ports) && negb (match_port port ports) = false
  <-> (ports = [] \/ In port ports).
Proof.
  destruct ports as [|x rest]; [cbn; split; [now left | reflexivity]|].
  unfold match_port, is_nil. cbn [negb andb].
  destruct (existsb (Z.eqb port) (x :: rest)) eqn:E; cbn [negb].
  - split; [|reflexivity]. intros _. right.
    apply existsb_exists in E as (y & Hy & Hxy). apply Z.eqb_eq in Hxy. now subst.
  - split; [discriminate|]. intros [?|Hin]; [discriminate|].
    assert (existsb (Z.eqb port) (x :: rest) = true); [|congruence].
    apply existsb_exists. exists port. split; [exact Hin | apply Z.eqb_refl].
Qed.

Lemma guard_flags (tcp : bool) fl mask value :
  tcp && negb (mask =? 0) && negb (match_tcp_flags fl mask value) = false
  <-> (tcp = true -> mask <> 0 -> Z.land fl mask = value).
Proof.
  unfold match_tcp_flags.
  destruct tcp; cbn [andb]; [|split; [discriminate | reflexivity]].
  destruct (Z.eqb_spec mask 0) as [E|NE]; cbn [negb andb];
    [split; [contradiction | reflexivity]|].
  destruct (Z.eqb_spec (Z.land fl mask) value) as [E|NE']; cbn [negb].
  - split; [auto | reflexivity].
  - split; [discriminate|]. intros Hv. specialize (Hv eq_refl NE). contradiction.
Qed.

(** *** The content check *)

Lemma match_one packet pattern p :
  payload packet = Some p -> 0 < payload_length packet ->
  match_content (payload packet) (payload_length packet) [pattern] = true
  <-> contains_pattern packet pattern.
Proof.
  intros Hp Hl. unfold match_content, contains_pattern. rewrite Hp.
  cbn [is_nil orb existsb].
  destruct (Z.eqb_spec (payload_length packet) 0) as [?|_]; [lia|].
  rewrite orb_false_r, str_contains_iff. split.
  - intros Hs. exists p. now repeat split.
  - intros (p' & [= <-] & _ & Hs). exact Hs.
Qed.

Lemma existsb_same {A} (f g : A -> bool) (l : list A) :
  (forall x, f x = g x) -> existsb f l = existsb g l.
Proof.
  intros Hfg. induction l as [|x rest IH]; [reflexivity|].
  cbn [existsb]. now rewrite Hfg, IH.
Qed.

Lemma match_any packet patterns p :
  payload packet = Some p -> 0 < payload_length packet ->
  match_content (payload packet) (payload_length packet) patterns
  = existsb (fun pattern =>
               match_content (payload packet) (payload_length packet) [pattern])
            patterns.
Proof.
  intros Hp Hl. unfold match_content. rewrite Hp.
  destruct (Z.eqb_spec (payload_length packet) 0) as [?|_]; [lia|].
  cbn [is_nil orb existsb]. rewrite orb_false_r.
  destruct patterns as [|x rest]; [reflexivity|]. cbn [is_nil].
  apply existsb_same. intros pattern. now rewrite orb_false_r.
Qed.

Lemma find_first {A} (F : A -> bool) (l : list A) x :
  List.find F l = Some x
  <-> exists l1 l2, l = l1 ++ x :: l2 /\ F x = true
                    /\ Forall (fun y => F y = false) l1.
Proof.
  induction l as [|y rest IH]; cbn [List.find].
  - split; [discriminate|]. intros (l1 & l2 & E & _). destruct l1; discriminate.
  - destruct (F y) eqn:Fy.
    + split.
      * intros [= <-]. exists [], rest. repeat split; [exact Fy | constructor].
      * intros (l1 & l2 & E & Fx & Hl1). destruct l1 as [|z l1].
        -- cbn in E. congruence.
        -- cbn in E. injection E as <- _. apply Forall_cons in Hl1 as [Fz _].
           congruence.
    + rewrite IH. split.
      * intros (l1 & l2 & -> & Fx & Hl1). exists (y :: l1), l2.
        repeat split; [exact Fx | now constructor].
      * intros (l1 & l2 & E & Fx & Hl1). destruct l1 as [|z l1].
        -- cbn in E. injection E as -> _. congruence.
        -- cbn in E. injection E as -> ->. apply Forall_cons in Hl1 as [_ Hl1].
           now exists l1, l2.
Qed.

Lemma content_check packet rule matched :
  (if is_nil (content_patterns rule) then Some EmptyString
   else if bool_decide (is_Some (payload packet)) && (0 <? payload_length packet)
   then
     if negb (match_content (payload packet) (payload_length packet)
                (content_patterns rule))
     then None
     else
       Some (default EmptyString
               (List.find
                  (fun pattern =>
                     match_content (payload packet) (payload_length packet)
                       [pattern])
                  (content_patterns rule)))
   else None) = Some matched
  <-> ((content_patterns rule = [] /\ matched = EmptyString)
       \/ (exists l1 l2,
             content_patterns rule = l1 ++ matched :: l2
             /\ contains_pattern packet matched
             /\ Forall (fun p => ~ contains_pattern packet p) l1)).
Proof.
  set (F := fun pattern =>
              match_content (payload packet) (payload_length packet) [pattern]).
  destruct (content_patterns rule) as [|x rest] eqn:Hcp; cbn [is_nil].
  { split.
    - intros [= <-]. now left.
    - intros [[_ ->]|(l1 & l2 & E & _)]; [reflexivity|].
      destruct l1; discriminate. }
  destruct (payload packet) as [p|] eqn:Hp.
  2:{ rewrite bool_decide_false by (intros [? ?]; discriminate). cbn [andb].
      split; [discriminate|].
      intros [[? _]|(l1 & l2 & _ & (p & Hp' & _) & _)]; congruence. }
  rewrite bool_decide_true by (now exists p).
  cbn [andb]. destruct (Z.ltb_spec 0 (payload_length packet)) as [Hl|Hl].
  2:{ split; [discriminate|].
      intros [[? _]|(l1 & l2 & _ & (p' & _ & Hl' & _) & _)]; [discriminate|lia]. }
  assert (Hone : forall pattern, F pattern = true <-> contains_pattern packet pattern).
  { intros pattern. unfold F. rewrite <- Hp. apply (match_one packet pattern p); assumption. }
  assert (Hnone : forall l, Forall (fun y => F y = false) l
                            <-> Forall (fun y => ~ contains_pattern packet y) l).
  { intros l. rewrite !List.Forall_forall. split; intros Hf y Hy.
    - intros Hc. apply Hone in Hc. specialize (Hf y Hy). congruence.
    - destruct (F y) eqn:Fy; [|reflexivity].
      apply Hone in Fy. now apply Hf in Fy. }
  assert (Hany : match_content (Some p) (payload_length packet) (x :: rest)
                 = existsb F (x :: rest)).
  { pose proof (match_any packet (x :: rest) p Hp Hl) as Hany.
    rewrite Hp in Hany. exact Hany. }
  rewrite Hany.
  destruct (existsb F (x :: rest)) eqn:Hex; cbn [negb].
  - apply existsb_exists in Hex as (y & Hy & Fy).
    destruct (List.find F (x :: rest)) as [z|] eqn:Hfind.
    2:{ exfalso. pose proof (List.find_none F _ Hfind y Hy). congruence. }
    cbn [default]. split.
    + intros [= <-]. right. apply find_first in Hfind as (l1 & l2 & E & Fz & Hl1).
      exists l1, l2. repeat split; [exact E | now apply Hone | now apply Hnone].
    + intros [[? _]|(l1 & l2 & E & Hc & Hl1)]; [discriminate|].
      assert (Hf : List.find F (x :: rest) = Some matched).
      { apply find_first. exists l1, l2.
        repeat split; [exact E | now apply Hone | now apply Hnone]. }
      transitivity (List.find F (x :: rest)); [symmetry; exact Hfind | exact Hf].
  - split; [discriminate|].
    intros [[? _]|(l1 & l2 & E & Hc & _)]; [discriminate|].
    assert (existsb F (x :: rest) = true); [|congruence].
    apply existsb_exists. exists matched. split; [|now apply Hone].
    rewrite E. apply in_or_app. right. now left.
Qed.

Lemma check_rule_sound packet rule matched :
  check_rule packet rule = Some matched -> conditions packet rule matched.
Proof.
  unfold check_rule. intros Hc.
  destruct (negb (enabled rule)) eqn:G1; [discriminate|].
  destruct (bool_decide (protocol rule = P_TCP) && _) eqn:G2; [discriminate|].
  destruct (bool_decide (protocol rule = P_UDP) && _) eqn:G3; [discriminate|].
  destruct (negb (String.eqb (src_ip_filter rule) "any") && _) eqn:G4;
    [discriminate|].
  destruct (negb (String.eqb (dst_ip_filter rule) "any") && _) eqn:G5;
    [discriminate|].
  destruct (negb (is_nil (src_ports rule)) && _) eqn:G6; [discriminate|].
  destruct (negb (is_nil (dst_ports rule)) && _) eqn:G7; [discriminate|].
  destruct (has_tcp packet && negb (tcp_flags_mask rule =? 0) && _) eqn:G8;
    [discriminate|].
  split.
  - now apply guard_enabled.
  - now apply guard_protocol.
  - now apply guard_protocol.
  - now apply guard_ip.
  - now apply guard_ip.
  - now apply guard_port.
  - now apply guard_port.
  - now apply guard_flags.
  - now apply content_check.
Qed.

Lemma check_rule_complete packet rule matched :
  conditions packet rule matched -> check_rule packet rule = Some matched.
Proof.
  intros [C1 C2 C3 C4 C5 C6 C7 C8 C9]. unfold check_rule.
  apply guard_enabled in C1. apply guard_protocol in C2, C3.
  apply guard_ip in C4, C5. apply guard_port in C6, C7. apply guard_flags in C8.
  rewrite C1, C2, C3, C4, C5, C6, C7, C8. now apply content_check.
Qed.

(** X14.  When a rule raises an alert.  [evaluate] reaches line 206 for a
    rule and a packet, with [matched] as the matched content, exactly when
    the rule is enabled; a TCP (UDP) rule meets a packet with a TCP (UDP)
    header, while rules of any other protocol are not compared with the
    packet's protocol; each address filter is "any" or the printed address;
    each port list is empty or holds the packet's port; on a packet with a
    TCP header a non-zero flag mask selects the rule's flag value; and the
    rule has no content pattern and [matched] is empty, or [matched] is the
    first of its patterns that occurs, letter case apart, in the first 1024
    bytes of a non-empty payload. *)
Theorem check_rule_iff_conditions packet rule matched :
  check_rule packet rule = Some matched <-> conditions packet rule matched.
Proof. split; [apply check_rule_sound | apply check_rule_complete]. Qed.

(** *** What an alert says *)

Lemma eval_rules_alerts (Q : Alert.t -> Prop) packet rules :
  (forall id rule matched,
     In rule rules -> check_rule packet rule = Some matched ->
     Q (Alert.mk id (timestamp packet) (rule_id rule) (name rule)
          (severity rule) (packet_id packet) (get_src_ip packet)
          (get_dst_ip packet) (get_src_port packet) (get_dst_port packet)
          (get_protocol packet) (description rule) matched)) ->
  forall acc e, Forall Q acc -> Forall Q (eval_rules packet rules acc e).1.
Proof.
  induction rules as [|rule rest IH]; intros HQ acc e Hacc; [exact Hacc|].
  cbn [eval_rules].
  assert (HQ' : forall id r m, In r rest -> check_rule packet r = Some m ->
                  Q (Alert.mk id (timestamp packet) (rule_id r) (name r)
                       (severity r) (packet_id packet) (get_src_ip packet)
                       (get_dst_ip packet) (get_src_port packet)
                       (get_dst_port packet) (get_protocol packet)
                       (description r) m)).
  { intros id r m Hr. apply HQ. now right. }
  destruct (check_rule packet rule) as [mc|] eqn:Hc; [|now apply IH].
  unfold create_alert. apply IH; [exact HQ'|].
  apply Forall_app. split; [exact Hacc|].
  apply Forall_cons; split; [|apply Forall_nil; exact I].
  apply HQ; [now left | exact Hc].
Qed.

Lemma evaluate_alerts (Q : Alert.t -> Prop) packet e :
  (forall id rule matched,
     In rule (rules_ e) -> check_rule packet rule = Some matched ->
     Q (Alert.mk id (timestamp packet) (rule_id rule) (name rule)
          (severity rule) (packet_id packet) (get_src_ip packet)
          (get_dst_ip packet) (get_src_port packet) (get_dst_port packet)
          (get_protocol packet) (description rule) matched)) ->
  Forall Q (evaluate packet e).1.
Proof.
  intros HQ. unfold evaluate. cbn [rules_].
  match goal with
  | |- context [eval_rules packet ?rs ?a ?e'] =>
      pose proof (eval_rules_alerts Q packet rs HQ a e' (List.Forall_nil Q)) as Hs;
        destruct (eval_rules packet rs a e') as [alerts e1]
  end.
  exact Hs.
Qed.

(** X15.  What an alert says.  Every alert that [evaluate] returns for a
    packet carries the packet's id, timestamp, printed addresses, ports and
    protocol name, and the id, name, severity and description of a rule of
    the engine whose conditions the packet meets, with the alert's
    [matched_content] as the matched pattern. *)
Theorem alerts_describe_packet_and_rule (packet : ParsedPacket) (e : RuleEngine) :
  Forall (fun a =>
            Alert.packet_id a = packet_id packet
            /\ Alert.timestamp a = timestamp packet
            /\ Alert.src_ip a = get_src_ip packet
            /\ Alert.dst_ip a = get_dst_ip packet
            /\ Alert.src_port a = get_src_port packet
            /\ Alert.dst_port a = get_dst_port packet
            /\ Alert.protocol a = get_protocol packet
            /\ exists rule,
                 In rule (rules_ e)
                 /\ alert_rule a = rule_summary rule
                 /\ conditions packet rule (Alert.matched_content a))
         (evaluate packet e).1.
Proof.
  apply evaluate_alerts. intros id rule matched Hin Hc. cbn.
  do 7 (split; [reflexivity|]). exists rule.
  split; [exact Hin|]. split; [reflexivity|]. now apply check_rule_sound.
Qed.

(** *** The counters of the engine *)

Lemma eval_rules_engine packet rules : forall all k g acc n,
  0 <= n -> 1 + n + Z.of_nat (length rules) < 2 ^ 64 ->
  let new := alerts_from packet rules (1 + n) in
  eval_rules packet rules acc (mkRuleEngine ∅ all k g n (1 + n))
  = (acc ++ new,
     mkRuleEngine ∅ all k g (n + Z.of_nat (length new))
       (1 + (n + Z.of_nat (length new)))).
Proof.
  induction rules as [|rule rest IH]; intros all k g acc n Hn Hb; cbv zeta.
  - cbn. now rewrite app_nil_r, Z.add_0_r.
  - cbn [length] in Hb. rewrite Nat2Z.inj_succ in Hb.
    cbn [eval_rules alerts_from].
    destruct (check_rule packet rule) as [mc|]; [|apply IH; lia].
    unfold create_alert, count_match.
    cbn [next_alert_id_ regex_cache_ rules_ packets_evaluated_
         alerts_generated_ rule_matches_].
    rewrite (u64_small (n + 1)), (u64_small (1 + n + 1)) by lia.
    replace (1 + n + 1) with (1 + (n + 1)) by lia.
    rewrite IH by lia. cbv zeta. cbn [length].
    rewrite <- app_assoc, Nat2Z.inj_succ. cbn [app].
    replace (n + 1 + Z.of_nat (length (alerts_from packet rest (1 + (n + 1)))))
      with (n + Z.succ (Z.of_nat (length (alerts_from packet rest (1 + (n + 1))))))
      by lia.
    replace (1 + n + 1) with (1 + (n + 1)) by lia. reflexivity.
Qed.

Lemma evaluate_engine packet rules k n :
  0 <= k -> k + 1 < 2 ^ 64 ->
  0 <= n -> 1 + n + Z.of_nat (length rules) < 2 ^ 64 ->
  let new := alerts_from packet rules (1 + n) in
  evaluate packet (engine_after rules k n)
  = (new, engine_after rules (k + 1) (n + Z.of_nat (length new))).
Proof.
  intros Hk Hkb Hn Hb. cbv zeta. unfold evaluate, engine_after.
  cbn [next_alert_id_ regex_cache_ rules_ packets_evaluated_
       alerts_generated_ rule_matches_].
  rewrite eval_rules_engine by lia. cbv zeta.
  cbn [app next_alert_id_ regex_cache_ rules_ packets_evaluated_
       alerts_generated_ rule_matches_].
  pose proof (alerts_from_length packet rules (1 + n)).
  rewrite (u64_small (k + 1)), u64_small by lia. reflexivity.
Qed.

Lemma evaluate_all_engine packets rules : forall k n,
  0 <= k -> k + Z.of_nat (length packets) < 2 ^ 64 ->
  0 <= n ->
  1 + n + Z.of_nat (length packets) * Z.of_nat (length rules)
    + Z.of_nat (length rules) < 2 ^ 64 ->
  let r := evaluate_all packets (engine_after rules k n) in
  r.2 = engine_after rules (k + Z.of_nat (length packets))
          (n + Z.of_nat (length r.1))
  /\ Z.of_nat (length r.1)
     <= Z.of_nat (length packets) * Z.of_nat (length rules).
Proof.
  induction packets as [|packet rest IH]; intros k n Hk Hkb Hn Hb; cbv zeta.
  - cbn. rewrite !Z.add_0_r. split; [reflexivity | lia].
  - cbn [length] in Hkb, Hb |- *. rewrite Nat2Z.inj_succ in Hkb, Hb |- *.
    cbn [evaluate_all]. rewrite evaluate_engine by nia.
    pose proof (alerts_from_length packet rules (1 + n)) as Hl.
    set (new := alerts_from packet rules (1 + n)) in *.
    destruct (IH (k + 1) (n + Z.of_nat (length new))) as [I1 I2]; [lia | lia | lia | nia |].
    destruct (evaluate_all rest _) as [more e2]. cbn [fst snd] in *.
    rewrite I1, length_app, Nat2Z.inj_add. split; [f_equal; lia | nia].
Qed.

Lemma add_rules_engine rules : forall l,
  fold_left (fun e r => add_rule r e) rules (engine_after l 0 0)
  = engine_after (l ++ rules) 0 0.
Proof.
  induction rules as [|r rest IH]; intros l; cbn [fold_left].
  - now rewrite app_nil_r.
  - change (add_rule r (engine_after l 0 0)) with (engine_after (l ++ [r]) 0 0).
    rewrite IH, <- app_assoc. reflexivity.
Qed.

(** X16.  The counters of the engine agree with the alerts it returns.
    After a new engine has been given rules with [add_rule] and has
    evaluated packets (few enough for no counter to wrap):
    [packets_evaluated_] is the number of calls, [alerts_generated_] and
    [rule_matches_] are both the number of alerts returned so far,
    [next_alert_id_] is one more, the rule list is as it was given and the
    regular-expression cache is still empty. *)
Theorem engine_counters_agree (rules : list SignatureRule)
    (packets : list ParsedPacket) :
  (Z.of_nat (length packets) + 1) * (Z.of_nat (length rules) + 1) < 2 ^ 64 ->
  let r := evaluate_all packets (fold_left (fun e r => add_rule r e) rules init) in
  packets_evaluated_ r.2 = Z.of_nat (length packets)
  /\ alerts_generated_ r.2 = Z.of_nat (length r.1)
  /\ rule_matches_ r.2 = Z.of_nat (length r.1)
  /\ next_alert_id_ r.2 = 1 + Z.of_nat (length r.1)
  /\ rules_ r.2 = rules
  /\ regex_cache_ r.2 = ∅.
Proof.
  intros Hb. cbv zeta.
  change init with (engine_after [] 0 0). rewrite add_rules_engine.
  cbn [app].
  destruct (evaluate_all_engine packets rules 0 0) as [E _]; try lia.
  cbv zeta in E. rewrite E. unfold engine_after.
  cbn [next_alert_id_ regex_cache_ rules_ packets_evaluated_
       alerts_generated_ rule_matches_].
  repeat split; lia.
Qed.

(** *** Switching a rule on and off *)

Lemma eval_rules_summaries packet rules : forall acc e,
  map alert_rule (eval_rules packet rules acc e).1
  = map alert_rule acc ++ map rule_summary (List.filter (rule_fires packet) rules).
Proof.
  induction rules as [|rule rest IH]; intros acc e.
  - cbn. now rewrite app_nil_r.
  - cbn [eval_rules List.filter]. unfold rule_fires at 1.
    destruct (check_rule packet rule) as [mc|]; [|apply IH].
    unfold create_alert. rewrite IH, map_app. cbn [map app].
    now rewrite <- app_assoc.
Qed.

Lemma evaluate_summaries packet e :
  map alert_rule (evaluate packet e).1
  = map rule_summary (List.filter (rule_fires packet) (rules_ e)).
Proof.
  unfold evaluate. cbn [rules_].
  match goal with
  | |- context [eval_rules packet ?rs ?a ?e'] =>
      pose proof (eval_rules_summaries packet rs a e') as Hs;
        destruct (eval_rules packet rs a e') as [alerts e1]
  end.
  exact Hs.
Qed.

Lemma enable_in_unknown rules id b :
  Forall (fun r => rule_id r <> id) rules -> enable_in rules id b = rules.
Proof.
  induction rules as [|r rest IH]; intros Hf; [reflexivity|].
  apply Forall_cons in Hf as [Hr Hf]. cbn [enable_in].
  destruct (Z.eqb_spec (rule_id r) id); [contradiction|]. now rewrite IH.
Qed.

Lemma enable_in_first l1 : forall r l2 id b,
  rule_id r = id -> Forall (fun x => rule_id x <> id) l1 ->
  enable_in (l1 ++ r :: l2) id b = l1 ++ set_enabled r b :: l2.
Proof.
  induction l1 as [|x rest IH]; intros r l2 id b Hr Hf; cbn [app enable_in].
  - destruct (Z.eqb_spec (rule_id r) id); [reflexivity|contradiction].
  - apply Forall_cons in Hf as [Hx Hf].
    destruct (Z.eqb_spec (rule_id x) id); [contradiction|]. now rewrite IH.
Qed.

Lemma filter_other_rules packet id l :
  Forall (fun x => rule_id x <> id) l ->
  List.filter (other_rule id) (map rule_summary (List.filter (rule_fires packet) l))
  = map rule_summary (List.filter (rule_fires packet) l).
Proof.
  induction l as [|x rest IH]; intros Hf; [reflexivity|].
  apply Forall_cons in Hf as [Hx Hf]. cbn [List.filter].
  destruct (rule_fires packet x); [|now apply IH].
  cbn [map List.filter]. unfold other_rule at 1, rule_summary at 1. cbn [fst snd].
  destruct (Z.eqb_spec (rule_id x) id); [contradiction|]. cbn [negb].
  now rewrite IH.
Qed.

(** X17.  [enable_rule] changes the first rule that has the id and nothing
    else; it leaves the engine alone when no rule has the id.  When the id
    names one rule only, disabling it removes exactly the alerts of that
    rule from what [evaluate] returns for a packet, and giving the rule its
    old switch back restores the engine. *)
Theorem enable_rule_switches_one_rule (e : RuleEngine) (id : Z) (b : bool) :
  (Forall (fun r => rule_id r <> id) (rules_ e) -> enable_rule id b e = e)
  /\ (forall l1 r l2,
        rules_ e = l1 ++ r :: l2 -> rule_id r = id ->
        Forall (fun x => rule_id x <> id) l1 ->
        rules_ (enable_rule id b e) = l1 ++ set_enabled r b :: l2
        /\ enable_rule id (enabled r) (enable_rule id b e) = e
        /\ (Forall (fun x => rule_id x <> id) l2 ->
            forall packet,
              map alert_rule (evaluate packet (enable_rule id false e)).1
              = List.filter (other_rule id)
                  (map alert_rule (evaluate packet e).1))).
Proof.
  split.
  - intros Hf. unfold enable_rule. rewrite (enable_in_unknown _ _ _ Hf).
    now destruct e.
  - intros l1 r l2 Hr Hid Hl1.
    assert (E : forall c, rules_ (enable_rule id c e) = l1 ++ set_enabled r c :: l2).
    { intros c. unfold enable_rule. cbn [rules_]. rewrite Hr.
      now apply enable_in_first. }
    split; [apply E|]. split.
    + unfold enable_rule at 1. rewrite E.
      rewrite (enable_in_first l1 (set_enabled r b) l2 id (enabled r)) by assumption.
      destruct e as [c rs k g m n]. cbn [rules_] in Hr. subst rs.
      unfold enable_rule.
      cbn [regex_cache_ packets_evaluated_ alerts_generated_ rule_matches_
           next_alert_id_].
      f_equal. f_equal. now destruct r.
    + intros Hl2 packet. rewrite !evaluate_summaries, E, Hr.
      rewrite !List.filter_app, !map_app, !List.filter_app.
      rewrite (filter_other_rules packet id l1 Hl1).
      cbn [List.filter]. unfold rule_fires at 2.
      rewrite (check_rule_disabled packet (set_enabled r false)) by reflexivity.
      f_equal.
      destruct (rule_fires packet r).
      * cbn [map List.filter].
        change (other_rule id (rule_summary r)) with (negb (rule_id r =? id)).
        rewrite Hid, Z.eqb_refl. cbn [negb].
        now rewrite (filter_other_rules packet id l2 Hl2).
      * now rewrite (filter_other_rules packet id l2 Hl2).
Qed.

(** *** The cache of compiled regular expressions *)

Lemma consistent_insert cache pattern re :
  consistent cache -> regex_compile pattern = Some re ->
  consistent (<[pattern := re]> cache).
Proof.
  intros Hc Hre p r Hp. destruct (decide (p = pattern)) as [->|Hne].
  - rewrite lookup_insert_eq in Hp. congruence.
  - rewrite lookup_insert_ne in Hp by congruence. now apply Hc.
Qed.

Lemma match_regex_patterns_cache s patterns : forall cache,
  consistent cache ->
  let r := match_regex_patterns s patterns cache in
  consistent r.2 /\ cache ⊆ r.2
  /\ r.1 = (match_regex_patterns s patterns ∅).1.
Proof.
  assert (Hgen : forall cache cache', consistent cache -> consistent cache' ->
            let r := match_regex_patterns s patterns cache in
            consistent r.2 /\ cache ⊆ r.2
            /\ r.1 = (match_regex_patterns s patterns cache').1).
  { induction patterns as [|pattern rest IH]; intros cache cache' Hc Hc'; cbv zeta.
    - cbn. repeat split; [exact Hc | reflexivity].
    - cbn [match_regex_patterns].
      assert (Hsame : forall c, consistent c ->
                match c !! pattern with
                | Some re => regex_compile pattern = Some re
                | None => True
                end).
      { intros c Hcc. destruct (c !! pattern) eqn:E; [now apply Hcc | exact I]. }
      pose proof (Hsame cache Hc) as H1. pose proof (Hsame cache' Hc') as H2.
      destruct (regex_compile pattern) as [re|] eqn:Hre.
      + assert (Hins : forall c, consistent c -> consistent (<[pattern := re]> c))
          by (intros c Hcc; now apply consistent_insert).
        destruct (cache !! pattern) as [re1|] eqn:E1;
          destruct (cache' !! pattern) as [re2|] eqn:E2;
          try (injection H1 as <-); try (injection H2 as <-);
          destruct (regex_search s re) eqn:Hs; cbn [fst snd];
          try (repeat split; solve [exact Hc | reflexivity | now apply Hins
                                   | now apply insert_subseteq]).
        * apply IH; assumption.
        * destruct (IH cache (<[pattern := re]> cache') Hc (Hins _ Hc')) as (I1 & I2 & I3).
          repeat split; assumption.
        * destruct (IH (<[pattern := re]> cache) cache' (Hins _ Hc) Hc') as (I1 & I2 & I3).
          repeat split; try assumption.
          etransitivity; [|exact I2]. now apply insert_subseteq.
        * destruct (IH (<[pattern := re]> cache) (<[pattern := re]> cache')
                      (Hins _ Hc) (Hins _ Hc')) as (I1 & I2 & I3).
          repeat split; try assumption.
          etransitivity; [|exact I2]. now apply insert_subseteq.
      + destruct (cache !! pattern) as [re1|]; [discriminate|].
        destruct (cache' !! pattern) as [re2|]; [discriminate|].
        apply IH; assumption. }
  intros cache Hc. apply Hgen; [exact Hc|].
  intros p r Hp. rewrite lookup_empty in Hp. discriminate.
Qed.

(** X18.  The cache of [match_regex] is transparent.  Called with a cache
    that holds for each pattern the regular expression it compiles to,
    [match_regex] answers what it answers with an empty cache, and leaves
    a cache that still has that property and has lost no entry. *)
Theorem match_regex_cache_is_transparent (payload : option Ptr) (len : Z)
    (patterns : list string) (cache : gmap string regex) :
  consistent cache ->
  let r := match_regex payload len patterns cache in
  r.1 = (match_regex payload len patterns ∅).1
  /\ consistent r.2
  /\ cache ⊆ r.2.
Proof.
  intros Hc. cbv zeta. unfold match_regex.
  destruct payload as [p|]; [|cbn; repeat split; [exact Hc | reflexivity]].
  destruct (is_nil patterns || (len =? 0));
    [cbn; repeat split; [exact Hc | reflexivity]|].
  destruct (match_regex_patterns_cache (payload_str p len) patterns cache Hc)
    as (I1 & I2 & I3).
  repeat split; assumption.
Qed.

End WithEnv.

Import Vectors.

Lemma engine_counters_agree_witness :
  let r := @evaluate_all literal_regex x86
             [packet_of (tcp_frame 2) now; packet_of (udp_frame 1 abc) now]
             (fold_left (fun e r => @add_rule literal_regex r e)
                        [any_rule; regex_rule] (@init literal_regex)) in
  @alerts_generated_ literal_regex r.2 = Z.of_nat (length r.1).
Proof.
  refine (proj1 (proj2 (@engine_counters_agree literal_regex x86
            [any_rule; regex_rule]
            [packet_of (tcp_frame 2) now; packet_of (udp_frame 1 abc) now] _))).
  cbn. lia.
Defined.

Lemma match_regex_cache_is_transparent_witness :
  (@match_regex literal_regex (payload (packet_of (udp_frame 1 abc) now)) 3
     ["ab"%string] {["ab"%string := "ab"%string]}).1
  = (@match_regex literal_regex (payload (packet_of (udp_frame 1 abc) now)) 3
       ["ab"%string] ∅).1.
Proof.
  refine (proj1 (@match_regex_cache_is_transparent literal_regex
            (payload (packet_of (udp_frame 1 abc) now)) 3 ["ab"%string]
            {["ab"%string := "ab"%string]} _)).
  intros p r Hp. apply lookup_singleton_Some in Hp as [<- <-]. reflexivity.
Defined.

End RulesSpecProofs.

(** ** The capture loop and its statistics *)

Module SidsStatsProofs.
Import Types Parser ParserProofs ParserTests ParserShape Sids SidsStats.

Lemma parse_rejected_protocol d len ts st :
  accepted (Some d) len = false ->
  protocol (ip_header (run_rd (parse (Some d) len ts st)).1.1) = 0.
Proof.
  intros Hacc. unfold run_rd, parse, validate_packet. cbn [negb].
  destruct (Z.leb_spec 34 len) as [H34|H34]; cbn [negb]; [|reflexivity].
  rewrite accepted_long in Hacc by lia.
  unfold parse_ethernet.
  destruct (Z.ltb_spec len ETHER_HDR_SIZE) as [?|_];
    [unfold ETHER_HDR_SIZE in *; lia|].
  rd_unfold. fold (ethertype_at d).
  destruct (ethertype_at d =? 2048) eqn:Het; cbn [negb andb] in *; [|reflexivity].
  unfold parse_ipv4.
  destruct (u32 (len - ETHER_HDR_SIZE) <? 20); rd_unfold; [reflexivity|].
  cbn [ptr_add buf off]. fold (ip_version_at d). rewrite Hacc. reflexivity.
Qed.

Lemma classify_parse d len ts st :
  0 <= len < 2 ^ 32 ->
  classify (run_rd (parse (Some d) len ts st)).1.1 = frame_class d len.
Proof.
  intros Hlen. unfold classify, frame_class.
  destruct (accepted (Some d) len) eqn:Hacc.
  - destruct (Z.le_gt_cases 34 len) as [H34|H34];
      [|rewrite accepted_short in Hacc by lia; discriminate].
    pose proof (parse_accepted_fields d len ts st (conj H34 (proj2 Hlen)) Hacc) as Hf.
    cbv zeta in Hf. destruct Hf as (_ & _ & Hp & Htcp & Hudp & _).
    rewrite Htcp, Hudp, Hp. reflexivity.
  - destruct (parse_summary (Some d) len ts st []) as [_ _ _ _ Hc _ _]; [lia|].
    rewrite Hacc in Hc. destruct Hc as (_ & _ & Ht & Hu & _).
    unfold run_rd. rewrite Ht, Hu.
    pose proof (parse_rejected_protocol d len ts st Hacc) as Hp.
    unfold run_rd in Hp. rewrite Hp. reflexivity.
Qed.

Section WithEnv.
Context `{Rules.RegexLib} `{Host}.

Lemma handle_alerts alerts : forall st a,
  alerts_generated st = a -> 0 <= a ->
  a + Z.of_nat (length alerts) < 2 ^ 64 ->
  length (alerts_by_severity st) = 4%nat ->
  fold_right Z.add 0 (alerts_by_severity st) = a ->
  Forall (fun x => 0 <= x) (alerts_by_severity st) ->
  let st' := fold_left (fun st a => handle_alert a st) alerts st in
  alerts_generated st' = a + Z.of_nat (length alerts)
  /\ length (alerts_by_severity st') = 4%nat
  /\ fold_right Z.add 0 (alerts_by_severity st') = a + Z.of_nat (length alerts)
  /\ Forall (fun x => 0 <= x) (alerts_by_severity st')
  /\ total_packets st' = total_packets st
  /\ total_bytes st' = total_bytes st
  /\ tcp_packets st' = tcp_packets st
  /\ udp_packets st' = udp_packets st
  /\ icmp_packets st' = icmp_packets st
  /\ other_packets st' = other_packets st.
Proof.
  induction alerts as [|x rest IH]; intros st a Ha Hn Hb Hlen Hsum Hpos; cbv zeta.
  - cbn [fold_left length]. rewrite Z.add_0_r. repeat split; assumption.
  - cbn [length] in Hb. rewrite Nat2Z.inj_succ in Hb. cbn [fold_left length].
    rewrite Nat2Z.inj_succ.
    destruct (alerts_by_severity st) as [|s0 [|s1 [|s2 [|s3 [|]]]]] eqn:Hsev;
      try discriminate.
    cbn [fold_right] in Hsum.
    repeat (apply Forall_cons in Hpos as [? Hpos]).
    destruct (IH (handle_alert x st) (a + 1)) as (I1 & I2 & I3 & I4 & I5);
      unfold handle_alert; cbn [alerts_generated alerts_by_severity];
      rewrite ?Hsev; try lia.
    + rewrite Ha. apply u64_small. lia.
    + destruct (Rules.Alert.severity x); reflexivity.
    + destruct (Rules.Alert.severity x); cbn [severity_index alter list_alter fold_right];
        rewrite u64_small by lia; lia.
    + destruct (Rules.Alert.severity x); cbn [severity_index alter list_alter];
        repeat (apply Forall_cons; split; [try apply u64_range; lia|]);
        apply Forall_nil; exact I.
    + unfold handle_alert in I1, I2, I3, I4, I5. rewrite Hsev in *.
      replace (a + Z.succ (Z.of_nat (length rest)))
        with (a + 1 + Z.of_nat (length rest)) by lia.
      repeat split; try assumption; apply I5.
Qed.

Lemma count_class_one c n :
  0 <= n -> n + 1 < 2 ^ 64 ->
  count_class c TcpPacket 0 + count_class c UdpPacket 0
  + count_class c IcmpPacket 0 + count_class c OtherPacket 0 = 1
  /\ forall x, count_class c x n = n + count_class c x 0.
Proof.
  intros Hn Hb. split; [destruct c; reflexivity|].
  intros x. destruct c, x; cbn [count_class]; rewrite ?u64_small by lia;
    try reflexivity; try lia; change (u64 (0 + 1)) with 1; lia.
Qed.

Lemma capture_step_consistent rules n a b d len ts s :
  0 <= len < 2 ^ 32 -> 0 <= n -> n + 1 < 2 ^ 64 ->
  0 <= a -> 1 + a + Z.of_nat (length rules) < 2 ^ 64 ->
  consistent_stats rules n a b s ->
  let r := capture_step d len ts s in
  consistent_stats rules (n + 1) (a + Z.of_nat (length r.1)) (b + len) r.2
  /\ (length r.1 <= length rules)%nat.
Proof.
  intros Hlen Hn Hnb Ha Hab [C1 C2 C3 (N1 & N2 & N3 & N4) C4 (S1 & S2 & S3) C5
                              (P1 & P2 & P3)].
  cbv zeta. unfold capture_step.
  destruct (parse_summary (Some d) len ts (parser_ s.1) []) as [_ _ _ _ Hc _ _];
    [lia|].
  unfold run_rd.
  destruct ((parse (Some d) len ts (parser_ s.1) []).1) as [packet p] eqn:Hparse.
  cbn [fst snd] in Hc.
  rewrite C5, (RulesSpecProofs.evaluate_engine packet rules n a) by lia.
  cbv zeta.
  pose proof (RulesProofs.alerts_from_length packet rules (1 + a)) as Hl.
  set (alerts := Rules.alerts_from packet rules (1 + a)) in *.
  cbn [fst snd].
  destruct (handle_alerts alerts (count_packet len packet s.2) a)
    as (A1 & A2 & A3 & A4 & A5 & A6 & A7 & A8 & A9 & A10);
    try (unfold count_packet; cbn [alerts_generated alerts_by_severity]; assumption);
    try lia.
  cbv zeta in A1, A2, A3, A4, A5, A6, A7, A8, A9, A10.
  split; [|exact Hl].
  destruct (count_class_one (classify packet) 0) as [Hone _]; [lia | lia |].
  split; cbn [fst snd parser_ rule_engine_].
  - rewrite A5. unfold count_packet. cbn [total_packets]. rewrite C1.
    apply u64_small. lia.
  - rewrite A6. unfold count_packet. cbn [total_bytes]. rewrite C2.
    unfold u64, wrap. rewrite Zplus_mod_idemp_l. reflexivity.
  - rewrite A7, A8, A9, A10. unfold count_packet.
    cbn [tcp_packets udp_packets icmp_packets other_packets].
    rewrite (proj2 (count_class_one (classify packet) (tcp_packets s.2) N1 ltac:(lia))),
            (proj2 (count_class_one (classify packet) (udp_packets s.2) N2 ltac:(lia))),
            (proj2 (count_class_one (classify packet) (icmp_packets s.2) N3 ltac:(lia))),
            (proj2 (count_class_one (classify packet) (other_packets s.2) N4 ltac:(lia))).
    lia.
  - rewrite A7, A8, A9, A10. unfold count_packet.
    cbn [tcp_packets udp_packets icmp_packets other_packets].
    rewrite (proj2 (count_class_one (classify packet) (tcp_packets s.2) N1 ltac:(lia))),
            (proj2 (count_class_one (classify packet) (udp_packets s.2) N2 ltac:(lia))),
            (proj2 (count_class_one (classify packet) (icmp_packets s.2) N3 ltac:(lia))),
            (proj2 (count_class_one (classify packet) (other_packets s.2) N4 ltac:(lia))).
    destruct (classify packet); cbn [count_class]; change (u64 (0 + 1)) with 1; lia.
  - exact A1.
  - repeat split; assumption.
  - reflexivity.
  - destruct (accepted (Some d) len).
    + destruct Hc as [-> ->]. rewrite u64_small by lia. lia.
    + destruct Hc as (-> & -> & _). rewrite u64_small by lia. lia.
Qed.

Lemma capture_loop_consistent rules frames : forall n a b s,
  Forall (fun f => 0 <= f.1.2 < 2 ^ 32) frames ->
  0 <= n -> n + Z.of_nat (length frames) < 2 ^ 64 ->
  0 <= a ->
  1 + a + Z.of_nat (length frames) * Z.of_nat (length rules)
    + Z.of_nat (length rules) < 2 ^ 64 ->
  consistent_stats rules n a b s ->
  let r := capture_loop frames s in
  consistent_stats rules (n + Z.of_nat (length frames))
    (a + Z.of_nat (length r.1))
    (b + fold_right Z.add 0 (map (fun f => f.1.2) frames)) r.2.
Proof.
  induction frames as [|[[d len] ts] rest IH]; intros n a b s Hf Hn Hnb Ha Hab Hc;
    cbv zeta.
  - cbn. now rewrite !Z.add_0_r.
  - apply Forall_cons in Hf as [Hlen Hf]. cbn [fst snd] in Hlen.
    cbn [length] in Hnb, Hab |- *. rewrite Nat2Z.inj_succ in Hnb, Hab |- *.
    cbn [capture_loop map fold_right fst snd].
    destruct (capture_step_consistent rules n a b d len ts s) as [Hs Hl];
      try assumption; try lia; try nia.
    cbv zeta in Hs, Hl.
    destruct (capture_step d len ts s) as [alerts s1]. cbn [fst snd] in Hs, Hl.
    specialize (IH (n + 1) (a + Z.of_nat (length alerts)) (b + len) s1 Hf).
    cbv zeta in IH.
    destruct (capture_loop rest s1) as [more s2]. cbn [fst snd] in IH |- *.
    rewrite length_app, Nat2Z.inj_add.
    replace (n + Z.succ (Z.of_nat (length rest)))
      with (n + 1 + Z.of_nat (length rest)) by lia.
    replace (a + (Z.of_nat (length alerts) + Z.of_nat (length more)))
      with (a + Z.of_nat (length alerts) + Z.of_nat (length more)) by lia.
    replace (b + (len + fold_right Z.add 0 (map (fun f => f.1.2) rest)))
      with (b + len + fold_right Z.add 0 (map (fun f => f.1.2) rest)) by lia.
    apply IH; try lia; try nia. exact Hs.
Qed.


(** X19.  How the capture loop counts a frame: by [frame_class].  The
    frame goes to the TCP counter when it passes the three checks of
    [parse], its IPv4 protocol byte is 6 and the 32-bit difference
    [length - 14 - 4 * IHL] is at least 20; to the UDP counter likewise
    with protocol byte 17 and 8; to the ICMP counter when it passes the
    checks, is in neither of these cases and its protocol byte is 1; and to
    the counter of other packets in every other case, which takes in the
    frames that [parse] rejects and the frames of protocol 6 or 17 whose
    difference is below 20 or 8.  The difference wraps around when the
    announced IPv4 header is longer than what is left of the capture, so a
    34-byte frame that announces IHL 15 and protocol 6 is counted as TCP
    with no byte after its IPv4 header.  [total_packets] grows by one and
    [total_bytes] by the captured length, both modulo 2^64. *)
Theorem frames_are_counted_by_their_bytes (d : Ptr) (len : Z) (ts : time_point)
    (s : SignatureIDS * Statistics) :
  0 <= len < 2 ^ 32 ->
  let st := (capture_step d len ts s).2.2 in
  let c := frame_class d len in
  tcp_packets st = count_class c TcpPacket (tcp_packets s.2)
  /\ udp_packets st = count_class c UdpPacket (udp_packets s.2)
  /\ icmp_packets st = count_class c IcmpPacket (icmp_packets s.2)
  /\ other_packets st = count_class c OtherPacket (other_packets s.2)
  /\ total_packets st = u64 (total_packets s.2 + 1)
  /\ total_bytes st = u64 (total_bytes s.2 + len).
Proof.
  intros Hlen. cbv zeta. unfold capture_step.
  rewrite <- (classify_parse d len ts (parser_ s.1) Hlen).
  destruct ((run_rd (parse (Some d) len ts (parser_ s.1))).1) as [packet p].
  cbn [fst snd].
  destruct (Rules.evaluate packet (rule_engine_ s.1)) as [alerts e].
  cbn [fst snd].
  assert (Hkeep : forall st0,
            let st' := fold_left (fun st a => handle_alert a st) alerts st0 in
            tcp_packets st' = tcp_packets st0
            /\ udp_packets st' = udp_packets st0
            /\ icmp_packets st' = icmp_packets st0
            /\ other_packets st' = other_packets st0
            /\ total_packets st' = total_packets st0
            /\ total_bytes st' = total_bytes st0).
  { induction alerts as [|x rest IH]; intros st0; cbv zeta; [now repeat split|].
    cbn [fold_left]. destruct (IH (handle_alert x st0)) as (I1 & I2 & I3 & I4 & I5 & I6).
    repeat split; assumption. }
  destruct (Hkeep (count_packet len packet s.2)) as (K1 & K2 & K3 & K4 & K5 & K6).
  rewrite K1, K2, K3, K4, K5, K6. repeat split.
Qed.

(** X20.  The statistics of a capture add up.  After the loop has run over
    frames from the initial state (few enough for no counter to wrap):
    [total_packets] is the number of frames and the sum of the four
    protocol counters; [total_bytes] is the sum of the captured lengths
    modulo 2^64; [alerts_generated] is the number of alerts raised, the sum
    of the four severity counters, and the [alerts_generated_] of the rule
    engine; the engine has evaluated every frame; and the parser's
    [packets_parsed_] and [parse_errors_] add up to the number of frames. *)
Theorem statistics_add_up (uninit : Z -> Z * Z)
    (frames : list (Ptr * Z * time_point)) :
  Forall (fun f => 0 <= f.1.2 < 2 ^ 32) frames ->
  (Z.of_nat (length frames) + 1) * 7 < 2 ^ 64 ->
  let r := capture_loop frames (initialize uninit, stats0) in
  let st := r.2.2 in
  total_packets st = Z.of_nat (length frames)
  /\ tcp_packets st + udp_packets st + icmp_packets st + other_packets st
     = total_packets st
  /\ total_bytes st = u64 (fold_right Z.add 0 (map (fun f => f.1.2) frames))
  /\ alerts_generated st = Z.of_nat (length r.1)
  /\ fold_right Z.add 0 (alerts_by_severity st) = alerts_generated st
  /\ Rules.alerts_generated_ (rule_engine_ r.2.1) = alerts_generated st
  /\ Rules.packets_evaluated_ (rule_engine_ r.2.1) = total_packets st
  /\ packets_parsed_ (parser_ r.2.1) + parse_errors_ (parser_ r.2.1)
     = total_packets st.
Proof.
  intros Hf Hb. cbv zeta.
  assert (Hinit : consistent_stats (Rules.default_rules uninit) 0 0 0
                 (initialize uninit, stats0)).
  { split; cbn [fst snd stats0 total_packets total_bytes tcp_packets udp_packets
                icmp_packets other_packets alerts_generated alerts_by_severity];
      try reflexivity; try lia.
    - split; [reflexivity|]. split; [reflexivity|].
      repeat (apply List.Forall_cons; [lia|]). apply List.Forall_nil.
    - cbn. lia. }
  pose proof (capture_loop_consistent (Rules.default_rules uninit) frames 0 0 0
                (initialize uninit, stats0) Hf) as Hc.
  cbv zeta in Hc.
  destruct Hc as [C1 C2 C3 _ C4 (S1 & S2 & S3) C5 (P1 & _)];
    try assumption; try lia.
  { change (length (Rules.default_rules uninit)) with 6%nat. lia. }
  rewrite !Z.add_0_l in *. rewrite C5. unfold RulesSpec.engine_after.
  cbn [Rules.alerts_generated_ Rules.packets_evaluated_].
  repeat split; try assumption; try lia.
Qed.

End WithEnv.

Import Vectors.

(** A SYN of 54 bytes, and the 34-byte frame that announces IHL 15: each
    is counted as TCP. *)
Lemma frames_are_counted_by_their_bytes_witness :
  tcp_packets (@capture_step literal_regex x86 (capture (tcp_frame 2)) 54 now
                 (@initialize literal_regex (fun _ => (0, 0)), stats0)).2.2 = 1
  /\ tcp_packets (@capture_step literal_regex x86 (capture frame_ihl15) 34 now
                    (@initialize literal_regex (fun _ => (0, 0)), stats0)).2.2 = 1.
Proof.
  split.
  - refine (eq_trans (proj1 (@frames_are_counted_by_their_bytes literal_regex x86
              (capture (tcp_frame 2)) 54 now
              (@initialize literal_regex (fun _ => (0, 0)), stats0) _)) _).
    + lia.
    + reflexivity.
  - refine (eq_trans (proj1 (@frames_are_counted_by_their_bytes literal_regex x86
              (capture frame_ihl15) 34 now
              (@initialize literal_regex (fun _ => (0, 0)), stats0) _)) _).
    + lia.
    + reflexivity.
Defined.

Lemma statistics_add_up_witness :
  total_packets (@capture_loop literal_regex x86
                   [(capture (tcp_frame 2), 54, now);
                    (capture frame_short, 20, now + second)]
                   (@initialize literal_regex (fun _ => (0, 0)), stats0)).2.2 = 2.
Proof.
  refine (proj1 (@statistics_add_up literal_regex x86 (fun _ => (0, 0))
            [(capture (tcp_frame 2), 54, now);
             (capture frame_short, 20, now + second)] _ _)).
  - repeat constructor; cbn; lia.
  - cbn. lia.
Defined.

End SidsStatsProofs.

(** ** From the wire to the alerts *)

Module EndToEnd.
Import Types Parser Wire WireProofs Rules RulesSpec RulesSpecProofs Sids.

(** X21.  Rules are matched against byte-swapped ports.  On a little-endian
    host, every alert that the capture loop raises for a well-formed TCP
    frame carries the two ports of the frame with their bytes swapped, and
    comes from a rule whose port lists are empty or hold the swapped port:
    a rule for port 22 does not see a frame sent to port 22. *)
Theorem port_rules_see_swapped_ports `{RegexLib} `{Host}
    eh ih ip_options bm ts th tcp_options payload (s : SignatureIDS) :
  little_endian = true ->
  wf_eth eh -> wf_ipv4 ih ip_options ->
  Types.protocol ih = IPPROTO_TCP_NUM ->
  wf_tcp th tcp_options ->
  let frame := Wire.tcp_frame eh ih ip_options th tcp_options payload in
  Z.of_nat (length frame) < 2 ^ 32 ->
  let alerts := (process_packet (mkPtr (mkBuffer frame bm) 0)
                   (Z.of_nat (length frame)) ts s).1 in
  Forall (fun a =>
            Alert.src_port a = bswap16 (tcp_src_port th)
            /\ Alert.dst_port a = bswap16 (tcp_dst_port th)
            /\ exists rule,
                 In rule (rules_ (rule_engine_ s))
                 /\ alert_rule a = rule_summary rule
                 /\ (src_ports rule = []
                     \/ In (bswap16 (tcp_src_port th)) (src_ports rule))
                 /\ (dst_ports rule = []
                     \/ In (bswap16 (tcp_dst_port th)) (dst_ports rule)))
         alerts.
Proof.
  intros Hle Heth Hip Hproto Htcp frame Hbound. cbv zeta. subst frame.
  unfold process_packet.
  pose proof (parse_tcp_frame eh ih ip_options bm ts (parser_ s) Heth Hip
                th tcp_options payload Hproto Htcp Hbound) as Hparse.
  cbv zeta in Hparse.
  destruct ((run_rd (parse _ _ ts (parser_ s))).1) as [packet p].
  cbn [fst] in Hparse.
  pose proof (evaluate_alerts
    (fun a =>
       Alert.src_port a = bswap16 (tcp_src_port th)
       /\ Alert.dst_port a = bswap16 (tcp_dst_port th)
       /\ exists rule,
            In rule (rules_ (rule_engine_ s))
            /\ alert_rule a = rule_summary rule
            /\ (src_ports rule = []
                \/ In (bswap16 (tcp_src_port th)) (src_ports rule))
            /\ (dst_ports rule = []
                \/ In (bswap16 (tcp_dst_port th)) (dst_ports rule)))
    packet (rule_engine_ s)) as Hall.
  destruct (evaluate packet (rule_engine_ s)) as [alerts e]. cbn [fst] in *.
  apply Hall. intros id rule matched Hin Hc.
  apply check_rule_sound in Hc as [_ _ _ _ _ Csp Cdp _ _].
  assert (Hsp : get_src_port packet = bswap16 (tcp_src_port th)).
  { rewrite Hparse. unfold get_src_port, ntohs. cbn. now rewrite Hle. }
  assert (Hdp : get_dst_port packet = bswap16 (tcp_dst_port th)).
  { rewrite Hparse. unfold get_dst_port, ntohs. cbn. now rewrite Hle. }
  rewrite Hsp in Csp. rewrite Hdp in Cdp.
  cbn [Alert.src_port Alert.dst_port]. rewrite Hsp, Hdp.
  split; [reflexivity|]. split; [reflexivity|].
  exists rule. repeat split; assumption.
Qed.

Import Vectors WireVectors.

(** A SYN to port 22 on x86, with the rules of [load_rules]: no alert at
    all, although rules 1001 and 1003 are written for it. *)
Lemma port_rules_see_swapped_ports_witness :
  (@process_packet literal_regex x86
     (mkPtr (mkBuffer (Wire.tcp_frame w_eh (w_ih 6) [] w_th [] w_payload)
               (fun _ => 0)) 0)
     57 0 (@initialize literal_regex (fun _ => (0, 0)))).1 = []
  /\ Forall (fun a => Alert.dst_port a = 5632)
       (@process_packet literal_regex x86
          (mkPtr (mkBuffer (Wire.tcp_frame w_eh (w_ih 6) [] w_th [] w_payload)
                    (fun _ => 0)) 0)
          57 0 (@initialize literal_regex (fun _ => (0, 0)))).1.
Proof.
  split; [vm_compute; reflexivity|].
  refine (Forall_impl _ _ _
    (@port_rules_see_swapped_ports literal_regex x86 w_eh (w_ih 6) []
       (fun _ => 0) 0 w_th [] w_payload
       (@initialize literal_regex (fun _ => (0, 0)))
       eq_refl w_eth_wf (w_ipv4_wf 6 _) eq_refl w_tcp_wf _) _).
  - unfold is_byte. lia.
  - cbn. lia.
  - intros a (_ & Hd & _). exact Hd.
Defined.

End EndToEnd.

(** ** The DNS decoder *)

Module DnsProofs.
Import Types ParserProofs Dns.

(** *** A name that points to itself *)

Lemma name_loop_self_pointer data max o : forall fuel s tr,
  0 <= o < max -> self_pointer data o -> ns_offset s = o ->
  (name_loop fuel data max s tr).1 = None.
Proof.
  intros fuel s tr Hoff [Hc Hp]. revert s tr.
  induction fuel as [|fuel IH]; intros s tr Hs; [reflexivity|].
  cbn [name_loop]. rewrite Hs.
  destruct (Z.ltb_spec o max) as [_|?]; [|lia].
  unfold name_step. rd_unfold. rewrite Hs.
  set (len := byte_at (buf data) (off data + o)) in *.
  destruct (Z.eqb_spec len 0) as [E|_].
  { rewrite E in Hc. discriminate. }
  rewrite Hc. change (192 =? 192) with true. cbv iota.
  apply IH. cbn [ns_offset]. exact Hp.
Qed.

(** X22.  A question name that is a compression pointer to itself keeps
    [parse_dns_name] in its loop for ever: no number of turns ends it.
    [decode_dns] reaches that loop for every message of more than 12 bytes
    that [is_dns] accepts and whose byte 12 is such a pointer (the bytes
    C0 0C), so it does not return for such a message either. *)
Theorem self_pointing_name_never_ends (fuel : nat) (payload : Ptr) (length : Z)
    (dns : DNSData) (dec : ProtocolDecoder) :
  12 < length ->
  (run_rd (is_dns payload length)).1 = true ->
  self_pointer payload 12 ->
  (run_rd (parse_dns_name fuel payload 12 length)).1 = None
  /\ (run_rd (decode_dns fuel payload length dns dec)).1 = None.
Proof.
  intros Hlen Hdns Hself.
  assert (Hname : forall tr, (parse_dns_name fuel payload 12 length tr).1 = None).
  { intros tr. unfold parse_dns_name. rd_unfold.
    pose proof (name_loop_self_pointer payload length 12 fuel
                  (mkNameState EmptyString false 12 12) tr) as Hl.
    destruct (name_loop fuel payload length _ tr) as [r tr'].
    cbn [fst] in Hl. rewrite Hl; [reflexivity | lia | exact Hself | reflexivity]. }
  split; [apply Hname|].
  unfold run_rd, decode_dns, is_dns in *.
  destruct (Z.ltb_spec length 12) as [?|_]; [lia|].
  revert Hdns. unfold read_uint16. rd_unfold. cbn [fst]. intros Hdns.
  change (u32 (4 + 1)) with (4 + 1).
  rewrite Hdns. cbn [negb].
  apply andb_true_iff in Hdns as [Hq _]. rewrite Hq.
  destruct (Z.ltb_spec 12 length) as [_|?]; [|lia]. cbn [andb].
  match goal with
  | |- context [parse_dns_name fuel payload 12 length ?tr] =>
      pose proof (Hname tr) as Hn;
        destruct (parse_dns_name fuel payload 12 length tr) as [r tr']
  end.
  cbn [fst] in Hn. subst r. reflexivity.
Qed.

(** *** Names without compression *)

Lemma byte_in pre x post bm :
  0 <= x < 256 ->
  byte_at (mkBuffer (pre ++ x :: post) bm) (Z.of_nat (List.length pre)) = x.
Proof.
  intros Hx. unfold byte_at, buf_len. cbn [bytes].
  rewrite length_app. cbn [List.length].
  destruct (Z.leb_spec 0 (Z.of_nat (List.length pre))); [|lia].
  destruct (Z.ltb_spec (Z.of_nat (List.length pre))
              (Z.of_nat (List.length pre + S (List.length post)))); [|lia].
  cbn [andb]. rewrite Nat2Z.id.
  rewrite app_nth2 by lia. rewrite Nat.sub_diag. cbn [nth].
  now apply u8_small.
Qed.

Lemma load_bytes_in l : forall pre post bm tr,
  Forall (fun b => 0 <= b < 256) l ->
  (load_bytes (mkPtr (mkBuffer (pre ++ l ++ post) bm) 0)
     (Z.of_nat (List.length pre)) (List.length l) tr).1 = l.
Proof.
  induction l as [|x rest IH]; intros pre post bm tr Hl; [reflexivity|].
  apply Forall_cons in Hl as [Hx Hl].
  cbn [List.length load_bytes].
  cbv beta iota delta [mbind rd_bind mret rd_ret load]. cbn [buf off app].
  match goal with
  | |- context [load_bytes ?p ?i ?n ?t] =>
      pose proof (IH (pre ++ [x]) post bm t Hl) as Hrest;
        rewrite <- app_assoc in Hrest; cbn [app] in Hrest;
        rewrite length_app in Hrest; cbn [List.length] in Hrest;
        replace (Z.of_nat (List.length pre + 1)) with i in Hrest by lia;
        destruct (load_bytes p i n t) as [bs tr']
  end.
  cbn [fst] in *. subst bs. f_equal.
  rewrite Z.add_0_l. now apply byte_in.
Qed.

Lemma encode_name_cons l rest :
  encode_name (l :: rest) = Z.of_nat (List.length l) :: l ++ encode_name rest.
Proof.
  unfold encode_name. cbn [map concat encode_label app].
  now rewrite <- app_assoc.
Qed.

Lemma name_loop_S fuel data max_length s :
  name_loop (S fuel) data max_length s
  = if ns_offset s <? max_length then
      '(again, s') ← name_step data max_length s;
      if again : bool then name_loop fuel data max_length s'
      else mret (Some s')
    else mret (Some s).
Proof. reflexivity. Qed.

Lemma name_loop_labels labels : forall pre post bm name orig tr,
  Z.of_nat (List.length (pre ++ encode_name labels ++ post)) < 2 ^ 32 ->
  Forall wf_label labels ->
  (name_loop (S (List.length labels))
     (mkPtr (mkBuffer (pre ++ encode_name labels ++ post) bm) 0)
     (Z.of_nat (List.length (pre ++ encode_name labels ++ post)))
     (mkNameState name false orig (Z.of_nat (List.length pre))) tr).1
  = Some (mkNameState (append_labels name labels) false orig
            (Z.of_nat (List.length pre)
             + Z.of_nat (List.length (encode_name labels)))).
Proof.
  induction labels as [|l rest IH]; intros pre post bm name orig tr Hb Hwf.
  - change (encode_name []) with [0] in *. cbn [app] in *.
    cbn [name_loop List.length ns_offset].
    rewrite length_app in *. cbn [List.length] in *.
    destruct (Z.ltb_spec (Z.of_nat (List.length pre))
                (Z.of_nat (List.length pre + S (List.length post)))); [|lia].
    unfold name_step. rd_unfold. cbn [buf off ns_offset].
    rewrite Z.add_0_l, byte_in by lia.
    change (0 =? 0) with true. cbv iota. cbn [fst].
    rewrite u32_small by lia. reflexivity.
  - apply Forall_cons in Hwf as [(Hpos & Hnp & Hlt & Hbytes) Hwf].
    rewrite encode_name_cons in *.
    cbn [List.length]. rewrite name_loop_S. cbn [ns_offset].
    assert (Hlen : Z.of_nat (List.length (pre ++ (Z.of_nat (List.length l) :: l
                                                 ++ encode_name rest) ++ post))
                   = Z.of_nat (List.length pre) + 1 + Z.of_nat (List.length l)
                     + Z.of_nat (List.length (encode_name rest))
                     + Z.of_nat (List.length post)).
    { rewrite !length_app. cbn [List.length]. rewrite !length_app. lia. }
    rewrite Hlen in *.
    destruct (Z.ltb_spec (Z.of_nat (List.length pre))
                (Z.of_nat (List.length pre) + 1 + Z.of_nat (List.length l)
                 + Z.of_nat (List.length (encode_name rest))
                 + Z.of_nat (List.length post))); [|lia].
    unfold name_step. cbv beta iota delta [mbind rd_bind mret rd_ret load].
    cbn [buf off ns_offset].
    rewrite Z.add_0_l.
    cbn [app]. rewrite byte_in by lia.
    destruct (Z.eqb_spec (Z.of_nat (List.length l)) 0) as [?|_]; [lia|].
    destruct (Z.eqb_spec (Z.land (Z.of_nat (List.length l)) 192) 192) as [?|_];
      [contradiction|].
    rewrite (u32_small (Z.of_nat (List.length pre) + 1)) by lia.
    rewrite (u32_small (Z.of_nat (List.length pre) + 1 + Z.of_nat (List.length l)))
      by lia.
    destruct (Z.ltb_spec
                (Z.of_nat (List.length pre) + 1 + Z.of_nat (List.length l)
                 + Z.of_nat (List.length (encode_name rest))
                 + Z.of_nat (List.length post))
                (Z.of_nat (List.length pre) + 1 + Z.of_nat (List.length l)));
      [lia|].
    rewrite Nat2Z.id.
    assert (Hshape : pre ++ Z.of_nat (List.length l) :: (l ++ encode_name rest) ++ post
                     = (pre ++ [Z.of_nat (List.length l)])
                       ++ l ++ (encode_name rest ++ post)).
    { rewrite <- !app_assoc. reflexivity. }
    rewrite Hshape.
    match goal with
    | |- context [load_bytes ?p ?i ?n ?t] =>
        pose proof (load_bytes_in l (pre ++ [Z.of_nat (List.length l)])
                      (encode_name rest ++ post) bm t Hbytes) as Hl;
          rewrite length_app in Hl; cbn [List.length] in Hl;
          replace (Z.of_nat (List.length pre + 1)) with i in Hl by lia;
          destruct (load_bytes p i n t) as [bs tr']
    end.
    cbn [fst] in Hl. subst bs.
    cbn [fst snd ns_name ns_jumped ns_original_offset ns_offset].
    assert (Hshape2 : (pre ++ [Z.of_nat (List.length l)])
                      ++ l ++ (encode_name rest ++ post)
                      = (pre ++ Z.of_nat (List.length l) :: l)
                        ++ encode_name rest ++ post).
    { rewrite <- !app_assoc. reflexivity. }
    rewrite Hshape2.
    pose proof (IH (pre ++ Z.of_nat (List.length l) :: l) post bm
                  ((if String.eqb name EmptyString then name else name +:+ ".")
                   +:+ string_of_bytes l) orig tr') as Hrest.
    rewrite !length_app in Hrest. cbn [List.length] in Hrest.
    rewrite ?length_app in Hrest.
    replace (Z.of_nat (List.length pre + S (List.length l)))
      with (Z.of_nat (List.length pre) + 1 + Z.of_nat (List.length l))
      in Hrest by lia.
    replace (Z.of_nat (List.length pre + S (List.length l)
                       + (List.length (encode_name rest) + List.length post)))
      with (Z.of_nat (List.length pre) + 1 + Z.of_nat (List.length l)
            + Z.of_nat (List.length (encode_name rest))
            + Z.of_nat (List.length post)) in Hrest by lia.
    rewrite Hrest; [|lia | exact Hwf].
    cbn [append_labels]. f_equal. f_equal. cbn [List.length].
    rewrite length_app. lia.
Qed.

Lemma string_of_bytes_nonempty l :
  (0 < List.length l)%nat -> string_of_bytes l <> EmptyString.
Proof. destruct l; cbn; [lia | discriminate]. Qed.

Lemma append_nonempty (a b : string) : b <> EmptyString -> a +:+ b <> EmptyString.
Proof. destruct a; [now rewrite RulesSpecProofs.append_nil | discriminate]. Qed.

Lemma append_assoc (a b c : string) : (a +:+ b) +:+ c = a +:+ (b +:+ c).
Proof.
  induction a as [|x a IH]; [reflexivity|].
  rewrite !RulesSpecProofs.append_cons. now rewrite IH.
Qed.

Lemma append_labels_dotted labels : forall name,
  Forall wf_label labels -> labels <> [] ->
  append_labels name labels
  = (if String.eqb name EmptyString then name else name +:+ ".")
    +:+ dotted_name labels.
Proof.
  induction labels as [|l rest IH]; intros name Hwf Hne; [contradiction|].
  apply Forall_cons in Hwf as [(Hpos & _) Hwf].
  cbn [append_labels dotted_name].
  destruct rest as [|l' rest']; [reflexivity|].
  rewrite IH by (assumption || discriminate).
  set (pfx := if String.eqb name EmptyString then name else name +:+ ".").
  destruct (String.eqb_spec (pfx +:+ string_of_bytes l) EmptyString) as [E|_].
  { exfalso. revert E. apply append_nonempty. now apply string_of_bytes_nonempty. }
  now rewrite !append_assoc.
Qed.

(** X23.  Names round-trip.  For labels that are not empty and whose
    length byte is not a compression pointer, stored one after the other
    (each behind its length byte) and closed by a zero byte anywhere in a
    message shorter than 2^32 bytes, [parse_dns_name] returns, after one
    turn per label and one for the zero byte, the labels joined by dots
    and the offset of the byte after the zero byte. *)
Theorem parse_dns_name_round_trip (labels : list (list Z)) (pre post : list Z)
    (bm : Z -> Z) :
  let message := pre ++ encode_name labels ++ post in
  Z.of_nat (List.length message) < 2 ^ 32 ->
  Forall wf_label labels ->
  (run_rd (parse_dns_name (S (List.length labels))
             (mkPtr (mkBuffer message bm) 0)
             (Z.of_nat (List.length pre)) (Z.of_nat (List.length message)))).1
  = Some (dotted_name labels,
          Z.of_nat (List.length pre) + Z.of_nat (List.length (encode_name labels))).
Proof.
  cbv zeta. intros Hb Hwf. unfold run_rd, parse_dns_name. rd_unfold.
  pose proof (name_loop_labels labels pre post bm EmptyString
                (Z.of_nat (List.length pre)) [] Hb Hwf) as Hl.
  destruct (name_loop _ _ _ _ []) as [r tr']. cbn [fst] in *. subst r.
  cbn [ns_name ns_jumped ns_offset]. f_equal. f_equal.
  destruct labels as [|l rest]; [reflexivity|].
  rewrite append_labels_dotted by (assumption || discriminate). reflexivity.
Qed.

Import Vectors.

Lemma parse_dns_name_round_trip_witness :
  (run_rd (parse_dns_name 3
             (mkPtr (mkBuffer ([7; 7] ++ encode_name [[119; 119; 119]; [97; 98]] ++ [1])
                       (fun _ => 0)) 0) 2 11)).1
  = Some ("www.ab"%string, 10).
Proof.
  refine (parse_dns_name_round_trip [[119; 119; 119]; [97; 98]] [7; 7] [1]
            (fun _ => 0) _ _).
  - cbn. lia.
  - repeat (apply List.Forall_cons;
            [unfold wf_label; cbn;
             split; [lia|]; split; [discriminate|]; split; [lia|];
             repeat (apply List.Forall_cons; [lia|]); apply List.Forall_nil|]).
    apply List.Forall_nil.
Defined.

Lemma self_pointing_name_never_ends_witness :
  (run_rd (decode_dns 1000 (capture looping_query) 14
             (mkDNSData 0 false false 0 EmptyString 0 0 [] 0 0 0) Dns.init)).1
  = None.
Proof.
  refine (proj2 (self_pointing_name_never_ends 1000 (capture looping_query) 14
            (mkDNSData 0 false false 0 EmptyString 0 0 [] 0 0 0) Dns.init _ _ _)).
  - lia.
  - reflexivity.
  - split; reflexivity.
Defined.

End DnsProofs.

(** *** A query, encoded and decoded *)

Module DnsQueryProofs.
Import Types ParserProofs Dns DnsProofs.

Lemma byte_at_nth bs bm k :
  0 <= k < Z.of_nat (List.length bs) ->
  byte_at (mkBuffer bs bm) k = u8 (nth (Z.to_nat k) bs 0).
Proof.
  intros Hk. unfold byte_at, buf_len. cbn [bytes].
  destruct (Z.leb_spec 0 k); [|lia].
  destruct (Z.ltb_spec k (Z.of_nat (List.length bs))); [|lia].
  reflexivity.
Qed.

Lemma be16_join x :
  0 <= x < 2 ^ 16 ->
  Z.lor (Z.shiftl (u8 (Z.shiftr x 8)) 8) (u8 (Z.land x 255)) = x.
Proof. apply WireProofs.join16. Qed.

Lemma word_in pre x post bm :
  0 <= x < 2 ^ 16 ->
  Z.lor (Z.shiftl (byte_at (mkBuffer (pre ++ Wire.be16 x ++ post) bm)
                     (Z.of_nat (List.length pre))) 8)
        (byte_at (mkBuffer (pre ++ Wire.be16 x ++ post) bm)
           (Z.of_nat (List.length pre) + 1)) = x.
Proof.
  intros Hx. unfold Wire.be16.
  rewrite !byte_at_nth by (rewrite !length_app; cbn [List.length]; lia).
  replace (Z.to_nat (Z.of_nat (List.length pre) + 1))
    with (List.length pre + 1)%nat by lia.
  rewrite Nat2Z.id.
  rewrite (app_nth2 pre _ 0 (n := List.length pre)) by lia.
  rewrite (app_nth2 pre _ 0 (n := (List.length pre + 1)%nat)) by lia.
  replace (List.length pre - List.length pre)%nat with 0%nat by lia.
  replace (List.length pre + 1 - List.length pre)%nat with 1%nat by lia.
  cbn [app nth]. now apply be16_join.
Qed.

Lemma read_uint16_in pre x post bm tr :
  0 <= x < 2 ^ 16 ->
  Z.of_nat (List.length pre) + 1 < 2 ^ 32 ->
  (read_uint16 (mkPtr (mkBuffer (pre ++ Wire.be16 x ++ post) bm) 0)
     (Z.of_nat (List.length pre)) tr).1 = x.
Proof.
  intros Hx Hb. unfold read_uint16. rd_unfold. cbn [fst buf off].
  rewrite u32_small by lia. rewrite !Z.add_0_l. now apply word_in.
Qed.


Lemma parse_dns_name_labels labels pre post bm tr :
  Z.of_nat (List.length (pre ++ encode_name labels ++ post)) < 2 ^ 32 ->
  Forall wf_label labels ->
  (parse_dns_name (S (List.length labels))
     (mkPtr (mkBuffer (pre ++ encode_name labels ++ post) bm) 0)
     (Z.of_nat (List.length pre))
     (Z.of_nat (List.length (pre ++ encode_name labels ++ post))) tr).1
  = Some (dotted_name labels,
          Z.of_nat (List.length pre) + Z.of_nat (List.length (encode_name labels))).
Proof.
  intros Hb Hwf. unfold parse_dns_name.
  cbv beta iota delta [mbind rd_bind mret rd_ret].
  pose proof (name_loop_labels labels pre post bm EmptyString
                (Z.of_nat (List.length pre)) tr Hb Hwf) as Hl.
  destruct (name_loop _ _ _ _ tr) as [r tr']. cbn [fst] in *. subst r.
  cbn [ns_name ns_jumped ns_offset]. f_equal. f_equal.
  destruct labels as [|l rest]; [reflexivity|].
  rewrite append_labels_dotted by (assumption || discriminate). reflexivity.
Qed.

Ltac step_with lemma :=
  match goal with
  | |- context [let '(_, _) := ?f ?tr in _] =>
      let E := fresh "E" in
      let a := fresh "a" in
      let t := fresh "t" in
      pose proof (lemma tr) as E; cbv beta in E;
      match type of E with _ = ?v => change ((f tr).1 = v) in E end;
      destruct (f tr) as [a t]; cbn [fst] in E; subst a; cbv beta iota
  end.

Ltac step_at f lemma :=
  match goal with
  | |- context [f ?tr] =>
      let E := fresh "E" in
      let a := fresh "a" in
      let t := fresh "t" in
      pose proof (lemma tr) as E; cbv beta in E;
      match type of E with _ = ?v => change ((f tr).1 = v) in E end;
      destruct (f tr) as [a t]; cbn [fst] in E; subst a; cbv beta iota
  end.

(** X24.  A query round-trips through [decode_dns].  For a message made of
    a 12-byte header with one question and no answer, a name of labels
    that are not empty and have no pointer as length byte, and the type
    and class of the question: [decode_dns] returns [true] with the
    transaction id, flags, section counts, type and class of the message,
    [is_query] set when bit 15 of the flags is clear, the labels joined by
    dots as [query_name], no answers, and one more decoded message
    counted. *)
Theorem decode_dns_query_round_trip (id flags authority additional : Z)
    (labels : list (list Z)) (qtype qclass : Z) (bm : Z -> Z)
    (dns : DNSData) (dec : ProtocolDecoder) :
  Forall (fun x => 0 <= x < 2 ^ 16)
    [id; flags; authority; additional; qtype; qclass] ->
  Forall wf_label labels ->
  let message := encode_query id flags authority additional labels qtype qclass in
  Z.of_nat (List.length message) < 2 ^ 32 ->
  (run_rd (decode_dns (S (List.length labels)) (mkPtr (mkBuffer message bm) 0)
             (Z.of_nat (List.length message)) dns dec)).1
  = Some (true,
          mkDNSData id (Z.land flags 0x8000 =? 0)
            (negb (Z.land flags 0x8000 =? 0)) flags (dotted_name labels)
            qtype qclass [] 0 authority additional,
          mkProtocolDecoder (http_decoded_ dec) (u64 (dns_decoded_ dec + 1))
            (decode_errors_ dec)).
Proof.
  intros Hw Hwf message Hb.
  repeat (apply Forall_cons in Hw as [? Hw]).
  set (hdr := Wire.be16 id ++ Wire.be16 flags ++ Wire.be16 1 ++ Wire.be16 0
              ++ Wire.be16 authority ++ Wire.be16 additional).
  set (tail := Wire.be16 qtype ++ Wire.be16 qclass).
  assert (Hmsg : message = hdr ++ encode_name labels ++ tail) by reflexivity.
  assert (Hlen : Z.of_nat (List.length message)
                 = 12 + Z.of_nat (List.length (encode_name labels)) + 4).
  { rewrite Hmsg, !length_app. cbn [List.length hdr tail Wire.be16 app]. lia. }
  set (p := mkPtr (mkBuffer message bm) 0).
  set (len := Z.of_nat (List.length message)) in *.
  assert (Hdns : forall tr, (is_dns p len tr).1 = true).
  { intros tr. unfold is_dns. destruct (Z.ltb_spec len 12); [lia|].
    rd_unfold. cbn [fst buf off p].
    rewrite !byte_at_nth by (fold len; lia). reflexivity. }
  assert (Hread : forall (pre post : list Z) x tr,
            0 <= x < 2 ^ 16 -> Z.of_nat (List.length pre) + 1 < 2 ^ 32 ->
            message = pre ++ Wire.be16 x ++ post ->
            (read_uint16 p (Z.of_nat (List.length pre)) tr).1 = x).
  { intros pre post x tr Hx Hp E. unfold p. rewrite E.
    now apply read_uint16_in. }
  unfold run_rd, decode_dns. cbv beta iota delta [mbind rd_bind mret rd_ret].
  step_with Hdns. cbn [negb].
  step_with (fun tr => Hread [] (Wire.be16 flags ++ Wire.be16 1 ++ Wire.be16 0
                ++ Wire.be16 authority ++ Wire.be16 additional
                ++ encode_name labels ++ tail) id tr
               ltac:(assumption) ltac:(cbn; lia) eq_refl).
  step_with (fun tr => Hread (Wire.be16 id) (Wire.be16 1 ++ Wire.be16 0
                ++ Wire.be16 authority ++ Wire.be16 additional
                ++ encode_name labels ++ tail) flags tr
               ltac:(assumption) ltac:(cbn; lia) eq_refl).
  step_with (fun tr => Hread (Wire.be16 id ++ Wire.be16 flags) (Wire.be16 0
                ++ Wire.be16 authority ++ Wire.be16 additional
                ++ encode_name labels ++ tail) 1 tr
               ltac:(lia) ltac:(cbn; lia) eq_refl).
  step_with (fun tr => Hread (Wire.be16 id ++ Wire.be16 flags ++ Wire.be16 1)
               (Wire.be16 authority ++ Wire.be16 additional
                ++ encode_name labels ++ tail) 0 tr
               ltac:(lia) ltac:(cbn; lia) eq_refl).
  step_with (fun tr => Hread (Wire.be16 id ++ Wire.be16 flags ++ Wire.be16 1
                              ++ Wire.be16 0)
               (Wire.be16 additional ++ encode_name labels ++ tail) authority tr
               ltac:(assumption) ltac:(cbn; lia) eq_refl).
  step_with (fun tr => Hread (Wire.be16 id ++ Wire.be16 flags ++ Wire.be16 1
                              ++ Wire.be16 0 ++ Wire.be16 authority)
               (encode_name labels ++ tail) additional tr
               ltac:(assumption) ltac:(cbn; lia) eq_refl).
  change (0 <? 1) with true. destruct (Z.ltb_spec 12 len); [|lia]. cbn [andb].
  assert (Hname : forall tr,
            (parse_dns_name (S (List.length labels)) p 12 len tr).1
            = Some (dotted_name labels,
                    12 + Z.of_nat (List.length (encode_name labels)))).
  { intros trace. unfold p, len. rewrite Hmsg.
    apply (parse_dns_name_labels labels hdr tail bm trace); [|exact Hwf].
    rewrite <- Hmsg. exact Hb. }
  step_with Hname.
  rewrite u32_small by lia.
  destruct (Z.leb_spec (12 + Z.of_nat (List.length (encode_name labels)) + 4) len);
    [|lia].
  assert (Hoff : 12 + Z.of_nat (List.length (encode_name labels))
                 = Z.of_nat (List.length (hdr ++ encode_name labels))).
  { rewrite length_app. cbn [List.length hdr Wire.be16 app]. lia. }
  rewrite (u32_small (12 + Z.of_nat (List.length (encode_name labels)) + 2)) by lia.
  step_at (read_uint16 p (12 + Z.of_nat (List.length (encode_name labels))))
          (fun tr => eq_ind_r
               (fun o => (read_uint16 p o tr).1 = qtype)
               (Hread (hdr ++ encode_name labels) (Wire.be16 qclass) qtype tr
                  ltac:(assumption) ltac:(rewrite <- Hoff; lia)
                  ltac:(rewrite Hmsg, <- app_assoc; reflexivity)) Hoff).
  assert (Hoff2 : 12 + Z.of_nat (List.length (encode_name labels)) + 2
                  = Z.of_nat (List.length ((hdr ++ encode_name labels)
                                           ++ Wire.be16 qtype))).
  { rewrite !length_app. cbn [List.length hdr Wire.be16 app]. lia. }
  step_at (read_uint16 p (12 + Z.of_nat (List.length (encode_name labels)) + 2))
          (fun tr => eq_ind_r
               (fun o => (read_uint16 p o tr).1 = qclass)
               (Hread ((hdr ++ encode_name labels) ++ Wire.be16 qtype) [] qclass tr
                  ltac:(assumption) ltac:(rewrite <- Hoff2; lia)
                  ltac:(rewrite Hmsg, <- !app_assoc, app_nil_r; reflexivity)) Hoff2).
  cbn [answer_count transaction_id is_query is_response dns_flags query_name
       query_type query_class authority_count additional_count
       Z.to_nat skip_answers].
  cbv beta iota delta [mret rd_ret]. reflexivity.
Qed.

Import Vectors.

Lemma decode_dns_query_round_trip_witness :
  (run_rd (decode_dns 3
             (mkPtr (mkBuffer (encode_query 7 256 0 0 [[119; 119; 119]; [97; 98]] 1 1)
                       (fun _ => 0)) 0)
             24 (mkDNSData 0 false false 0 EmptyString 0 0 [] 0 0 0) Dns.init)).1
  = Some (true,
          mkDNSData 7 true false 256 "www.ab" 1 1 [] 0 0 0,
          mkProtocolDecoder 0 1 0).
Proof.
  refine (decode_dns_query_round_trip 7 256 0 0 [[119; 119; 119]; [97; 98]] 1 1
            (fun _ => 0) (mkDNSData 0 false false 0 EmptyString 0 0 [] 0 0 0)
            Dns.init _ _ _).
  - repeat (apply List.Forall_cons; [lia|]). apply List.Forall_nil.
  - repeat (apply List.Forall_cons;
            [unfold wf_label; cbn;
             split; [lia|]; split; [discriminate|]; split; [lia|];
             repeat (apply List.Forall_cons; [lia|]); apply List.Forall_nil|]).
    apply List.Forall_nil.
  - cbn. lia.
Defined.

End DnsQueryProofs.

(** *** Names without pointers: termination and bounds *)

Module DnsBoundsProofs.
Import Types ParserProofs Dns DnsProofs.

Lemma load_bytes_trace p n : forall i tr,
  exists new,
    (load_bytes p i n tr).2 = new ++ tr
    /\ Forall (fun o => off p + i <= o < off p + i + Z.of_nat n) new.
Proof.
  induction n as [|n IH]; intros i tr.
  - exists []. split; [reflexivity | apply List.Forall_nil].
  - cbn [load_bytes]. cbv beta iota delta [mbind rd_bind mret rd_ret load].
    destruct (IH (i + 1) ((off p + i) :: tr)) as (new & E & Hnew).
    destruct (load_bytes p (i + 1) n ((off p + i) :: tr)) as [bs tr'].
    cbn [snd] in *. subst tr'.
    exists (new ++ [off p + i]). split; [now rewrite <- app_assoc|].
    apply Forall_app. split.
    + eapply Forall_impl; [exact Hnew|]. cbn. intros o Ho. lia.
    + apply List.Forall_cons; [lia | apply List.Forall_nil].
Qed.

Lemma name_loop_no_pointer data max :
  off data = 0 -> max + 256 < 2 ^ 32 ->
  (forall i, 0 <= i < max -> Z.land (byte_at (buf data) i) 0xC0 <> 0xC0) ->
  forall fuel s tr,
    0 <= ns_offset s ->
    (Z.to_nat (max - ns_offset s) < fuel)%nat ->
    exists s' new,
      name_loop fuel data max s tr = (Some s', new ++ tr)
      /\ ns_jumped s' = ns_jumped s
      /\ ns_original_offset s' = ns_original_offset s
      /\ ns_offset s <= ns_offset s'
      /\ ns_offset s' <= Z.max (ns_offset s) max
      /\ Forall (fun o => ns_offset s <= o < max) new.
Proof.
  intros Hoff Hmax Hnp. induction fuel as [|fuel IH]; intros s tr Hs Hf; [lia|].
  rewrite name_loop_S.
  destruct (Z.ltb_spec (ns_offset s) max) as [Hlt|Hge].
  2:{ exists s, []. cbn [app].
      split; [reflexivity|]. split; [reflexivity|]. split; [reflexivity|].
      split; [lia|]. split; [lia | apply List.Forall_nil]. }
  unfold name_step. cbv beta iota delta [mbind rd_bind mret rd_ret load].
  rewrite Hoff, Z.add_0_l.
  pose proof (byte_at_range (buf data) (ns_offset s)) as Hbyte.
  set (len := byte_at (buf data) (ns_offset s)) in *.
  destruct (Z.eqb_spec len 0) as [E0|N0].
  { exists (mkNameState (ns_name s) (ns_jumped s) (ns_original_offset s)
              (u32 (ns_offset s + 1))), [ns_offset s].
    cbn [ns_jumped ns_original_offset ns_offset app].
    rewrite u32_small by lia.
    split; [reflexivity|]. split; [reflexivity|]. split; [reflexivity|].
    split; [lia|]. split; [lia|].
    apply List.Forall_cons; [lia | apply List.Forall_nil]. }
  destruct (Z.eqb_spec (Z.land len 192) 192) as [Ep|_].
  { exfalso. apply (Hnp (ns_offset s)); [lia | exact Ep]. }
  rewrite (u32_small (ns_offset s + 1)) by lia.
  rewrite (u32_small (ns_offset s + 1 + len)) by lia.
  destruct (Z.ltb_spec max (ns_offset s + 1 + len)) as [Hbr|Hfit].
  { exists (mkNameState (ns_name s) (ns_jumped s) (ns_original_offset s)
              (ns_offset s + 1)), [ns_offset s].
    cbn [ns_jumped ns_original_offset ns_offset app].
    split; [reflexivity|]. split; [reflexivity|]. split; [reflexivity|].
    split; [lia|]. split; [lia|].
    apply List.Forall_cons; [lia | apply List.Forall_nil]. }
  destruct (load_bytes_trace data (Z.to_nat len) (ns_offset s + 1) (ns_offset s :: tr))
    as (new1 & E1 & Hnew1).
  destruct (load_bytes data (ns_offset s + 1) (Z.to_nat len) (ns_offset s :: tr))
    as [label tr1].
  cbn [snd] in E1. subst tr1.
  match goal with
  | |- context [name_loop fuel data max ?s1 ?t1] =>
      destruct (IH s1 t1) as (s' & new & E & J & O & L1 & L2 & Hnew);
        [cbn [ns_offset]; lia | cbn [ns_offset]; lia |]
  end.
  rewrite E. cbn [ns_jumped ns_original_offset ns_offset] in *.
  exists s', (new ++ new1 ++ [ns_offset s]).
  split; [now rewrite <- !app_assoc|].
  split; [exact J|]. split; [exact O|]. split; [lia|]. split; [lia|].
  apply Forall_app. split; [|apply Forall_app; split].
  - eapply Forall_impl; [exact Hnew|]. cbn. intros o Ho. lia.
  - eapply Forall_impl; [exact Hnew1|]. cbn. intros o Ho. lia.
  - apply List.Forall_cons; [lia | apply List.Forall_nil].
Qed.

(** X25.  Without compression pointers [parse_dns_name] ends and stays
    inside the message.  When no byte of the message has its two top bits
    set (and the message is not within 256 bytes of 4 GiB), a call at an
    offset inside the message returns after at most one turn per byte left,
    leaves [offset] further on and at most at the end of the message, and
    has read only bytes from the starting offset on and before the end. *)
Theorem parse_dns_name_without_pointers (data : Ptr) (offset max_length : Z) :
  off data = 0 -> 0 <= offset < max_length -> max_length + 256 < 2 ^ 32 ->
  (forall i, 0 <= i < max_length ->
             Z.land (byte_at (buf data) i) 0xC0 <> 0xC0) ->
  let r := run_rd (parse_dns_name (S (Z.to_nat (max_length - offset)))
                     data offset max_length) in
  (exists name offset',
      r.1 = Some (name, offset') /\ offset < offset' <= max_length)
  /\ Forall (fun o => offset <= o < max_length) r.2.
Proof.
  intros Hoff Ho Hmax Hnp. cbv zeta. unfold run_rd, parse_dns_name.
  cbv beta iota delta [mbind rd_bind mret rd_ret].
  destruct (name_loop_no_pointer data max_length Hoff Hmax Hnp
              (S (Z.to_nat (max_length - offset)))
              (mkNameState EmptyString false offset offset) [])
    as (s' & new & E & J & O & L1 & L2 & Hnew);
    [cbn [ns_offset]; lia | cbn [ns_offset]; lia |].
  rewrite E. cbn [fst snd ns_jumped ns_offset] in *. rewrite J.
  rewrite Z.max_r in L2 by lia.
  rewrite app_nil_r. split; [|exact Hnew].
  exists (ns_name s'), (ns_offset s'). split; [reflexivity|].
  split; [|lia].
  (* the first turn moves the offset *)
  revert E. rewrite name_loop_S. cbn [ns_offset].
  destruct (Z.ltb_spec offset max_length) as [_|?]; [|lia].
  unfold name_step. cbv beta iota delta [mbind rd_bind mret rd_ret load].
  rewrite Hoff, Z.add_0_l. cbn [ns_offset ns_name ns_jumped ns_original_offset].
  pose proof (byte_at_range (buf data) offset) as Hbyte.
  set (len := byte_at (buf data) offset) in *.
  destruct (Z.eqb_spec len 0) as [E0|N0].
  { rewrite u32_small by lia. intros [= <- _]. cbn [ns_offset]. lia. }
  destruct (Z.eqb_spec (Z.land len 192) 192) as [Ep|_].
  { exfalso. apply (Hnp offset); [lia | exact Ep]. }
  rewrite (u32_small (offset + 1)) by lia.
  rewrite (u32_small (offset + 1 + len)) by lia.
  destruct (Z.ltb_spec max_length (offset + 1 + len)) as [Hbr|Hfit].
  { intros [= <- _]. cbn [ns_offset]. lia. }
  destruct (load_bytes data (offset + 1) (Z.to_nat len) [offset]) as [label tr1].
  match goal with
  | |- context [name_loop ?f data max_length ?s1 ?t1] =>
      destruct (name_loop_no_pointer data max_length Hoff Hmax Hnp f s1 t1)
        as (s2 & new2 & E2 & _ & _ & M1 & _);
        [cbn [ns_offset]; lia | cbn [ns_offset]; lia |]
  end.
  rewrite E2. intros [= <- _]. cbn [ns_offset] in M1. lia.
Qed.

Import Vectors.

Lemma parse_dns_name_without_pointers_witness :
  Forall (fun o => 2 <= o < 11)
    (run_rd (parse_dns_name 10
               (mkPtr (mkBuffer ([7; 7] ++ encode_name [[119; 119; 119]; [97; 98]] ++ [1])
                         (fun _ => 0)) 0) 2 11)).2.
Proof.
  refine (proj2 (parse_dns_name_without_pointers
            (mkPtr (mkBuffer ([7; 7] ++ encode_name [[119; 119; 119]; [97; 98]] ++ [1])
                      (fun _ => 0)) 0) 2 11 eq_refl _ _ _)).
  - lia.
  - lia.
  - intros i Hi.
    assert (Hc : i = 0 \/ i = 1 \/ i = 2 \/ i = 3 \/ i = 4 \/ i = 5 \/ i = 6
                 \/ i = 7 \/ i = 8 \/ i = 9 \/ i = 10) by lia.
    repeat (destruct Hc as [->|Hc]; [vm_compute; discriminate|]).
    subst i. vm_compute. discriminate.
Defined.

End DnsBoundsProofs.
